(** * Matrix Sandbox: the render/evaluation core of [sandbox.py]

    A shallow embedding of the geometry builders ([make_grid],
    [make_vector]), of the expression evaluator ([safe_eval], a
    [try]/[except] around Python's [eval] in a restricted namespace), of
    the per-frame transform and of one iteration of [render_loop].

    Python's [float] is IEEE binary64, which is the kernel's primitive
    [float]; NumPy's [float32] arrays hold binary64 values rounded to
    binary32.  Python's [int] is [Z].  The C library behind the [math]
    module is a parameter ([Libm]).  Effects are explicit: the evaluator
    passes along the interpreter state that the modelled operations
    change (the names removed from [math.__dict__]), and the render
    thread runs
    in a state monad over the world it sees (control state, clock, GL
    state, trace of calls).

    Around the loop, [compile_shader] and [make_program] run on the
    shader and program objects of a GL context, with the driver's GLSL
    compiler and linker as a parameter, and [render_loop] as a whole
    (GLFW start, window, program, buffers, the loop, [glfw.terminate])
    runs on the thread's process, under a schedule of what the control
    surface, the clock and the window do between iterations. *)

From Stdlib Require Import ZArith List String Ascii Bool Lia.
From Stdlib Require Import Floats.
From Stdlib Require Uint63.
Import ListNotations.

Set Warnings "-inexact-float,-register-all".

(* ================================================================== *)
(** * Numbers *)

Module Num.

(** Python's [float(z)] on an [int], before the overflow check: the
    binary64 value nearest to [z] (ties to even). *)
Definition float_of_Z (z : Z) : float :=
  SF2Prim (binary_normalize prec emax z 0 false).

Definition f32_prec : Z := 24.
Definition f32_emax : Z := 128.

(** [np.float32(x)] for a binary64 [x], held again as a binary64 value
    (every binary32 value is one). *)
Definition float32 (x : float) : float :=
  match Prim2SF x with
  | S754_finite s m e =>
      SF2Prim (binary_normalize f32_prec f32_emax (cond_Zopp s (Zpos m)) e s)
  | _ => x
  end.

(** [np.float32(z)] for a Python [int]. *)
Definition float32_of_Z (z : Z) : float :=
  SF2Prim (binary_normalize f32_prec f32_emax z 0 false).

(** The integer a float is equal to, when it is equal to one:
    [int(x)] under [x.is_integer()].  A finite float is
    [(-1)^s * m * 2^e]. *)
Definition int_of_float (x : float) : option Z :=
  match Prim2SF x with
  | S754_zero _ => Some 0%Z
  | S754_finite s m e =>
      if (0 <=? e)%Z then Some (cond_Zopp s (Zpos m * 2 ^ e))%Z
      else if (Zpos m mod 2 ^ (- e) =? 0)%Z
           then Some (cond_Zopp s (Zpos m / 2 ^ (- e)))%Z
           else None
  | _ => None
  end.

(** The mantissa [m * 2^k], for [k >= 0]. *)
Definition mantissa_shl (m : positive) (k : Z) : positive :=
  match k with
  | Zpos p => Pos.iter xO m p
  | _ => m
  end.

(** [math.pi] and [math.e]. *)
Definition pi : float := 0x1.921fb54442d18p+1%float.
Definition e : float := 0x1.5bf0a8b145769p+1%float.

(** [x == y] on floats is [PrimFloat.eqb]: [-0.0 == 0.0], and a NaN is
    equal to nothing. *)
Definition feq (x y : float) : bool := PrimFloat.eqb x y.

(** [abs(x - y) <= tol]. *)
Definition close_to (tol x y : float) : bool :=
  PrimFloat.leb (PrimFloat.abs (x - y)) tol.

(** [x] is [y] or one of its two neighbours in binary64. *)
Definition within_ulp (x y : float) : Prop :=
  In x [next_down y; y; next_up y].

End Num.

(* ================================================================== *)
(** * The C library behind [math] *)

Record Libm := {
  m_cos : float -> float;
  m_sin : float -> float;
  m_tan : float -> float;
  m_atan2 : float -> float -> float
}.

(* ================================================================== *)
(** * Geometry builders *)

Module Geometry.
Import Num.

(** [range(lo, hi)]. *)
Definition py_range (lo hi : Z) : list Z :=
  map (fun k => (lo + Z.of_nat k)%Z) (seq 0 (Z.to_nat (hi - lo))).

(** One turn of the [for] loop of [make_grid]: two [+=]. *)
Definition grid_step (n : Z) (lines : list Z) (i : Z) : list Z :=
  ((lines ++ [i; - n; i; n]) ++ [- n; i; n; i])%Z.

(** The Python list [lines] when the loop of [make_grid] ends. *)
Definition grid_lines (n : Z) : list Z :=
  fold_left (grid_step n) (py_range (- n) (n + 1)) [].

(** [make_grid(n)]: [np.array(lines, dtype=np.float32)]. *)
Definition make_grid (n : Z) : list float :=
  map float32_of_Z (grid_lines n).

(** A flat vertex array read as line segments [(x1, y1, x2, y2)], the
    way [glDrawArrays(GL_LINES, ...)] consumes it. *)
Fixpoint segments {A : Type} (l : list A) : list (A * A * A * A) :=
  match l with
  | x1 :: y1 :: x2 :: y2 :: rest => (x1, y1, x2, y2) :: segments rest
  | _ => []
  end.

Definition head_len : float := 0.3%float.

(** [math.radians(x)]: [x * (pi / 180)]. *)
Definition radians (x : float) : float := (x * (pi / 180))%float.

Definition head_ang : float := radians 20.

Section WithLibm.
Variable libm : Libm.

Definition wing_left (x y : float) : float :=
  (m_atan2 libm y x + pi - head_ang)%float.

Definition wing_right (x y : float) : float :=
  (m_atan2 libm y x + pi + head_ang)%float.

(** The Python list [vertices] when [make_vector] returns.  The
    arguments are numbers; the call site passes the ints 3 and 1.
    [math.atan2], [math.cos] and [math.sin] are the library's functions:
    the domain checks CPython adds (see [PyEval.math_1]) only reject a
    NaN or an infinity that the argument does not explain. *)
Definition vector_vertices (x y : float) : list float :=
  let vertices := [0; 0; x; y]%float in
  let angle := m_atan2 libm y x in
  let left := (angle + pi - head_ang)%float in
  let right := (angle + pi + head_ang)%float in
  let x2 := x in
  let y2 := y in
  let vertices :=
    vertices ++ [x2; y2; x2 + head_len * m_cos libm left;
                 y2 + head_len * m_sin libm left]%float in
  let vertices :=
    vertices ++ [x2; y2; x2 + head_len * m_cos libm right;
                 y2 + head_len * m_sin libm right]%float in
  vertices.

(** [make_vector(x, y)]: [np.array(vertices, dtype=np.float32)]. *)
Definition make_vector (x y : float) : list float :=
  map float32 (vector_vertices x y).

End WithLibm.

End Geometry.

(* ================================================================== *)
(** * Python's [eval] on arithmetic formulas

    [safe_eval] hands the text typed in the control panel to Python's
    [eval].  The embedding covers a fragment of Python expressions:
    decimal literals, plain string literals, names, attribute access,
    calls, parentheses, unary [+ -] and binary [+ - * /], on sources of
    at most [max_source_length] characters.  An outcome is a value, a
    raised exception, or [Beyond] for a source (or an operation on its
    values) that the fragment does not cover.  Nothing is stated about
    [Beyond]: such a formula can do what Python can, and the state that
    comes with [Beyond] is not the one the program is left in. *)

Module PyExpr.
Import Num.

(** The exception classes the fragment raises.  [KeyboardInterrupt] and
    [SystemExit] derive from [BaseException] only: [except Exception]
    lets them through. *)
Inductive exn : Type :=
| SyntaxError | NameError | TypeError | ValueError
| ZeroDivisionError | OverflowError | AttributeError | KeyError
| KeyboardInterrupt | SystemExit.

(** [isinstance(x, Exception)]. *)
Definition is_Exception (x : exn) : bool :=
  match x with
  | KeyboardInterrupt | SystemExit => false
  | _ => true
  end.

Inductive outcome (A : Type) : Type :=
| Ret (a : A)
| Raise (x : exn)
| Beyond.
Arguments Ret {A} a.
Arguments Raise {A} x.
Arguments Beyond {A}.

Definition bind {A B : Type} (m : outcome A) (k : A -> outcome B) : outcome B :=
  match m with
  | Ret a => k a
  | Raise x => Raise x
  | Beyond => Beyond
  end.

Notation "x <- m ;; k" := (bind m (fun x => k))
  (at level 61, m at next level, right associativity).

(** ** Tokens *)

Inductive number : Type :=
| Int (z : Z)
| Float (f : float).

Inductive token : Type :=
| TNum (n : number)
| TName (s : string)
| TStr (s : string)
| TPlus | TMinus | TStar | TSlash
| TLParen | TRParen | TDot | TComma.

Definition code (c : ascii) : N := N_of_ascii c.

Definition is_digit (c : ascii) : bool :=
  ((48 <=? code c) && (code c <=? 57))%N.

Definition digit_val (c : ascii) : Z := Z.of_N (code c - 48).

Definition is_alpha (c : ascii) : bool :=
  (((65 <=? code c) && (code c <=? 90))
   || ((97 <=? code c) && (code c <=? 122))
   || (code c =? 95))%N.

Definition is_space (c : ascii) : bool :=
  ((code c =? 32) || (code c =? 9))%N.

Definition is_quote (c : ascii) : bool :=
  ((code c =? 39) || (code c =? 34))%N.

(** A character a plain string literal may hold: printable ASCII
    other than the backslash. *)
Definition is_plain (c : ascii) : bool :=
  ((32 <=? code c) && (code c <=? 126) && negb (code c =? 92))%N.

Definition keywords : list string :=
  ["False"; "None"; "True"; "and"; "as"; "assert"; "async"; "await";
   "break"; "class"; "continue"; "def"; "del"; "elif"; "else"; "except";
   "finally"; "for"; "from"; "global"; "if"; "import"; "in"; "is";
   "lambda"; "nonlocal"; "not"; "or"; "pass"; "raise"; "return"; "try";
   "while"; "with"; "yield"; "__debug__"]%string.

Definition is_keyword (s : string) : bool :=
  existsb (String.eqb s) keywords.

(** ** Lexer: one character at a time *)

Inductive lstate : Type :=
| LIdle
| LName (acc : list ascii)
| LInt (lead0 : bool) (nd : nat) (v : Z)
| LFrac (bad : bool) (m : Z) (k : nat)
| LDot
| LStar
| LSlash
| LStr (q : ascii) (acc : list ascii).

Inductive lres : Type :=
| LGo (st : lstate) (emit : list token)
| LBeyond.

Definition name_token (acc : list ascii) : option (list token) :=
  let s := string_of_list_ascii (rev acc) in
  if is_keyword s then None else Some [TName s].

(** An integer literal of several digits may not start with [0]. *)
Definition int_token (lead0 : bool) (nd : nat) (v : Z) : option (list token) :=
  if lead0 && (1 <? nd)%nat then None else Some [TNum (Int v)].

(** [m / 10^k] is the correctly rounded value of the literal when both
    are exact in binary64. *)
Definition float_token (bad : bool) (m : Z) (k : nat) : option (list token) :=
  if bad then None
  else if ((m <? 2 ^ 53) && (Z.of_nat k <=? 22))%Z
       then Some [TNum (Float (float_of_Z m / float_of_Z (10 ^ Z.of_nat k))%float)]
       else None.

Definition lex_idle (c : ascii) : lres :=
  if is_space c then LGo LIdle []
  else if is_digit c then LGo (LInt (code c =? 48)%N 1 (digit_val c)) []
  else if is_alpha c then LGo (LName [c]) []
  else if is_quote c then LGo (LStr c []) []
  else match code c with
       | 46%N => LGo LDot []
       | 43%N => LGo LIdle [TPlus]
       | 45%N => LGo LIdle [TMinus]
       | 42%N => LGo LStar []
       | 47%N => LGo LSlash []
       | 40%N => LGo LIdle [TLParen]
       | 41%N => LGo LIdle [TRParen]
       | 44%N => LGo LIdle [TComma]
       | _ => LBeyond
       end.

Definition emit_then (ts : option (list token)) (c : ascii) : lres :=
  match ts with
  | None => LBeyond
  | Some ts =>
      match lex_idle c with
      | LGo st ts' => LGo st (ts ++ ts')
      | LBeyond => LBeyond
      end
  end.

Definition lex_step (st : lstate) (c : ascii) : lres :=
  match st with
  | LIdle => lex_idle c
  | LName acc =>
      if is_alpha c || is_digit c then LGo (LName (c :: acc)) []
      else if is_quote c then LBeyond
      else emit_then (name_token acc) c
  | LInt lead0 nd v =>
      if is_digit c then LGo (LInt lead0 (S nd) (10 * v + digit_val c)%Z) []
      else if (code c =? 46)%N then LGo (LFrac (lead0 && (1 <? nd)%nat) v 0) []
      else if is_alpha c then LBeyond
      else emit_then (int_token lead0 nd v) c
  | LFrac bad m k =>
      if is_digit c then LGo (LFrac bad (10 * m + digit_val c)%Z (S k)) []
      else if is_alpha c then LBeyond
      else emit_then (float_token bad m k) c
  | LDot =>
      if is_digit c then LGo (LFrac false (digit_val c) 1) []
      else if (code c =? 46)%N then LBeyond
      else emit_then (Some [TDot]) c
  | LStar =>
      if (code c =? 42)%N then LBeyond else emit_then (Some [TStar]) c
  | LSlash =>
      if (code c =? 47)%N then LBeyond else emit_then (Some [TSlash]) c
  | LStr q acc =>
      if (code c =? code q)%N
      then match acc with
           | [] => LBeyond
           | _ => LGo LIdle [TStr (string_of_list_ascii (rev acc))]
           end
      else if is_plain c then LGo (LStr q (c :: acc)) []
      else LBeyond
  end.

Definition of_option {A : Type} (o : option A) : outcome A :=
  match o with
  | Some a => Ret a
  | None => Beyond
  end.

(** At the end of the text; a string literal still open is a
    [SyntaxError]. *)
Definition lex_end (st : lstate) : outcome (list token) :=
  match st with
  | LIdle => Ret []
  | LName acc => of_option (name_token acc)
  | LInt lead0 nd v => of_option (int_token lead0 nd v)
  | LFrac bad m k => of_option (float_token bad m k)
  | LDot => Ret [TDot]
  | LStar => Ret [TStar]
  | LSlash => Ret [TSlash]
  | LStr _ _ => Raise SyntaxError
  end.

Fixpoint lex_from (st : lstate) (cs : list ascii) : outcome (list token) :=
  match cs with
  | [] => lex_end st
  | c :: rest =>
      match lex_step st c with
      | LGo st' ts => more <- lex_from st' rest ;; Ret (ts ++ more)
      | LBeyond => Beyond
      end
  end.

Definition lex (s : string) : outcome (list token) :=
  lex_from LIdle (list_ascii_of_string s).

(** ** Syntax trees and the parser *)

Inductive unop : Type := UPlus | UMinus.
Inductive binop : Type := Add | Sub | Mul | Div.

Inductive expr : Type :=
| ENum (n : number)
| EStr (s : string)
| EName (id : string)
| EAttr (e : expr) (attr : string)
| ECall (f : expr) (args : list expr)
| EUnary (op : unop) (e : expr)
| EBin (op : binop) (l r : expr).

(** Recursive descent over Python's grammar restricted to the tokens
    above:
      sum     ::= term (('+' | '-') term)*
      term    ::= factor (('*' | '/') factor)*
      factor  ::= ('+' | '-') factor | primary
      primary ::= atom ('.' NAME | '(' [sum (',' sum)* [',']] ')')*
      atom    ::= NUMBER | STRING | NAME | '(' sum ')'
    Tuples, starred operands and adjacent string literals are Python
    too, and are left out ([Beyond]).  [fuel] bounds the depth of the
    descent. *)
Fixpoint parse_sum (fuel : nat) (ts : list token) {struct fuel}
  : outcome (expr * list token) :=
  match fuel with
  | O => Beyond
  | S fuel =>
      r <- parse_term fuel ts ;;
      parse_sum_rest fuel (fst r) (snd r)
  end
with parse_sum_rest (fuel : nat) (lhs : expr) (ts : list token) {struct fuel}
  : outcome (expr * list token) :=
  match fuel with
  | O => Beyond
  | S fuel =>
      match ts with
      | TPlus :: ts' =>
          r <- parse_term fuel ts' ;;
          parse_sum_rest fuel (EBin Add lhs (fst r)) (snd r)
      | TMinus :: ts' =>
          r <- parse_term fuel ts' ;;
          parse_sum_rest fuel (EBin Sub lhs (fst r)) (snd r)
      | _ => Ret (lhs, ts)
      end
  end
with parse_term (fuel : nat) (ts : list token) {struct fuel}
  : outcome (expr * list token) :=
  match fuel with
  | O => Beyond
  | S fuel =>
      r <- parse_factor fuel ts ;;
      parse_term_rest fuel (fst r) (snd r)
  end
with parse_term_rest (fuel : nat) (lhs : expr) (ts : list token) {struct fuel}
  : outcome (expr * list token) :=
  match fuel with
  | O => Beyond
  | S fuel =>
      match ts with
      | TStar :: ts' =>
          r <- parse_factor fuel ts' ;;
          parse_term_rest fuel (EBin Mul lhs (fst r)) (snd r)
      | TSlash :: ts' =>
          r <- parse_factor fuel ts' ;;
          parse_term_rest fuel (EBin Div lhs (fst r)) (snd r)
      | _ => Ret (lhs, ts)
      end
  end
with parse_factor (fuel : nat) (ts : list token) {struct fuel}
  : outcome (expr * list token) :=
  match fuel with
  | O => Beyond
  | S fuel =>
      match ts with
      | TPlus :: ts' =>
          r <- parse_factor fuel ts' ;; Ret (EUnary UPlus (fst r), snd r)
      | TMinus :: ts' =>
          r <- parse_factor fuel ts' ;; Ret (EUnary UMinus (fst r), snd r)
      | TNum n :: ts' => parse_trailers fuel (ENum n) ts'
      | TName x :: ts' => parse_trailers fuel (EName x) ts'
      | TStr _ :: TStr _ :: _ => Beyond
      | TStr s :: ts' => parse_trailers fuel (EStr s) ts'
      | TLParen :: TRParen :: _ => Beyond
      | TLParen :: ts' =>
          r <- parse_sum fuel ts' ;;
          match snd r with
          | TRParen :: ts'' => parse_trailers fuel (fst r) ts''
          | TComma :: _ => Beyond
          | _ => Raise SyntaxError
          end
      | TStar :: _ => Beyond
      | _ => Raise SyntaxError
      end
  end
with parse_trailers (fuel : nat) (e : expr) (ts : list token) {struct fuel}
  : outcome (expr * list token) :=
  match fuel with
  | O => Beyond
  | S fuel =>
      match ts with
      | TDot :: TName a :: ts' => parse_trailers fuel (EAttr e a) ts'
      | TDot :: _ => Raise SyntaxError
      | TLParen :: ts' =>
          r <- parse_args fuel ts' ;;
          parse_trailers fuel (ECall e (fst r)) (snd r)
      | _ => Ret (e, ts)
      end
  end
with parse_args (fuel : nat) (ts : list token) {struct fuel}
  : outcome (list expr * list token) :=
  match fuel with
  | O => Beyond
  | S fuel =>
      match ts with
      | TRParen :: ts' => Ret ([], ts')
      | _ =>
          r <- parse_sum fuel ts ;;
          match snd r with
          | TRParen :: ts' => Ret ([fst r], ts')
          | TComma :: ts' =>
              more <- parse_args fuel ts' ;;
              Ret (fst r :: fst more, snd more)
          | _ => Raise SyntaxError
          end
      end
  end.

Definition parse_fuel (ts : list token) : nat := 8 * List.length ts + 8.

(** The whole text is one expression ([eval] mode); a comma after it
    would make a tuple. *)
Definition parse (ts : list token) : outcome expr :=
  r <- parse_sum (parse_fuel ts) ts ;;
  match snd r with
  | [] => Ret (fst r)
  | TComma :: _ => Beyond
  | _ => Raise SyntaxError
  end.

Definition max_source_length : nat := 80.

(** [compile(source, "<string>", "eval")]. *)
Definition py_compile (source : string) : outcome expr :=
  if (max_source_length <? String.length source)%nat then Beyond
  else ts <- lex source ;; parse ts.

End PyExpr.

(* ================================================================== *)
(** * Evaluation *)

Module PyEval.
Import Num PyExpr.

(** The modules [sandbox.py] imports whose functions an expression
    could call were they in scope, and [sys], which an expression
    reaches from [math] (see [get_attr]). *)
Inductive pymodule : Type := Math | Time | Sys.

(** [FSpecInit] is the bound method [math.__spec__.__init__],
    [FGlobalsGet] the method [get] of its [__globals__], [FSysExit] is
    [sys.exit]. *)
Inductive builtin : Type :=
| FCos | FSin | FTan | FSqrt | FAtan2 | FRadians
| FTime
| FMathDictPop
| FSpecInit | FGlobalsGet | FSysExit.

(** [VMathDict] is [math.__dict__], the namespace of the module object,
    and [FMathDictPop] its bound method [pop].  [VModuleSpec] is
    [math.__spec__], the import system's record of the module, and
    [VBootstrapGlobals] the globals of [importlib._bootstrap], where the
    class of that record is defined and which hold [sys]. *)
Inductive value : Type :=
| VInt (z : Z)
| VFloat (f : float)
| VStr (s : string)
| VModule (m : pymodule)
| VFunc (b : builtin)
| VEmptyDict
| VMathDict
| VModuleSpec
| VBootstrapGlobals.

(** The globals of an [eval] call and the dict its [__builtins__] key
    holds; a name is looked up in the first, then in the second. *)
Record namespace := {
  ns_globals : list (string * value);
  ns_builtins : list (string * value)
}.

Fixpoint assoc (x : string) (l : list (string * value)) : option value :=
  match l with
  | [] => None
  | (k, v) :: rest => if String.eqb x k then Some v else assoc x rest
  end.

Definition lookup_name (ns : namespace) (x : string) : outcome value :=
  match assoc x (ns_globals ns) with
  | Some v => Ret v
  | None =>
      match assoc x (ns_builtins ns) with
      | Some v => Ret v
      | None => Raise NameError
      end
  end.

(** The members of [math] the embedding covers, as the module is when
    the program starts. *)
Definition math_members : list (string * value) :=
  [("cos", VFunc FCos); ("sin", VFunc FSin); ("tan", VFunc FTan);
   ("sqrt", VFunc FSqrt); ("atan2", VFunc FAtan2);
   ("radians", VFunc FRadians);
   ("pi", VFloat pi); ("e", VFloat e);
   ("__spec__", VModuleSpec)]%string.

Definition time_members : list (string * value) :=
  [("time", VFunc FTime)]%string.

(** The interpreter state that the operations of the fragment change:
    the names removed from [math.__dict__] so far. *)
Definition popped : Type := list string.

Definition was_popped (k : string) (st : popped) : bool :=
  existsb (String.eqb k) st.

(** An evaluation step: it reads and may change that state. *)
Definition E (A : Type) : Type := popped -> outcome A * popped.

Definition lift {A : Type} (o : outcome A) : E A := fun st => (o, st).

Definition ebind {A B : Type} (m : E A) (k : A -> E B) : E B :=
  fun st =>
    match m st with
    | (Ret a, st') => k a st'
    | (Raise x, st') => (Raise x, st')
    | (Beyond, st') => (Beyond, st')
    end.

Notation "x <~ m ;; k" := (ebind m (fun x => k))
  (at level 61, m at next level, right associativity).

(** [v.a].  On [math]: [__dict__], then the members above unless
    removed; any other attribute is left out.  From [math.__spec__] the
    chain [.__init__.__globals__.get('sys')] leads to the module [sys],
    of which [exit] is covered. *)
Definition get_attr (v : value) (a : string) : E value :=
  match v with
  | VModule Math =>
      if String.eqb a "__dict__" then lift (Ret VMathDict)
      else fun st =>
             if was_popped a st then (Raise AttributeError, st)
             else (of_option (assoc a math_members), st)
  | VModule Time => lift (of_option (assoc a time_members))
  | VModule Sys =>
      if String.eqb a "exit" then lift (Ret (VFunc FSysExit)) else lift Beyond
  | VMathDict =>
      if String.eqb a "pop" then lift (Ret (VFunc FMathDictPop)) else lift Beyond
  | VModuleSpec =>
      if String.eqb a "__init__" then lift (Ret (VFunc FSpecInit))
      else lift Beyond
  | VFunc FSpecInit =>
      if String.eqb a "__globals__" then lift (Ret VBootstrapGlobals)
      else lift Beyond
  | VBootstrapGlobals =>
      if String.eqb a "get" then lift (Ret (VFunc FGlobalsGet)) else lift Beyond
  | _ => lift Beyond
  end.

(** A number as a C double (the argument conversion of [math] and of
    float arithmetic). *)
Definition as_double (v : value) : outcome float :=
  match v with
  | VInt z =>
      let f := float_of_Z z in
      if is_infinity f then Raise OverflowError else Ret f
  | VFloat f => Ret f
  | _ => Raise TypeError
  end.

(** CPython's wrappers around one- and two-argument libm functions: a
    NaN or an infinity that the arguments do not explain is an error. *)
Definition math_1 (f : float -> float) (x : float) : outcome float :=
  let r := f x in
  if is_nan r && negb (is_nan x) then Raise ValueError
  else if is_infinity r && is_finite x then Raise ValueError
  else Ret r.

Definition math_2 (f : float -> float -> float) (x y : float) : outcome float :=
  let r := f x y in
  if is_nan r then
    if negb (is_nan x) && negb (is_nan y) then Raise ValueError else Ret r
  else if is_infinity r then
    if is_finite x && is_finite y then Raise OverflowError else Ret r
  else Ret r.

Definition int_arith (op : binop) (x y : Z) : outcome value :=
  match op with
  | Add => Ret (VInt (x + y))
  | Sub => Ret (VInt (x - y))
  | Mul => Ret (VInt (x * y))
  | Div =>
      if (y =? 0)%Z then Raise ZeroDivisionError
      else if ((Z.abs x <=? 2 ^ 53) && (Z.abs y <=? 2 ^ 53))%Z
           then Ret (VFloat (float_of_Z x / float_of_Z y)%float)
           else Beyond
  end.

Definition float_arith (op : binop) (x y : float) : outcome value :=
  match op with
  | Add => Ret (VFloat (x + y)%float)
  | Sub => Ret (VFloat (x - y)%float)
  | Mul => Ret (VFloat (x * y)%float)
  | Div =>
      if PrimFloat.eqb y 0 then Raise ZeroDivisionError
      else Ret (VFloat (x / y)%float)
  end.

(** Binary arithmetic.  [str + str] and [str * int] are sequence
    operations, left out. *)
Definition arith (op : binop) (a b : value) : outcome value :=
  match a, b with
  | VInt x, VInt y => int_arith op x y
  | VInt _, VFloat _ | VFloat _, VInt _ | VFloat _, VFloat _ =>
      x <- as_double a ;; y <- as_double b ;; float_arith op x y
  | VStr _, VStr _ =>
      match op with Add => Beyond | _ => Raise TypeError end
  | VStr _, VInt _ | VInt _, VStr _ =>
      match op with Mul => Beyond | _ => Raise TypeError end
  | _, _ => Raise TypeError
  end.

Definition unary (op : unop) (v : value) : outcome value :=
  match v, op with
  | VInt z, UPlus => Ret (VInt z)
  | VInt z, UMinus => Ret (VInt (- z))
  | VFloat f, UPlus => Ret (VFloat f)
  | VFloat f, UMinus => Ret (VFloat (- f)%float)
  | _, _ => Raise TypeError
  end.

Definition digits_value (cs : list ascii) : Z :=
  fold_left (fun acc c => (10 * acc + digit_val c)%Z) cs 0%Z.

(** [float(v)].  Of the strings [float] parses, only runs of at most 15
    digits are covered. *)
Definition py_float (v : value) : outcome float :=
  match v with
  | VInt _ | VFloat _ => as_double v
  | VStr s =>
      let cs := list_ascii_of_string s in
      if forallb is_digit cs && (1 <=? List.length cs)%nat
         && (List.length cs <=? 15)%nat
      then Ret (float_of_Z (digits_value cs))
      else Beyond
  | VModule _ | VFunc _ | VEmptyDict | VMathDict | VModuleSpec
  | VBootstrapGlobals => Raise TypeError
  end.

(** [math.__dict__.pop(key)] and [math.__dict__.pop(key, default)]: the
    value under [key], which leaves the dict; a key already removed is a
    [KeyError], or gives [default].  Keys outside [math_members] are left
    out. *)
Definition math_dict_pop (args : list value) : E value :=
  match args with
  | [] => lift (Raise TypeError)
  | [VStr k] =>
      fun st =>
        if was_popped k st then (Raise KeyError, st)
        else match assoc k math_members with
             | Some v => (Ret v, k :: st)
             | None => (Beyond, st)
             end
  | [VStr k; dflt] =>
      fun st =>
        if was_popped k st then (Ret dflt, st)
        else match assoc k math_members with
             | Some v => (Ret v, k :: st)
             | None => (Beyond, st)
             end
  | [_] | [_; _] => lift Beyond
  | _ => lift (Raise TypeError)
  end.

(** [get(key)] and [get(key, default)] on the globals of
    [importlib._bootstrap]: under ['sys'] they hold the module [sys];
    the other keys are left out. *)
Definition bootstrap_globals_get (args : list value) : outcome value :=
  match args with
  | [] => Raise TypeError
  | [VStr k] | [VStr k; _] =>
      if String.eqb k "sys" then Ret (VModule Sys) else Beyond
  | [_] | [_; _] => Beyond
  | _ => Raise TypeError
  end.

(** [sys.exit()] and [sys.exit(status)] raise [SystemExit]. *)
Definition sys_exit (args : list value) : outcome value :=
  match args with
  | [] | [_] => Raise SystemExit
  | _ => Raise TypeError
  end.

(** The arguments of a call, from left to right. *)
Fixpoint eval_list (ev : expr -> E value) (l : list expr) : E (list value) :=
  match l with
  | [] => lift (Ret [])
  | a :: rest =>
      v <~ ev a ;;
      vs <~ eval_list ev rest ;;
      lift (Ret (v :: vs))
  end.

Section Eval.
Variable libm : Libm.
(** The reading [time.time()] returns. *)
Variable wall : float.
Variable ns : namespace.

Definition call_builtin (b : builtin) (args : list value) : E value :=
  match b, args with
  | FCos, [v] =>
      lift (x <- as_double v ;; r <- math_1 (m_cos libm) x ;; Ret (VFloat r))
  | FSin, [v] =>
      lift (x <- as_double v ;; r <- math_1 (m_sin libm) x ;; Ret (VFloat r))
  | FTan, [v] =>
      lift (x <- as_double v ;; r <- math_1 (m_tan libm) x ;; Ret (VFloat r))
  | FSqrt, [v] =>
      lift (x <- as_double v ;; r <- math_1 PrimFloat.sqrt x ;; Ret (VFloat r))
  | FAtan2, [vy; vx] =>
      lift (y <- as_double vy ;; x <- as_double vx ;;
            r <- math_2 (m_atan2 libm) y x ;; Ret (VFloat r))
  | FRadians, [v] => lift (x <- as_double v ;; Ret (VFloat (Geometry.radians x)))
  | FTime, [] => lift (Ret (VFloat wall))
  | FMathDictPop, _ => math_dict_pop args
  | FSpecInit, _ => lift Beyond
  | FGlobalsGet, _ => lift (bootstrap_globals_get args)
  | FSysExit, _ => lift (sys_exit args)
  | _, _ => lift (Raise TypeError)
  end.

Definition call (f : value) (args : list value) : E value :=
  match f with
  | VFunc b => call_builtin b args
  | _ => lift (Raise TypeError)
  end.

(** The callee, then the arguments from left to right, then the call;
    the left operand before the right one. *)
Fixpoint eval_expr (e : expr) : E value :=
  match e with
  | ENum (Int z) => lift (Ret (VInt z))
  | ENum (Float f) => lift (Ret (VFloat f))
  | EStr s => lift (Ret (VStr s))
  | EName x => lift (lookup_name ns x)
  | EAttr e1 a => v <~ eval_expr e1 ;; get_attr v a
  | ECall f args =>
      fv <~ eval_expr f ;;
      vs <~ eval_list eval_expr args ;;
      call fv vs
  | EUnary op e1 => v <~ eval_expr e1 ;; lift (unary op v)
  | EBin op l r => a <~ eval_expr l ;; b <~ eval_expr r ;; lift (arith op a b)
  end.

(** [eval(source, globals)]. *)
Definition py_eval (source : string) : E value :=
  match py_compile source with
  | Ret e => eval_expr e
  | Raise x => lift (Raise x)
  | Beyond => lift Beyond
  end.

End Eval.

(** The dict literal of [safe_eval]:
    [{"__builtins__": {}, "math": math, "t": env["t"]}]. *)
Definition sandbox (env_t : float) : namespace :=
  {| ns_globals := [("__builtins__", VEmptyDict); ("math", VModule Math);
                    ("t", VFloat env_t)]%string;
     ns_builtins := [] |}.

(** [float(eval(expr, {...}))], the body of the [try]. *)
Definition eval_float (libm : Libm) (wall env_t : float) (expr : string)
  : E float :=
  v <~ py_eval libm wall (sandbox env_t) expr ;; lift (py_float v).

(** [safe_eval(expr)], the closure of [render_loop], with the [env["t"]]
    it captures:
      try: return float(eval(expr, {...}))
      except Exception: return 0.0 *)
Definition safe_eval (libm : Libm) (wall env_t : float) (expr : string)
  : E float :=
  fun st =>
    match eval_float libm wall env_t expr st with
    | (Ret f, st') => (Ret f, st')
    | (Raise x, st') => (if is_Exception x then Ret 0%float else Raise x, st')
    | (Beyond, st') => (Beyond, st')
    end.

End PyEval.

(* ================================================================== *)
(** * The transform and the vertex stage *)

Module Transform.
Import Num.

(** The array literal of [render_loop]:
    [np.array([[a, b, 0, 0], [c, d, 0, 0], [0, 0, 1, 0], [0, 0, 0, 1]],
              dtype=np.float32)], as its rows. *)
Definition matrix_M (a b c d : float) : list (list float) :=
  map (map float32)
    [[a; b; 0; 0]; [c; d; 0; 0]; [0; 0; 1; 0]; [0; 0; 0; 1]]%float.

(** The memory of a C-contiguous array, which is what
    [glUniformMatrix4fv] receives: the rows one after the other. *)
Definition ravel {A : Type} (m : list (list A)) : list A := List.concat m.

Definition identity4 : list (list float) :=
  [[1; 0; 0; 0]; [0; 1; 0; 0]; [0; 0; 1; 0]; [0; 0; 0; 1]]%float.

Fixpoint chunks4 {A : Type} (l : list A) : list (list A) :=
  match l with
  | x0 :: x1 :: x2 :: x3 :: rest => [x0; x1; x2; x3] :: chunks4 rest
  | _ => []
  end.

Definition entry (m : list (list float)) (i j : nat) : float :=
  nth j (nth i m []) 0%float.

Definition transpose4 (m : list (list float)) : list (list float) :=
  map (fun i => map (fun j => entry m j i) [0; 1; 2; 3]%nat) [0; 1; 2; 3]%nat.

(** A GLSL [mat4] is a list of four columns.  [glUniformMatrix4fv]
    reads 16 floats as consecutive columns, or as consecutive rows when
    [transpose] is [GL_TRUE]. *)
Definition uniform_of_buffer (transpose : bool) (value : list float)
  : list (list float) :=
  if transpose then transpose4 (chunks4 value) else chunks4 value.

Section Gpu.
(** The GPU's float addition and multiplication. *)
Variables gadd gmul : float -> float -> float.



End Gpu.

End Transform.

(* ================================================================== *)
(** * Shared control state and the render loop *)

Module Render.
Import Num PyExpr PyEval Geometry Transform.

(** The dict [shared] of [make_controls], each Tk variable by the value
    its [.get()] returns. *)
Record Shared := {
  a_expr : string;
  b_expr : string;
  c_expr : string;
  d_expr : string;
  a_scale : float;
  b_scale : float;
  c_scale : float;
  d_scale : float;
  paused : bool;
  show_grid : bool;
  show_arrow : bool;
  t0 : float
}.

(** The values [make_controls] starts from, at wall-clock [now]. *)
Definition initial_shared (now : float) : Shared :=
  {| a_expr := "math.cos(t)"; b_expr := "math.sin(t)";
     c_expr := "-math.sin(t)"; d_expr := "math.cos(t)";
     a_scale := 1; b_scale := 1; c_scale := 1; d_scale := 1;
     paused := false; show_grid := true; show_arrow := true;
     t0 := now |}.

Inductive buffer : Type := VboGrid | VboVec.

Definition color : Type := (float * float * float)%type.

(** What one [glDrawArrays] puts in the back buffer. *)
Record draw := {
  d_buffer : option buffer;
  d_count : Z;
  d_transform : list (list float);
  d_color : color
}.

Record GL := {
  uTransform : list (list float);
  uColor : color;
  array_buffer : option buffer;
  back : list draw;
  front : list draw
}.

Inductive event : Type :=
| EvPoll
| EvSleep (seconds : float)
| EvEval (expr : string) (t : float)
| EvClear
| EvUniformMatrix4fv (transpose : bool) (value : list float)
| EvUniform3f (c : color)
| EvBindBuffer (b : buffer)
| EvVertexAttribPointer
| EvEnableVertexAttribArray
| EvDrawArrays (first count : Z)
| EvSwapBuffers.

(** What the render thread can see or change: the control state, the
    wall clock, the window's close flag, the GL state, the names removed
    from [math.__dict__], and the calls made so far. *)
Record World := {
  shared : Shared;
  clock : float;
  close_requested : bool;
  gl : GL;
  math_popped : popped;
  trace : list event
}.

Definition with_shared (s : Shared) (w : World) : World :=
  {| shared := s; clock := clock w; close_requested := close_requested w;
     gl := gl w; math_popped := math_popped w; trace := trace w |}.

Definition with_clock (c : float) (w : World) : World :=
  {| shared := shared w; clock := c; close_requested := close_requested w;
     gl := gl w; math_popped := math_popped w; trace := trace w |}.

Definition with_close (b : bool) (w : World) : World :=
  {| shared := shared w; clock := clock w; close_requested := b;
     gl := gl w; math_popped := math_popped w; trace := trace w |}.

Definition with_gl (g : GL) (w : World) : World :=
  {| shared := shared w; clock := clock w; close_requested := close_requested w;
     gl := g; math_popped := math_popped w; trace := trace w |}.

Definition with_popped (st : popped) (w : World) : World :=
  {| shared := shared w; clock := clock w; close_requested := close_requested w;
     gl := gl w; math_popped := st; trace := trace w |}.

Definition log (ev : event) (w : World) : World :=
  {| shared := shared w; clock := clock w; close_requested := close_requested w;
     gl := gl w; math_popped := math_popped w; trace := trace w ++ [ev] |}.

(** A computation of the render thread: it may read and write the
    world, and ends with a value, an exception, or outside the
    fragment of [PyExpr]. *)
Definition M (A : Type) : Type := World -> outcome A * World.

Definition mret {A : Type} (a : A) : M A := fun w => (Ret a, w).

Definition mbind {A B : Type} (m : M A) (k : A -> M B) : M B :=
  fun w =>
    match m w with
    | (Ret a, w') => k a w'
    | (Raise x, w') => (Raise x, w')
    | (Beyond, w') => (Beyond, w')
    end.

Notation "'let*' x ':=' m 'in' k" := (mbind m (fun x => k))
  (at level 10, x name, m at level 100, k at level 200).
Notation "m ';;;' k" := (mbind m (fun _ => k))
  (at level 100, k at level 200, right associativity).

Definition effect (f : World -> World) : M unit := fun w => (Ret tt, f w).

(** ** The control surface *)

(** [reset_t] of [make_controls]: [shared["t0"] = time.time()]. *)
Definition reset_t : M unit :=
  effect (fun w =>
    let s := shared w in
    with_shared
      {| a_expr := a_expr s; b_expr := b_expr s; c_expr := c_expr s;
         d_expr := d_expr s; a_scale := a_scale s; b_scale := b_scale s;
         c_scale := c_scale s; d_scale := d_scale s; paused := paused s;
         show_grid := show_grid s; show_arrow := show_arrow s;
         t0 := clock w |} w).

(** ** What the render thread calls *)

Definition shared_get {A : Type} (field : Shared -> A) : M A :=
  fun w => (Ret (field (shared w)), w).

Definition time_time : M float := fun w => (Ret (clock w), w).

Definition time_sleep (seconds : float) : M unit :=
  effect (fun w => log (EvSleep seconds) (with_clock (clock w + seconds)%float w)).

Definition window_should_close : M bool :=
  fun w => (Ret (close_requested w), w).

Definition poll_events : M unit := effect (log EvPoll).

Definition glClear : M unit :=
  effect (fun w =>
    let g := gl w in
    log EvClear
      (with_gl {| uTransform := uTransform g; uColor := uColor g;
                  array_buffer := array_buffer g; back := [];
                  front := front g |} w)).

Definition glUniformMatrix4fv (transpose : bool) (value : list float) : M unit :=
  effect (fun w =>
    let g := gl w in
    log (EvUniformMatrix4fv transpose value)
      (with_gl {| uTransform := uniform_of_buffer transpose value;
                  uColor := uColor g; array_buffer := array_buffer g;
                  back := back g; front := front g |} w)).

Definition glUniform3f (c : color) : M unit :=
  effect (fun w =>
    let g := gl w in
    log (EvUniform3f c)
      (with_gl {| uTransform := uTransform g; uColor := c;
                  array_buffer := array_buffer g; back := back g;
                  front := front g |} w)).

Definition glBindBuffer (b : buffer) : M unit :=
  effect (fun w =>
    let g := gl w in
    log (EvBindBuffer b)
      (with_gl {| uTransform := uTransform g; uColor := uColor g;
                  array_buffer := Some b; back := back g;
                  front := front g |} w)).

Definition glVertexAttribPointer : M unit := effect (log EvVertexAttribPointer).

Definition glEnableVertexAttribArray : M unit :=
  effect (log EvEnableVertexAttribArray).

Definition glDrawArrays (first count : Z) : M unit :=
  effect (fun w =>
    let g := gl w in
    log (EvDrawArrays first count)
      (with_gl {| uTransform := uTransform g; uColor := uColor g;
                  array_buffer := array_buffer g;
                  back := back g ++ [{| d_buffer := array_buffer g;
                                        d_count := count;
                                        d_transform := uTransform g;
                                        d_color := uColor g |}];
                  front := front g |} w)).

(** [glfw.swap_buffers]: the back buffer becomes the frame on screen. *)
Definition swap_buffers : M unit :=
  effect (fun w =>
    let g := gl w in
    log EvSwapBuffers
      (with_gl {| uTransform := uTransform g; uColor := uColor g;
                  array_buffer := array_buffer g; back := front g;
                  front := back g |} w)).

Section Loop.
Variable libm : Libm.

(** A call of the closure [safe_eval].  The operations of the fragment
    change nothing of the world but [math.__dict__].  With the outcome
    [Beyond] the world returned is not the one the program is left in: a
    formula outside the fragment can reach the frames of the
    interpreter, and through them [shared]. *)
Definition call_safe_eval (env_t : float) (expr : string) : M float :=
  fun w =>
    let r := safe_eval libm (clock w) env_t expr (math_popped w) in
    (fst r, with_popped (snd r) (log (EvEval expr env_t) w)).

Definition grid : list float := make_grid 10.
Definition vec : list float := make_vector libm 3 1.

(** The body of [while not glfw.window_should_close(win)]. *)
Definition loop_body : M unit :=
  poll_events ;;;
  let* p := shared_get paused in
  if p then time_sleep 0.01
  else
    let* now := time_time in
    let* origin := shared_get t0 in
    let t := (now - origin)%float in
    let* ea := shared_get a_expr in
    let* va := call_safe_eval t ea in
    let* sa := shared_get a_scale in
    let a := (va * sa)%float in
    let* eb := shared_get b_expr in
    let* vb := call_safe_eval t eb in
    let* sb := shared_get b_scale in
    let b := (vb * sb)%float in
    let* ec := shared_get c_expr in
    let* vc := call_safe_eval t ec in
    let* sc := shared_get c_scale in
    let c := (vc * sc)%float in
    let* ed := shared_get d_expr in
    let* vd := call_safe_eval t ed in
    let* sd := shared_get d_scale in
    let d := (vd * sd)%float in
    let M := matrix_M a b c d in
    glClear ;;;
    glUniformMatrix4fv false (ravel M) ;;;
    let* g := shared_get show_grid in
    (if g then
       glUniform3f (0.5, 0.5, 0.5)%float ;;;
       glBindBuffer VboGrid ;;;
       glVertexAttribPointer ;;;
       glEnableVertexAttribArray ;;;
       glDrawArrays 0 (Z.of_nat (List.length grid) / 2)
     else mret tt) ;;;
    let* s := shared_get show_arrow in
    (if s then
       glUniform3f (1.0, 0.2, 0.2)%float ;;;
       glBindBuffer VboVec ;;;
       glVertexAttribPointer ;;;
       glEnableVertexAttribArray ;;;
       glDrawArrays 0 6
     else mret tt) ;;;
    swap_buffers.

(** What the other thread, the clock and the window do between two
    iterations: the control surface rewrites [shared], time passes,
    the user may ask to close. *)
Record Interference := {
  on_shared : Shared -> Shared;
  elapsed : float;
  asks_close : bool
}.

Definition interfere (i : Interference) (w : World) : World :=
  with_close (close_requested w || asks_close i)
    (with_clock (clock w + elapsed i)%float
       (with_shared (on_shared i (shared w)) w)).

(** The [while] loop, one interference before each test of the
    condition. *)
Fixpoint render_frames (steps : list Interference) (w : World)
  : outcome unit * World :=
  match steps with
  | [] => (Ret tt, w)
  | i :: rest =>
      match window_should_close (interfere i w) with
      | (Ret true, w1) => (Ret tt, w1)
      | (Ret false, w1) =>
          match loop_body w1 with
          | (Ret _, w2) => render_frames rest w2
          | (Raise x, w2) => (Raise x, w2)
          | (Beyond, w2) => (Beyond, w2)
          end
      | (Raise x, w1) => (Raise x, w1)
      | (Beyond, w1) => (Beyond, w1)
      end
  end.

End Loop.

(** The GL state when the loop starts: nothing drawn yet. *)
Definition initial_gl : GL :=
  {| uTransform := chunks4 (repeat 0%float 16); uColor := (0, 0, 0)%float;
     array_buffer := Some VboVec; back := []; front := [] |}.

Definition initial_world (now : float) : World :=
  {| shared := initial_shared now; clock := now; close_requested := false;
     gl := initial_gl; math_popped := []; trace := [] |}.

End Render.

(* ================================================================== *)
(** * Notions the statements and proofs use *)

Module Props.
Import Num PyExpr PyEval Geometry Transform Render.

(** [math.pi / 2]. *)
Definition halfpi : float := (pi / 2)%float.

(** The binary64 value nearest to the cosine of [halfpi]. *)
Definition cos_halfpi : float := 0x1.1a62633145c07p-54%float.

(** A concrete C library to run the definitions on: exact at the
    arguments used below, crude elsewhere. *)
Definition crude_libm : Libm :=
  {| m_cos := fun x =>
       if PrimFloat.eqb x 0 then 1%float
       else if PrimFloat.eqb x halfpi then cos_halfpi
       else (1 - x * x / 2)%float;
     m_sin := fun x => if PrimFloat.eqb x halfpi then 1%float else x;
     m_tan := fun x => x;
     m_atan2 := fun y x =>
       if PrimFloat.eqb y 0 then y
       else if PrimFloat.ltb 0 y then halfpi else (- halfpi)%float |}.

(** The same library with [atan2] of two zeros as C's Annex F has it,
    and [math.atan2] with it: the sign of [x] chooses between 0 and pi,
    the sign of [y] gives the sign of the result. *)
Definition annex_f_libm : Libm :=
  {| m_cos := m_cos crude_libm;
     m_sin := m_sin crude_libm;
     m_tan := m_tan crude_libm;
     m_atan2 := fun y x =>
       match PrimFloat.classify y, PrimFloat.classify x with
       | PZero, PZero => 0%float
       | PZero, NZero => pi
       | NZero, PZero => (-0)%float
       | NZero, NZero => (- pi)%float
       | _, _ => m_atan2 crude_libm y x
       end |}.

(** The outcome is an exception that reaches the caller. *)
Definition propagates {A : Type} (o : outcome A) : bool :=
  match o with
  | Raise _ => true
  | _ => false
  end.

(** A value through which the wall clock cannot be read. *)
Definition clock_free (v : value) : bool :=
  match v with
  | VModule Time | VFunc FTime => false
  | _ => true
  end.

(** What is returned, if anything is, satisfies [P]. *)
Definition returns {A : Type} (P : A -> Prop) (o : outcome A) : Prop :=
  match o with
  | Ret a => P a
  | _ => True
  end.

Definition clock_free_outcome (o : outcome value) : Prop :=
  returns (fun v => clock_free v = true) o.

(** The expression names the attribute [__dict__] somewhere. *)
Fixpoint reaches_dict (e : expr) : bool :=
  match e with
  | ENum _ | EStr _ | EName _ => false
  | EAttr e1 a => String.eqb a "__dict__" || reaches_dict e1
  | ECall f args => reaches_dict f || existsb reaches_dict args
  | EUnary _ e1 => reaches_dict e1
  | EBin _ l r => reaches_dict l || reaches_dict r
  end.

Definition source_reaches_dict (source : string) : bool :=
  match py_compile source with
  | Ret e => reaches_dict e
  | _ => false
  end.

(** A value that gives no handle on [math.__dict__]. *)
Definition dict_free (v : value) : bool :=
  match v with
  | VMathDict | VFunc FMathDictPop => false
  | _ => true
  end.

(** A step that, when it stays within what is modelled, leaves the state
    as it found it and returns, if anything, a value satisfying [P]. *)
Definition pure_step {A : Type} (P : A -> Prop) (m : E A) (st : popped) : Prop :=
  fst (m st) <> Beyond -> snd (m st) = st /\ returns P (fst (m st)).

(** A namespace that binds [time] would let an expression read the
    clock: [time.time()]. *)
Definition with_time : namespace :=
  {| ns_globals := [("time", VModule Time)]%string; ns_builtins := [] |}.

Definition clock_free_ns (ns : namespace) : Prop :=
  Forall (fun kv => clock_free (snd kv) = true) (ns_globals ns)
  /\ Forall (fun kv => clock_free (snd kv) = true) (ns_builtins ns).

(** Each interference leaves the pause box ticked. *)
Fixpoint stays_paused (steps : list Interference) (s : Shared) : Prop :=
  match steps with
  | [] => True
  | i :: rest =>
      paused (on_shared i s) = true /\ stays_paused rest (on_shared i s)
  end.

(** A computation that leaves [shared] as it found it, whenever it
    stays within what is modelled. *)
Definition reads_only {A : Type} (m : M A) : Prop :=
  forall w, fst (m w) <> Beyond -> shared (snd (m w)) = shared w.

(** The control state with the four formulas as the bare names
    [cos(t)], [sin(t)], [-sin(t)], [cos(t)]. *)
Definition bare_shared (now : float) : Shared :=
  {| a_expr := "cos(t)"; b_expr := "sin(t)";
     c_expr := "-sin(t)"; d_expr := "cos(t)";
     a_scale := 1; b_scale := 1; c_scale := 1; d_scale := 1;
     paused := false; show_grid := true; show_arrow := true;
     t0 := now |}.

Definition bare_world (now : float) : World :=
  {| shared := bare_shared now; clock := now; close_requested := false;
     gl := initial_gl; math_popped := []; trace := [] |}.

(** The control panel with [math.__dict__.pop('pi')] typed as the first
    formula, scale 1.0, when the program has just started. *)
Definition pop_world (now : float) : World :=
  {| shared :=
       {| a_expr := "math.__dict__.pop('pi')"; b_expr := "0";
          c_expr := "0"; d_expr := "1";
          a_scale := 1; b_scale := 1; c_scale := 1; d_scale := 1;
          paused := false; show_grid := true; show_arrow := true;
          t0 := now |};
     clock := now; close_requested := false; gl := initial_gl;
     math_popped := []; trace := [] |}.

(** [sys.exit()], with [sys] reached from [math] by attribute access
    and one call of a dict's [get]. *)
Definition quit_formula : string :=
  "math.__spec__.__init__.__globals__.get('sys').exit()".

(** The control panel with that typed as the first formula, when the
    program has just started. *)
Definition quit_world (now : float) : World :=
  {| shared :=
       {| a_expr := quit_formula; b_expr := "0";
          c_expr := "0"; d_expr := "1";
          a_scale := 1; b_scale := 1; c_scale := 1; d_scale := 1;
          paused := false; show_grid := true; show_arrow := true;
          t0 := now |};
     clock := now; close_requested := false; gl := initial_gl;
     math_popped := []; trace := [] |}.

(** A paused world whose frame on screen is the one [g] holds. *)
Definition paused_world (g : GL) (now : float) : World :=
  let s := initial_shared 0 in
  {| shared :=
       {| a_expr := a_expr s; b_expr := b_expr s; c_expr := c_expr s;
          d_expr := d_expr s; a_scale := a_scale s; b_scale := b_scale s;
          c_scale := c_scale s; d_scale := d_scale s; paused := true;
          show_grid := show_grid s; show_arrow := show_arrow s;
          t0 := t0 s |};
     clock := now; close_requested := false; gl := g; math_popped := [];
     trace := [] |}.

(** The draws of one frame under the transform [u]. *)
Definition frame_draws (libm : Libm) (s : Shared) (u : list (list float))
  : list draw :=
  (if show_grid s
   then [{| d_buffer := Some VboGrid;
            d_count := Z.of_nat (List.length grid) / 2;
            d_transform := u; d_color := (0.5, 0.5, 0.5)%float |}]
   else [])
  ++ (if show_arrow s
      then [{| d_buffer := Some VboVec; d_count := 6;
               d_transform := u; d_color := (1.0, 0.2, 0.2)%float |}]
      else []).

(** The calls of one frame after the transform is uploaded and before
    the buffers are swapped. *)
Definition frame_events (libm : Libm) (s : Shared) : list event :=
  (if show_grid s
   then [EvUniform3f (0.5, 0.5, 0.5)%float; EvBindBuffer VboGrid;
         EvVertexAttribPointer; EvEnableVertexAttribArray;
         EvDrawArrays 0 (Z.of_nat (List.length grid) / 2)]
   else [])
  ++ (if show_arrow s
      then [EvUniform3f (1.0, 0.2, 0.2)%float; EvBindBuffer VboVec;
            EvVertexAttribPointer; EvEnableVertexAttribArray;
            EvDrawArrays 0 6]
      else []).

Definition idle_event (ev : event) : Prop :=
  ev = EvPoll \/ exists seconds, ev = EvSleep seconds.

Definition map4 {A B : Type} (f : A -> B) (s : A * A * A * A) : B * B * B * B :=
  let '(x1, y1, x2, y2) := s in (f x1, f y1, f x2, f y2).

(** The eight coordinates the loop of [make_grid] appends at index [i]. *)
Definition grid_row (n i : Z) : list Z := [i; - n; i; n; - n; i; n; i]%Z.

(** The two segments the grid has at index [i]. *)
Definition grid_pair (n i : Z) : list (Z * Z * Z * Z) :=
  [(i, - n, i, n); (- n, i, n, i)]%Z.

(** Element-wise [==] of two flat arrays. *)
Fixpoint all_feq (xs ys : list float) : bool :=
  match xs, ys with
  | [], [] => true
  | x :: xs', y :: ys' => feq x y && all_feq xs' ys'
  | _, _ => false
  end.

End Props.

(* ================================================================== *)
(** * Shader objects: [compile_shader] and [make_program] *)

Module Shader.
Import PyExpr.

Definition VERTEX_SHADER : string := "
#version 330 core
layout (location = 0) in vec2 aPos;
uniform mat4 uTransform;
void main() {
    gl_Position = uTransform * vec4(aPos, 0.0, 1.0);
}
".

Definition FRAGMENT_SHADER : string := "
#version 330 core
out vec4 FragColor;
uniform vec3 uColor;
void main() {
    FragColor = vec4(uColor, 1.0);
}
".

(** What the functions outside the loop can raise; [Escaped] is an
    exception of [PyExpr] that reaches them. *)
Inductive error : Type :=
| RuntimeError (msg : string)
| Exception (msg : string)
| UnicodeDecodeError
| Escaped (x : exn).

(** How a call ends: with a value, with an exception, outside what is
    modelled, or not yet (the loop is still running when the schedule
    of the environment ends). *)
Inductive status (A : Type) : Type :=
| Done (a : A)
| Raised (err : error)
| Unmodelled
| Running.

Arguments Done {A} a.
Arguments Raised {A} err.
Arguments Unmodelled {A}.
Arguments Running {A}.

Definition Run (S A : Type) : Type := S -> status A * S.

Definition done {S A : Type} (a : A) : Run S A := fun s => (Done a, s).

Definition throw {S A : Type} (err : error) : Run S A :=
  fun s => (Raised err, s).

Definition and_then {S A B : Type} (m : Run S A) (k : A -> Run S B) : Run S B :=
  fun s =>
    match m s with
    | (Done a, s') => k a s'
    | (Raised err, s') => (Raised err, s')
    | (Unmodelled, s') => (Unmodelled, s')
    | (Running, s') => (Running, s')
    end.

Notation "'let!' x ':=' m 'in' k" := (and_then m (fun x => k))
  (at level 10, x name, m at level 100, k at level 200).
Notation "m ';;!' k" := (and_then m (fun _ => k))
  (at level 100, k at level 200, right associativity).

(** ** [bytes.decode()] *)

Definition byte_in (lo hi : N) (c : ascii) : bool :=
  (lo <=? N_of_ascii c)%N && (N_of_ascii c <=? hi)%N.

Definition continuation : N * N := (0x80, 0xBF)%N.

(** The bytes that may follow a first byte [c] of well-formed UTF-8, as
    ranges; [None] when [c] cannot start a character. *)
Definition utf8_lead (c : ascii) : option (list (N * N)) :=
  let n := N_of_ascii c in
  if (n <=? 0x7F)%N then Some []
  else if (n <? 0xC2)%N then None
  else if (n <=? 0xDF)%N then Some [continuation]
  else if (n =? 0xE0)%N then Some [(0xA0, 0xBF)%N; continuation]
  else if (n =? 0xED)%N then Some [(0x80, 0x9F)%N; continuation]
  else if (n <=? 0xEF)%N then Some [continuation; continuation]
  else if (n =? 0xF0)%N then Some [(0x90, 0xBF)%N; continuation; continuation]
  else if (n <=? 0xF3)%N then Some [continuation; continuation; continuation]
  else if (n =? 0xF4)%N then Some [(0x80, 0x8F)%N; continuation; continuation]
  else None.

Fixpoint utf8_valid_from (pending : list (N * N)) (b : string) : bool :=
  match b with
  | EmptyString => match pending with [] => true | _ :: _ => false end
  | String c rest =>
      match pending with
      | [] =>
          match utf8_lead c with
          | Some p => utf8_valid_from p rest
          | None => false
          end
      | (lo, hi) :: p => byte_in lo hi c && utf8_valid_from p rest
      end
  end.

Definition utf8_valid (b : string) : bool := utf8_valid_from [] b.

(** [b.decode()]: the text, kept as its UTF-8 bytes, or
    [UnicodeDecodeError]. *)
Definition decode {S : Type} (b : string) : Run S string :=
  if utf8_valid b then done b else throw UnicodeDecodeError.

(** ** The GL objects behind the calls *)

Inductive shader_type : Type := GL_VERTEX_SHADER | GL_FRAGMENT_SHADER.

Inductive shader_pname : Type := GL_COMPILE_STATUS.

Record shader_object := {
  sh_type : shader_type;
  sh_source : string;
  sh_compiled : bool;
  sh_info : string;
  sh_flagged : bool
}.

Record program_object := {
  pr_attached : list Z;
  pr_linked : bool
}.

(** The GLSL compiler and linker of the driver: the compile status and
    the info log of a source, the link status of a set of shaders. *)
Record Driver := {
  glsl_compile : shader_type -> string -> bool * string;
  glsl_link : list shader_object -> bool
}.

(** The shader and program objects of a context, newest first, and the
    next name the context hands out (shaders and programs share their
    names). *)
Record Objects := {
  next_name : Z;
  shader_objs : list (Z * shader_object);
  program_objs : list (Z * program_object)
}.

Definition no_objects : Objects :=
  {| next_name := 1; shader_objs := []; program_objs := [] |}.

Fixpoint lookup {A : Type} (k : Z) (l : list (Z * A)) : option A :=
  match l with
  | [] => None
  | (k', v) :: rest => if (k' =? k)%Z then Some v else lookup k rest
  end.

Fixpoint update {A : Type} (k : Z) (f : A -> A) (l : list (Z * A))
  : list (Z * A) :=
  match l with
  | [] => []
  | (k', v) :: rest =>
      if (k' =? k)%Z then (k', f v) :: rest else (k', v) :: update k f rest
  end.

Fixpoint remove {A : Type} (k : Z) (l : list (Z * A)) : list (Z * A) :=
  match l with
  | [] => []
  | (k', v) :: rest =>
      if (k' =? k)%Z then rest else (k', v) :: remove k rest
  end.

Definition with_shaders (l : list (Z * shader_object)) (o : Objects) : Objects :=
  {| next_name := next_name o; shader_objs := l;
     program_objs := program_objs o |}.

Definition with_programs (l : list (Z * program_object)) (o : Objects) : Objects :=
  {| next_name := next_name o; shader_objs := shader_objs o;
     program_objs := l |}.

(** A call on a shader name: outside the model when the name is not a
    shader of the context. *)
Definition on_shader {A : Type} (s : Z) (k : shader_object -> Run Objects A)
  : Run Objects A :=
  fun o =>
    match lookup s (shader_objs o) with
    | Some x => k x o
    | None => (Unmodelled, o)
    end.

Definition on_program {A : Type} (p : Z) (k : program_object -> Run Objects A)
  : Run Objects A :=
  fun o =>
    match lookup p (program_objs o) with
    | Some x => k x o
    | None => (Unmodelled, o)
    end.

Definition modify (f : Objects -> Objects) : Run Objects unit :=
  fun o => (Done tt, f o).

Section Gl.
Variable drv : Driver.

Definition glCreateShader (shader_type : shader_type) : Run Objects Z :=
  fun o =>
    let n := next_name o in
    (Done n,
     {| next_name := (n + 1)%Z;
        shader_objs :=
          (n, {| sh_type := shader_type; sh_source := EmptyString; sh_compiled := false;
                 sh_info := EmptyString; sh_flagged := false |}) :: shader_objs o;
        program_objs := program_objs o |}).

Definition glShaderSource (s : Z) (src : string) : Run Objects unit :=
  on_shader s (fun _ =>
    modify (fun o =>
      with_shaders
        (update s (fun x =>
           {| sh_type := sh_type x; sh_source := src;
              sh_compiled := sh_compiled x; sh_info := sh_info x;
              sh_flagged := sh_flagged x |}) (shader_objs o)) o)).

Definition glCompileShader (s : Z) : Run Objects unit :=
  on_shader s (fun _ =>
    modify (fun o =>
      with_shaders
        (update s (fun x =>
           let r := glsl_compile drv (sh_type x) (sh_source x) in
           {| sh_type := sh_type x; sh_source := sh_source x;
              sh_compiled := fst r; sh_info := snd r;
              sh_flagged := sh_flagged x |}) (shader_objs o)) o)).

Definition glGetShaderiv (s : Z) (pname : shader_pname) : Run Objects bool :=
  on_shader s (fun x =>
    match pname with
    | GL_COMPILE_STATUS => done (sh_compiled x)
    end).

Definition glGetShaderInfoLog (s : Z) : Run Objects string :=
  on_shader s (fun x => done (sh_info x)).

Definition glCreateProgram : Run Objects Z :=
  fun o =>
    let n := next_name o in
    (Done n,
     {| next_name := (n + 1)%Z;
        shader_objs := shader_objs o;
        program_objs :=
          (n, {| pr_attached := []; pr_linked := false |}) :: program_objs o |}).

Definition glAttachShader (p s : Z) : Run Objects unit :=
  on_program p (fun _ =>
    on_shader s (fun _ =>
      modify (fun o =>
        with_programs
          (update p (fun x =>
             {| pr_attached := pr_attached x ++ [s];
                pr_linked := pr_linked x |}) (program_objs o)) o))).

(** The shader objects attached to a program. *)
Definition attached_objects (o : Objects) (x : program_object)
  : list shader_object :=
  flat_map (fun s => match lookup s (shader_objs o) with
                     | Some sh => [sh]
                     | None => []
                     end) (pr_attached x).

Definition glLinkProgram (p : Z) : Run Objects unit :=
  on_program p (fun _ =>
    modify (fun o =>
      with_programs
        (update p (fun x =>
           {| pr_attached := pr_attached x;
              pr_linked := glsl_link drv (attached_objects o x) |})
           (program_objs o)) o)).

Definition is_attached (s : Z) (o : Objects) : bool :=
  existsb (fun kv => existsb (Z.eqb s) (pr_attached (snd kv))) (program_objs o).

(** [glDeleteShader]: a shader attached to a program is only flagged
    for deletion and lives on while it is attached. *)
Definition glDeleteShader (s : Z) : Run Objects unit :=
  on_shader s (fun _ =>
    modify (fun o =>
      if is_attached s o
      then with_shaders
             (update s (fun x =>
                {| sh_type := sh_type x; sh_source := sh_source x;
                   sh_compiled := sh_compiled x; sh_info := sh_info x;
                   sh_flagged := true |}) (shader_objs o)) o
      else with_shaders (remove s (shader_objs o)) o)).

Definition compile_shader (src : string) (shader_type : shader_type)
  : Run Objects Z :=
  let! s := glCreateShader shader_type in
  glShaderSource s src ;;!
  glCompileShader s ;;!
  let! compiled := glGetShaderiv s GL_COMPILE_STATUS in
  if negb compiled then
    let! info := glGetShaderInfoLog s in
    let! msg := decode info in
    throw (RuntimeError msg)
  else done s.

Definition make_program (vs_src fs_src : string) : Run Objects Z :=
  let! vs := compile_shader vs_src GL_VERTEX_SHADER in
  let! fs := compile_shader fs_src GL_FRAGMENT_SHADER in
  let! p := glCreateProgram in
  glAttachShader p vs ;;!
  glAttachShader p fs ;;!
  glLinkProgram p ;;!
  glDeleteShader vs ;;!
  glDeleteShader fs ;;!
  done p.

End Gl.

End Shader.

(* ================================================================== *)
(** * The render thread: [render_loop] from start to end *)

Module RenderThread.
Import Num PyExpr PyEval Geometry Transform Render Shader.

(** What the platform decides: whether [glfw.init] succeeds, whether
    [glfw.create_window] gives a window, and the GLSL driver. *)
Record Platform := {
  glfw_init_ok : bool;
  create_window_ok : bool;
  driver : Driver
}.

Record Window := {
  width : Z;
  height : Z;
  title : string
}.

(** The render thread's process: the world of the loop, the GLFW
    library, the window, and the GL context's objects and state that
    the loop itself does not touch.  [buffer_names] are the names
    [glGenBuffers] has not handed out yet. *)
Record Process := {
  world : World;
  glfw_initialised : bool;
  glfw_terminated : bool;
  window : option Window;
  context_current : bool;
  objects : Objects;
  program_in_use : option Z;
  buffer_names : list buffer;
  buffer_store : list (buffer * (Z * list float));
  clear_color : float * float * float * float
}.

Definition with_world (w : World) (p : Process) : Process :=
  {| world := w; glfw_initialised := glfw_initialised p;
     glfw_terminated := glfw_terminated p; window := window p;
     context_current := context_current p; objects := objects p;
     program_in_use := program_in_use p; buffer_names := buffer_names p;
     buffer_store := buffer_store p; clear_color := clear_color p |}.

Definition with_objects (o : Objects) (p : Process) : Process :=
  {| world := world p; glfw_initialised := glfw_initialised p;
     glfw_terminated := glfw_terminated p; window := window p;
     context_current := context_current p; objects := o;
     program_in_use := program_in_use p; buffer_names := buffer_names p;
     buffer_store := buffer_store p; clear_color := clear_color p |}.

(** A call of the loop's vocabulary, made by the thread. *)
Definition in_world {A : Type} (m : M A) : Run Process A :=
  fun p =>
    match m (world p) with
    | (Ret a, w) => (Done a, with_world w p)
    | (Raise x, w) => (Raised (Escaped x), with_world w p)
    | (Beyond, w) => (Unmodelled, with_world w p)
    end.

(** A call on the context's shader and program objects. *)
Definition in_objects {A : Type} (m : Run Objects A) : Run Process A :=
  fun p => let r := m (objects p) in (fst r, with_objects (snd r) p).

(** The state of a context that has just been created: nothing bound,
    nothing drawn, uniforms zero. *)
Definition new_context_gl : GL :=
  {| uTransform := chunks4 (repeat 0%float 16); uColor := (0, 0, 0)%float;
     array_buffer := None; back := []; front := [] |}.

(** [ndarray.nbytes] of a float32 array. *)
Definition nbytes (a : list float) : Z := 4 * Z.of_nat (List.length a).

Section Thread.
Variables (libm : Libm) (platform : Platform).

Definition glfw_init : Run Process bool :=
  fun p =>
    (Done (glfw_init_ok platform),
     {| world := world p; glfw_initialised := glfw_init_ok platform;
        glfw_terminated := glfw_terminated p; window := window p;
        context_current := context_current p; objects := objects p;
        program_in_use := program_in_use p; buffer_names := buffer_names p;
        buffer_store := buffer_store p; clear_color := clear_color p |}).

(** [glfw.create_window]: the window, or [None]. *)
Definition create_window (w h : Z) (name : string) : Run Process (option Window) :=
  fun p =>
    let win := if create_window_ok platform
               then Some {| width := w; height := h; title := name |}
               else None in
    (Done win,
     {| world := world p; glfw_initialised := glfw_initialised p;
        glfw_terminated := glfw_terminated p; window := win;
        context_current := context_current p; objects := objects p;
        program_in_use := program_in_use p; buffer_names := buffer_names p;
        buffer_store := buffer_store p; clear_color := clear_color p |}).

(** [glfw.make_context_current]: the window's new context becomes the
    thread's.  With [None] the thread has no context, and what the GL
    calls that follow do is outside the model. *)
Definition make_context_current (win : option Window) : Run Process unit :=
  fun p =>
    match win with
    | Some _ =>
        (Done tt,
         {| world := with_gl new_context_gl (world p);
            glfw_initialised := glfw_initialised p;
            glfw_terminated := glfw_terminated p; window := window p;
            context_current := true; objects := no_objects;
            program_in_use := None; buffer_names := [VboGrid; VboVec];
            buffer_store := []; clear_color := (0, 0, 0, 0)%float |})
    | None => (Unmodelled, p)
    end.

(** [glUseProgram]: an error of GL, outside the model, unless the
    program is linked. *)
Definition glUseProgram (prog : Z) : Run Process unit :=
  fun p =>
    match lookup prog (program_objs (objects p)) with
    | Some x =>
        if pr_linked x
        then (Done tt,
              {| world := world p; glfw_initialised := glfw_initialised p;
                 glfw_terminated := glfw_terminated p; window := window p;
                 context_current := context_current p; objects := objects p;
                 program_in_use := Some prog; buffer_names := buffer_names p;
                 buffer_store := buffer_store p; clear_color := clear_color p |})
        else (Unmodelled, p)
    | None => (Unmodelled, p)
    end.

(** [glGenBuffers(1)]: a name not in use. *)
Definition glGenBuffers : Run Process buffer :=
  fun p =>
    match buffer_names p with
    | b :: rest =>
        (Done b,
         {| world := world p; glfw_initialised := glfw_initialised p;
            glfw_terminated := glfw_terminated p; window := window p;
            context_current := context_current p; objects := objects p;
            program_in_use := program_in_use p; buffer_names := rest;
            buffer_store := buffer_store p; clear_color := clear_color p |})
    | [] => (Unmodelled, p)
    end.

(** [glBufferData(GL_ARRAY_BUFFER, size, data, GL_STATIC_DRAW)]: the
    store of the buffer bound to [GL_ARRAY_BUFFER] becomes [data]. *)
Definition glBufferData (size : Z) (data : list float) : Run Process unit :=
  fun p =>
    match array_buffer (gl (world p)) with
    | Some b =>
        (Done tt,
         {| world := world p; glfw_initialised := glfw_initialised p;
            glfw_terminated := glfw_terminated p; window := window p;
            context_current := context_current p; objects := objects p;
            program_in_use := program_in_use p; buffer_names := buffer_names p;
            buffer_store := (b, (size, data)) :: buffer_store p;
            clear_color := clear_color p |})
    | None => (Unmodelled, p)
    end.

(** [glGetUniformLocation]: the location is written as the uniform's
    name; [Render] sets [uColor] and [uTransform] through it. *)
Definition glGetUniformLocation (prog : Z) (name : string) : Run Process string :=
  fun p =>
    match lookup prog (program_objs (objects p)) with
    | Some _ => (Done name, p)
    | None => (Unmodelled, p)
    end.

Definition glClearColor (r g b a : float) : Run Process unit :=
  fun p =>
    (Done tt,
     {| world := world p; glfw_initialised := glfw_initialised p;
        glfw_terminated := glfw_terminated p; window := window p;
        context_current := context_current p; objects := objects p;
        program_in_use := program_in_use p; buffer_names := buffer_names p;
        buffer_store := buffer_store p; clear_color := (r, g, b, a) |}).

(** [glfw.terminate]: the windows and their contexts are destroyed. *)
Definition terminate : Run Process unit :=
  fun p =>
    (Done tt,
     {| world := world p; glfw_initialised := false;
        glfw_terminated := true; window := None;
        context_current := false; objects := objects p;
        program_in_use := program_in_use p; buffer_names := buffer_names p;
        buffer_store := buffer_store p; clear_color := clear_color p |}).

(** The [while] loop under a schedule of interferences; [Running] when
    the schedule ends before the window is asked to close. *)
Definition while_window_open (steps : list Interference) : Run Process unit :=
  fun p =>
    match render_frames libm steps (world p) with
    | (Ret _, w) =>
        (if close_requested w then Done tt else Running, with_world w p)
    | (Raise x, w) => (Raised (Escaped x), with_world w p)
    | (Beyond, w) => (Unmodelled, with_world w p)
    end.

Definition render_loop (steps : list Interference) : Run Process unit :=
  in_world (time_sleep 0.5) ;;!
  let! ok := glfw_init in
  if negb ok then throw (Exception "GLFW init failed")
  else
    let! win := create_window 800 800 "Matrix Sandbox (Tk Controls)" in
    make_context_current win ;;!
    let! prog := in_objects (make_program (driver platform)
                               VERTEX_SHADER FRAGMENT_SHADER) in
    glUseProgram prog ;;!
    let grid := make_grid 10 in
    let vec := make_vector libm 3 1 in
    let! vbo_grid := glGenBuffers in
    in_world (glBindBuffer vbo_grid) ;;!
    glBufferData (nbytes grid) grid ;;!
    let! vbo_vec := glGenBuffers in
    in_world (glBindBuffer vbo_vec) ;;!
    glBufferData (nbytes vec) vec ;;!
    let! color_loc := glGetUniformLocation prog "uColor" in
    let! trans_loc := glGetUniformLocation prog "uTransform" in
    glClearColor 0.1 0.1 0.1 1.0 ;;!
    while_window_open steps ;;!
    terminate.

End Thread.

(** The thread before it runs, in a world [w]. *)
Definition new_process (w : World) : Process :=
  {| world := w; glfw_initialised := false; glfw_terminated := false;
     window := None; context_current := false; objects := no_objects;
     program_in_use := None; buffer_names := []; buffer_store := [];
     clear_color := (0, 0, 0, 0)%float |}.

End RenderThread.

(* ================================================================== *)
(** * Notions the statements about the thread use *)

Module ThreadProps.
Import Num PyExpr PyEval Geometry Transform Render Shader RenderThread.

(** What [compile_shader] raises for a shader the driver rejects with
    the info log [info]. *)
Definition compile_error (info : string) : error :=
  if utf8_valid info then RuntimeError info else UnicodeDecodeError.

(** The shader object [compile_shader] leaves for a source. *)
Definition compiled_object (drv : Driver) (ty : shader_type) (src : string)
           (flagged : bool) : shader_object :=
  {| sh_type := ty; sh_source := src;
     sh_compiled := fst (glsl_compile drv ty src);
     sh_info := snd (glsl_compile drv ty src);
     sh_flagged := flagged |}.

(** A computation of the loop that can end only with exceptions that
    are not [Exception]s. *)
Definition only_escapes {A : Type} (m : M A) : Prop :=
  forall w x, fst (m w) = Raise x -> is_Exception x = false.

(** The calls of [safe_eval] in a trace: formula and [t], in order. *)
Fixpoint evals (tr : list event) : list (string * float) :=
  match tr with
  | [] => []
  | EvEval expr t :: rest => (expr, t) :: evals rest
  | _ :: rest => evals rest
  end.

Definition buffer_eqb (a b : buffer) : bool :=
  match a, b with
  | VboGrid, VboGrid | VboVec, VboVec => true
  | _, _ => false
  end.

(** The data store of a buffer: what the last [glBufferData] on it
    gave it. *)
Fixpoint buffer_lookup (b : buffer) (store : list (buffer * (Z * list float)))
  : option (Z * list float) :=
  match store with
  | [] => None
  | (b', v) :: rest => if buffer_eqb b' b then Some v else buffer_lookup b rest
  end.


(** Two control states that differ at most in the time origin. *)
Definition same_controls (s s' : Shared) : Prop :=
  a_expr s' = a_expr s /\ b_expr s' = b_expr s /\ c_expr s' = c_expr s
  /\ d_expr s' = d_expr s /\ a_scale s' = a_scale s /\ b_scale s' = b_scale s
  /\ c_scale s' = c_scale s /\ d_scale s' = d_scale s /\ paused s' = paused s
  /\ show_grid s' = show_grid s /\ show_arrow s' = show_arrow s.

(** The four evaluations of an iteration at [t], for the formulas of [s]. *)
Definition four_evals (s : Shared) (t : float) : list (string * float) :=
  [(a_expr s, t); (b_expr s, t); (c_expr s, t); (d_expr s, t)].

(** The clock after a run of paused iterations: each one comes after
    an interference and sleeps 0.01 s. *)
Definition clock_through (steps : list Interference) (c : float) : float :=
  fold_left (fun c i => (c + elapsed i + 0.01)%float) steps c.

(** The process when the setup of [render_loop] is through and the
    loop is about to test the window for the first time. *)
Definition loop_entry (libm : Libm) (drv : Driver) (p : Process) : Process :=
  let w := world p in
  {| world :=
       {| shared := shared w; clock := (clock w + 0.5)%float;
          close_requested := close_requested w; gl := initial_gl;
          math_popped := math_popped w;
          trace := trace w ++ [EvSleep 0.5; EvBindBuffer VboGrid;
                               EvBindBuffer VboVec] |};
     glfw_initialised := true;
     glfw_terminated := glfw_terminated p;
     window := Some {| width := 800; height := 800;
                       title := "Matrix Sandbox (Tk Controls)" |};
     context_current := true;
     objects := snd (make_program drv VERTEX_SHADER FRAGMENT_SHADER no_objects);
     program_in_use := Some 3%Z;
     buffer_names := [];
     buffer_store := [(VboVec, (48%Z, make_vector libm 3 1));
                      (VboGrid, (672%Z, make_grid 10))];
     clear_color := (0.1, 0.1, 0.1, 1.0)%float |}.

(** A platform on which the setup of [render_loop] goes through: GLFW
    starts, the window opens, the driver compiles both shaders and
    links them. *)
Definition setup_succeeds (platform : Platform) : Prop :=
  let drv := driver platform in
  glfw_init_ok platform = true
  /\ create_window_ok platform = true
  /\ fst (glsl_compile drv GL_VERTEX_SHADER VERTEX_SHADER) = true
  /\ fst (glsl_compile drv GL_FRAGMENT_SHADER FRAGMENT_SHADER) = true
  /\ glsl_link drv
       [compiled_object drv GL_VERTEX_SHADER VERTEX_SHADER false;
        compiled_object drv GL_FRAGMENT_SHADER FRAGMENT_SHADER false] = true.

(** A platform where everything works, to run the definitions on. *)
Definition fine_platform : Platform :=
  {| glfw_init_ok := true; create_window_ok := true;
     driver := {| glsl_compile := fun _ _ => (true, EmptyString);
                  glsl_link := fun _ => true |} |}.

(** A segment reflected in the diagonal [x = y]. *)
Definition mirrored {A : Type} (s : A * A * A * A) : A * A * A * A :=
  let '(x1, y1, x2, y2) := s in (y1, x1, y2, x2).

(** [x == 0.0]. *)
Definition is_zero_entry (x : float) : Prop := feq x 0 = true.

End ThreadProps.

Import Num PyExpr PyEval Geometry Transform Render Props.


(* ================================================================== *)
(** * Geometry builders: proofs *)

Section GridFacts.
Variable n : Z.

Let row := grid_row n.

Lemma grid_fold (l : list Z) (acc : list Z) :
  fold_left (grid_step n) l acc = acc ++ flat_map row l.
Proof.
  revert acc; induction l as [|i l IH]; intro acc; simpl.
  - now rewrite app_nil_r.
  - rewrite IH. unfold grid_step. now rewrite <- !app_assoc.
Qed.

Lemma grid_lines_rows : grid_lines n = flat_map row (py_range (- n) (n + 1)).
Proof. unfold grid_lines. now rewrite grid_fold. Qed.

Lemma segments_rows (l : list Z) :
  segments (flat_map row l) = flat_map (grid_pair n) l.
Proof.
  induction l as [|i l IH]; simpl; [reflexivity|]. now rewrite IH.
Qed.

Lemma rows_bounded (l : list Z) :
  (forall i, In i l -> (- n <= i <= n)%Z) ->
  Forall (fun c => (Z.abs c <= n)%Z) (flat_map row l).
Proof.
  intro Hl. apply Forall_forall. intros c Hc.
  apply in_flat_map in Hc. destruct Hc as (i & Hi & Hc).
  specialize (Hl i Hi). unfold row in Hc. simpl in Hc.
  repeat (destruct Hc as [Hc|Hc]; [subst c; lia|]). contradiction.
Qed.

End GridFacts.

Lemma py_range_length (lo hi : Z) :
  List.length (py_range lo hi) = Z.to_nat (hi - lo).
Proof. unfold py_range. now rewrite length_map, length_seq. Qed.

Lemma py_range_In (lo hi i : Z) :
  In i (py_range lo hi) <-> (lo <= i < hi)%Z.
Proof.
  unfold py_range. rewrite in_map_iff. split.
  - intros (k & <- & Hk). apply in_seq in Hk. lia.
  - intro H. exists (Z.to_nat (i - lo)). split; [lia|].
    apply in_seq. lia.
Qed.

Lemma segments_map {A B : Type} (f : A -> B) :
  forall l, segments (map f l) = map (map4 f) (segments l).
Proof.
  fix IH 1. intros [|a [|b [|c [|d rest]]]]; simpl; try reflexivity.
  now rewrite IH.
Qed.

Lemma flat_map_pair_length (n : Z) (l : list Z) :
  List.length (flat_map (grid_pair n) l) = (2 * List.length l)%nat.
Proof. induction l as [|i l IH]; simpl; [reflexivity|]. rewrite IH. lia. Qed.

(* ================================================================== *)
(** * Integers that float32 holds *)

Lemma iter_xO_Z (k m : positive) :
  (Zpos (Pos.iter xO m k) = Zpos m * 2 ^ Zpos k)%Z.
Proof.
  induction k as [|k IH] using Pos.peano_ind.
  - simpl. lia.
  - rewrite Pos.iter_succ, Pos2Z.inj_succ, Z.pow_succ_r by lia.
    rewrite Pos2Z.inj_xO, IH. lia.
Qed.

Lemma iter_xO_digits (k m : positive) :
  digits2_pos (Pos.iter xO m k) = (digits2_pos m + k)%positive.
Proof.
  induction k as [|k IH] using Pos.peano_ind.
  - simpl. lia.
  - rewrite Pos.iter_succ. simpl. rewrite IH. lia.
Qed.

Lemma mantissa_shl_Z (m : positive) (k : Z) :
  (0 <= k)%Z -> (Zpos (mantissa_shl m k) = Zpos m * 2 ^ k)%Z.
Proof.
  intro Hk. destruct k as [|p|p]; simpl mantissa_shl;
    [lia | apply iter_xO_Z | lia].
Qed.

Lemma mantissa_shl_digits (m : positive) (k : Z) :
  (0 <= k)%Z ->
  (Zpos (digits2_pos (mantissa_shl m k)) = Zpos (digits2_pos m) + k)%Z.
Proof.
  intro Hk. destruct k as [|p|p]; simpl mantissa_shl; [lia | | lia].
  rewrite iter_xO_digits. lia.
Qed.

Lemma digits2_size (m : positive) : digits2_pos m = Pos.size m.
Proof. induction m; simpl; congruence. Qed.

Lemma digits_bound (m : positive) (k : Z) :
  (0 <= k)%Z -> (Zpos m < 2 ^ k)%Z -> (Zpos (digits2_pos m) <= k)%Z.
Proof.
  intros Hk Hm. rewrite digits2_size.
  destruct (Z_le_gt_dec (Zpos (Pos.size m)) k) as [H|H]; [exact H|exfalso].
  pose proof (Pos.size_le m) as Hle.
  assert (H2 : (2 ^ (k + 1) <= 2 ^ Zpos (Pos.size m))%Z)
    by (apply Z.pow_le_mono_r; lia).
  assert (H3 : (2 ^ Zpos (Pos.size m) <= Zpos m~0)%Z).
  { rewrite <- Pos2Z.inj_pow. apply Pos2Z.pos_le_pos. exact Hle. }
  rewrite Z.pow_add_r in H2 by lia. lia.
Qed.

Lemma digits_gt (m : positive) : (Zpos m < 2 ^ Zpos (digits2_pos m))%Z.
Proof.
  rewrite digits2_size. pose proof (Pos.size_gt m) as H.
  rewrite <- Pos2Z.inj_pow. apply Pos2Z.pos_lt_pos. exact H.
Qed.

Section Rounding.
Variables p emx : Z.

(** A mantissa of full width in the exponent range is kept as it is. *)
Lemma binary_round_aux_exact (s : bool) (mx : positive) (ex : Z) :
  Zpos (digits2_pos mx) = p ->
  (SpecFloat.emin p emx <= ex <= emx - p)%Z ->
  binary_round_aux p emx s (Zpos mx) ex loc_Exact = S754_finite s mx ex.
Proof.
  intros Hd [Hlo Hhi].
  assert (Hf : (fexp p emx (Zdigits2 (Zpos mx) + ex) - ex = 0)%Z).
  { unfold fexp. simpl Zdigits2. rewrite Hd. lia. }
  apply Z.leb_le in Hhi.
  unfold binary_round_aux, shr_fexp. rewrite Hf.
  cbn [shr shr_record_of_loc loc_of_shr_record shr_m round_nearest_even].
  rewrite Hf. cbn [shr shr_record_of_loc shr_m]. now rewrite Hhi.
Qed.

(** A mantissa that fits the precision is widened to it, not rounded. *)
Lemma binary_round_exact (s : bool) (m : positive) (ex : Z) :
  (Zpos (digits2_pos m) <= p)%Z ->
  (SpecFloat.emin p emx <= ex + Zpos (digits2_pos m) - p <= emx - p)%Z ->
  binary_round p emx s m ex
  = S754_finite s (mantissa_shl m (p - Zpos (digits2_pos m)))
                (ex + Zpos (digits2_pos m) - p).
Proof.
  intros Hd He. unfold binary_round.
  replace (fexp p emx (Zpos (digits2_pos m) + ex))
    with (ex + Zpos (digits2_pos m) - p)%Z by (unfold fexp; lia).
  unfold shl_align.
  replace (ex + Zpos (digits2_pos m) - p - ex)%Z
    with (- (p - Zpos (digits2_pos m)))%Z by lia.
  destruct (p - Zpos (digits2_pos m))%Z as [|k|k] eqn:Hk;
    simpl Z.opp; cbv iota.
  - simpl mantissa_shl.
    replace (ex + Zpos (digits2_pos m) - p)%Z with ex by lia.
    apply binary_round_aux_exact; lia.
  - simpl mantissa_shl. apply binary_round_aux_exact; [|lia].
    rewrite iter_xO_digits. lia.
  - lia.
Qed.

End Rounding.

(** The binary64 float that [SF2Prim] makes of a finite triple whose
    mantissa has at most 53 bits. *)
Lemma Prim2SF_SF2Prim_finite (s : bool) (M : positive) (E : Z) :
  (Zpos (digits2_pos M) <= 53)%Z ->
  (-1074 <= E + Zpos (digits2_pos M) - 53 <= 971)%Z ->
  Prim2SF (SF2Prim (S754_finite s M E))
  = S754_finite s (mantissa_shl M (53 - Zpos (digits2_pos M)))
                (E + Zpos (digits2_pos M) - 53).
Proof.
  intros Hd He.
  assert (HM : Uint63.to_Z (Uint63.of_Z (Zpos M)) = Zpos M).
  { rewrite Uint63.of_Z_spec. apply Z.mod_small. split; [lia|].
    pose proof (digits_gt M) as Hgt.
    assert ((2 ^ Zpos (digits2_pos M) <= 2 ^ 53)%Z)
      by (apply Z.pow_le_mono_r; lia).
    change Uint63.wB with (2 ^ 63)%Z.
    assert ((2 ^ 53 < 2 ^ 63)%Z) by (apply Z.pow_lt_mono_r; lia). lia. }
  assert (Hcore : Prim2SF (Z.ldexp (of_uint63 (Uint63.of_Z (Zpos M))) E)
                  = S754_finite false
                      (mantissa_shl M (53 - Zpos (digits2_pos M)))
                      (E + Zpos (digits2_pos M) - 53)).
  { rewrite Z_ldexp_spec, of_uint63_spec, HM. unfold binary_normalize.
    rewrite (binary_round_exact prec emax false M 0)
      by (change prec with 53%Z; change emax with 1024%Z;
          change (SpecFloat.emin 53 1024) with (-1074)%Z; lia).
    unfold SFldexp.
    rewrite binary_round_exact.
    - change prec with 53%Z.
      rewrite mantissa_shl_digits by lia.
      replace (53 - (Zpos (digits2_pos M) + (53 - Zpos (digits2_pos M))))%Z
        with 0%Z by lia.
      simpl mantissa_shl at 1. f_equal. lia.
    - change prec with 53%Z. rewrite mantissa_shl_digits by lia. lia.
    - change prec with 53%Z; change emax with 1024%Z;
        change (SpecFloat.emin 53 1024) with (-1074)%Z.
      rewrite mantissa_shl_digits by lia. lia. }
  unfold SF2Prim. destruct s.
  - rewrite FloatAxioms.opp_spec, Hcore. reflexivity.
  - exact Hcore.
Qed.

Lemma float32_of_pos (s : bool) (m : positive) :
  (Zpos m < 2 ^ 24)%Z ->
  int_of_float (SF2Prim (binary_round f32_prec f32_emax s m 0))
  = Some (cond_Zopp s (Zpos m)).
Proof.
  intro Hm.
  pose proof (digits_bound m 24 ltac:(lia) Hm) as Hd.
  assert (Hd0 : (0 < Zpos (digits2_pos m))%Z) by lia.
  rewrite binary_round_exact
    by (change f32_prec with 24%Z; change f32_emax with 128%Z;
        change (SpecFloat.emin 24 128) with (-149)%Z; lia).
  change f32_prec with 24%Z.
  unfold int_of_float.
  rewrite Prim2SF_SF2Prim_finite by (rewrite mantissa_shl_digits by lia; lia).
  rewrite mantissa_shl_digits by lia.
  set (d := Zpos (digits2_pos m)) in *.
  replace (0 + d - 24 + (d + (24 - d)) - 53)%Z with (- (53 - d))%Z by lia.
  replace (53 - (d + (24 - d)))%Z with 29%Z by lia.
  assert (Hneg : (0 <=? - (53 - d))%Z = false) by (apply Z.leb_gt; lia).
  rewrite Hneg, Z.opp_involutive.
  assert (Hval : (Zpos (mantissa_shl (mantissa_shl m (24 - d)) 29)
                  = Zpos m * 2 ^ (53 - d))%Z).
  { rewrite !mantissa_shl_Z by lia.
    rewrite <- Z.mul_assoc, <- Z.pow_add_r by lia.
    f_equal. f_equal. lia. }
  rewrite Hval.
  assert (Hp : (0 < 2 ^ (53 - d))%Z) by (apply Z.pow_pos_nonneg; lia).
  rewrite Z.mod_mul by lia. rewrite Z.eqb_refl.
  rewrite Z.div_mul by lia. reflexivity.
Qed.

(** float32 holds every integer up to [2^24 = 16777216] in absolute
    value: the conversion returns the integer itself. *)
Lemma float32_of_Z_exact (c : Z) :
  (Z.abs c <= 2 ^ 24)%Z -> int_of_float (float32_of_Z c) = Some c.
Proof.
  intro Hc.
  destruct (Z.eq_dec (Z.abs c) (2 ^ 24)) as [He|Hne].
  - assert (Hcc : c = 16777216%Z \/ c = (-16777216)%Z)
      by (change (2 ^ 24)%Z with 16777216%Z in He; lia).
    destruct Hcc as [-> | ->]; vm_compute; reflexivity.
  - unfold float32_of_Z, binary_normalize. destruct c as [|m|m].
    + vm_compute. reflexivity.
    + apply (float32_of_pos false m). lia.
    + apply (float32_of_pos true m). lia.
Qed.

Lemma make_grid_has_extent (n : Z) :
  (0 <= n)%Z -> In (float32_of_Z n) (make_grid n).
Proof.
  intro Hn. unfold make_grid. apply in_map.
  rewrite grid_lines_rows. apply in_flat_map. exists n. split.
  - apply py_range_In. lia.
  - unfold grid_row. simpl. auto.
Qed.

(** C6, amended. For [n >= 0], [make_grid n] holds, for every integer
    [i] of [-n .. n] and in that order, the vertical segment
    [(i,-n,i,n)] and the horizontal segment [(-n,i,n,i)], each across
    the whole extent, and nothing else: [2*(2n+1)] segments, that is
    [8*(2n+1)] floats, the float32 images of integer coordinates of
    absolute value at most [n].  When [n <= 2^24] float32 holds each of
    these integers, so that the floats emitted are the integers
    themselves, each of absolute value at most [n]. *)
Theorem make_grid_segments (n : Z) :
  (0 <= n)%Z ->
  segments (grid_lines n) = flat_map (grid_pair n) (py_range (- n) (n + 1))
  /\ (forall i, In i (py_range (- n) (n + 1)) <-> (- n <= i <= n)%Z)
  /\ (forall i, (- n <= i <= n)%Z ->
        In (i, - n, i, n)%Z (segments (grid_lines n))
        /\ In (- n, i, n, i)%Z (segments (grid_lines n)))
  /\ segments (make_grid n) = map (map4 float32_of_Z) (segments (grid_lines n))
  /\ Z.of_nat (List.length (segments (make_grid n))) = (2 * (2 * n + 1))%Z
  /\ Z.of_nat (List.length (make_grid n)) = (4 * (2 * (2 * n + 1)))%Z
  /\ Forall (fun c => (Z.abs c <= n)%Z) (grid_lines n)
  /\ ((n <= 2 ^ 24)%Z ->
      map int_of_float (make_grid n) = map Some (grid_lines n)
      /\ Forall (fun x => exists c, int_of_float x = Some c
                                    /\ (Z.abs c <= n)%Z) (make_grid n)).
Proof.
  intro Hn.
  assert (Hseg : segments (grid_lines n)
                 = flat_map (grid_pair n) (py_range (- n) (n + 1)))
    by (rewrite grid_lines_rows; apply segments_rows).
  assert (Hin : forall i, In i (py_range (- n) (n + 1)) <-> (- n <= i <= n)%Z)
    by (intro i; rewrite py_range_In; lia).
  assert (Hbound : Forall (fun c => (Z.abs c <= n)%Z) (grid_lines n)).
  { rewrite grid_lines_rows. apply rows_bounded. intros i Hi. now apply Hin. }
  split; [exact Hseg|]. split; [exact Hin|]. split.
  { intros i Hi. rewrite Hseg. split; apply in_flat_map; exists i;
      (split; [now apply Hin | simpl; auto]). }
  split; [apply segments_map|]. split.
  { unfold make_grid. rewrite segments_map, length_map, Hseg.
    rewrite flat_map_pair_length, py_range_length. lia. }
  split.
  { unfold make_grid. rewrite length_map, grid_lines_rows.
    generalize (py_range_length (- n) (n + 1)).
    generalize (py_range (- n) (n + 1)) as l. intros l Hl.
    assert (H8 : List.length (flat_map (grid_row n) l)
                 = (8 * List.length l)%nat).
    { clear Hl. induction l as [|i l IH]; simpl; [reflexivity|].
      rewrite IH. lia. }
    rewrite H8, Hl. lia. }
  split; [exact Hbound|].
  intro Hmax. unfold make_grid. split.
  - rewrite map_map. apply map_ext_in. intros c Hc.
    rewrite Forall_forall in Hbound. specialize (Hbound c Hc).
    apply float32_of_Z_exact. lia.
  - apply Forall_forall. intros x Hx. apply in_map_iff in Hx.
    destruct Hx as (c & <- & Hc).
    rewrite Forall_forall in Hbound. specialize (Hbound c Hc).
    exists c. split; [apply float32_of_Z_exact; lia | exact Hbound].
Qed.

(** The grid the renderer uploads, [make_grid(10)]: 42 segments, 168
    floats, all integers of absolute value at most 10; and the 24 floats
    of [make_grid(1)]. *)
Lemma make_grid_segments_witness :
  (0 <= 10)%Z /\ (10 <= 2 ^ 24)%Z
  /\ Z.of_nat (List.length (segments (make_grid 10))) = 42%Z
  /\ Forall (fun c => (Z.abs c <= 10)%Z) (grid_lines 10)
  /\ map int_of_float (make_grid 10) = map Some (grid_lines 10)
  /\ Forall (fun x => exists c, int_of_float x = Some c /\ (Z.abs c <= 10)%Z)
            (make_grid 10)
  /\ forallb (fun x => PrimFloat.leb (PrimFloat.abs x) 10) (make_grid 10) = true
  /\ make_grid 1
     = [-1; -1; -1; 1;  -1; -1; 1; -1;
        0; -1; 0; 1;  -1; 0; 1; 0;
        1; -1; 1; 1;  -1; 1; 1; 1]%float.
Proof.
  assert (H0 : (0 <= 10)%Z) by lia.
  assert (H1 : (10 <= 2 ^ 24)%Z) by (vm_compute; discriminate).
  split; [exact H0|]. split; [exact H1|].
  pose proof (make_grid_segments 10 H0)
    as (_ & _ & _ & _ & Hlen & _ & Hb & Hexact).
  split; [exact Hlen|]. split; [exact Hb|].
  split; [exact (proj1 (Hexact H1))|]. split; [exact (proj2 (Hexact H1))|].
  split; vm_compute; reflexivity.
Defined.

(** Past [2^24] the conversion to float32 rounds: [make_grid(16777219)]
    holds the float 16777220.0 for its coordinate 16777219, a coordinate
    whose absolute value is larger than the half extent. *)
Lemma make_grid_rounds_past_extent :
  In (float32_of_Z 16777219) (make_grid 16777219)
  /\ float32_of_Z 16777219 = 16777220%float
  /\ int_of_float (float32_of_Z 16777219) = Some 16777220%Z
  /\ PrimFloat.leb (PrimFloat.abs (float32_of_Z 16777219))
                   (float_of_Z 16777219) = false.
Proof.
  split; [apply make_grid_has_extent; lia|].
  repeat split; vm_compute; reflexivity.
Qed.

(** C7, amended. [make_vector x y] is three segments of float32
    coordinates: the shaft from the origin to [(x, y)] rounded to
    float32, and two wings that start at that tip and end at the float32
    nearest to the point [head_len = 0.3] away from [(x, y)] in the
    directions [atan2(y, x) + pi - head_ang] and
    [atan2(y, x) + pi + head_ang], with [head_ang] 20 degrees in
    radians.  The tip is [(x, y)] itself when float32 holds [x] and [y],
    as it does 3 and 1: [make_vector 3 1] has the shaft [(0, 0, 3, 1)]
    exactly and both wings start at [(3, 1)].  The direction of the wings
    of a zero vector depends on the signs of its zeros: when
    [atan2(0, 0)] is 0 they point along [pi - head_ang] and
    [pi + head_ang], and when [atan2(0, -0)] is pi, along
    [pi + pi - head_ang] and [pi + pi + head_ang]. *)
Theorem make_vector_segments (libm : Libm) (x y : float) :
  segments (make_vector libm x y)
  = [ (0, 0, float32 x, float32 y);
      (float32 x, float32 y,
       float32 (x + head_len * m_cos libm (wing_left libm x y)),
       float32 (y + head_len * m_sin libm (wing_left libm x y)));
      (float32 x, float32 y,
       float32 (x + head_len * m_cos libm (wing_right libm x y)),
       float32 (y + head_len * m_sin libm (wing_right libm x y))) ]%float
  /\ List.length (make_vector libm x y) = 12%nat
  /\ wing_left libm x y = (m_atan2 libm y x + pi - head_ang)%float
  /\ wing_right libm x y = (m_atan2 libm y x + pi + head_ang)%float
  /\ head_len = 0.3%float
  /\ head_ang = (20 * (pi / 180))%float
  /\ (m_atan2 libm 0 0 = 0%float ->
      wing_left libm 0 0 = (pi - head_ang)%float
      /\ wing_right libm 0 0 = (pi + head_ang)%float)
  /\ (exists lx ly rx ry,
        segments (make_vector libm 3 1)
        = [ (0, 0, 3, 1); (3, 1, lx, ly); (3, 1, rx, ry) ]%float)
  /\ (m_atan2 libm 0 (-0) = pi ->
      wing_left libm (-0) 0 = (pi + pi - head_ang)%float
      /\ wing_right libm (-0) 0 = (pi + pi + head_ang)%float)
  /\ (float32 x = x -> float32 y = y ->
      exists lx ly rx ry,
        segments (make_vector libm x y)
        = [ (0, 0, x, y); (x, y, lx, ly); (x, y, rx, ry) ]%float).
Proof.
  do 6 (split; [reflexivity|]). split; [|split; [|split]].
  - intro H. unfold wing_left, wing_right. rewrite H. split; reflexivity.
  - do 4 eexists. reflexivity.
  - intro H. unfold wing_left, wing_right. rewrite H. split; reflexivity.
  - intros Hx Hy. do 4 eexists.
    change (segments (make_vector libm x y))
      with [ (0, 0, float32 x, float32 y);
             (float32 x, float32 y,
              float32 (x + head_len * m_cos libm (wing_left libm x y)),
              float32 (y + head_len * m_sin libm (wing_left libm x y)));
             (float32 x, float32 y,
              float32 (x + head_len * m_cos libm (wing_right libm x y)),
              float32 (y + head_len * m_sin libm (wing_right libm x y))) ]%float.
    rewrite Hx, Hy. reflexivity.
Qed.

(** The zero vector with the crude library, whose [atan2(0, 0)] is 0;
    the vector [(-0.0, 0.0)] with C's [atan2] of zeros; and the vector
    [(3, 1)]. *)
Lemma make_vector_segments_witness :
  m_atan2 crude_libm 0 0 = 0%float
  /\ wing_left crude_libm 0 0 = (pi - head_ang)%float
  /\ wing_right crude_libm 0 0 = (pi + head_ang)%float
  /\ m_atan2 annex_f_libm 0 (-0) = pi
  /\ wing_left annex_f_libm (-0) 0 = (pi + pi - head_ang)%float
  /\ float32 3 = 3%float /\ float32 1 = 1%float
  /\ exists lx ly rx ry,
       segments (make_vector crude_libm 3 1)
       = [ (0, 0, 3, 1); (3, 1, lx, ly); (3, 1, rx, ry) ]%float.
Proof.
  assert (H0 : m_atan2 crude_libm 0 0 = 0%float) by reflexivity.
  assert (Hn : m_atan2 annex_f_libm 0 (-0) = pi) by reflexivity.
  assert (H3 : float32 3 = 3%float) by reflexivity.
  assert (H1 : float32 1 = 1%float) by reflexivity.
  split; [exact H0|].
  pose proof (make_vector_segments crude_libm 3 1)
    as (_ & _ & _ & _ & _ & _ & Hz & _ & _ & Hexact).
  pose proof (make_vector_segments annex_f_libm 0 0)
    as (_ & _ & _ & _ & _ & _ & _ & _ & Hneg & _).
  split; [exact (proj1 (Hz H0))|]. split; [exact (proj2 (Hz H0))|].
  split; [exact Hn|]. split; [exact (proj1 (Hneg Hn))|].
  split; [exact H3|]. split; [exact H1|].
  exact (Hexact H3 H1).
Defined.

(** The wings of [make_vector(-0.0, 0.0)], a zero vector, point the
    other way than those of [make_vector(0.0, 0.0)]; and the shaft of
    [make_vector(0.1, 0)] ends at the float32 nearest to 0.1, which is
    not 0.1. *)
Lemma make_vector_zero_sign_and_rounding :
  feq (-0) 0 = true
  /\ m_atan2 annex_f_libm 0 0 = 0%float
  /\ m_atan2 annex_f_libm 0 (-0) = pi
  /\ wing_left annex_f_libm 0 0 = (pi - head_ang)%float
  /\ wing_left annex_f_libm (-0) 0 = (pi + pi - head_ang)%float
  /\ feq (wing_left annex_f_libm (-0) 0) (wing_left annex_f_libm 0 0) = false
  /\ feq (wing_right annex_f_libm (-0) 0) (wing_right annex_f_libm 0 0) = false
  /\ hd_error (segments (make_vector annex_f_libm 0.1 0))
     = Some (0, 0, 0.10000000149011612, 0)%float
  /\ feq 0.10000000149011612 0.1 = false.
Proof. repeat split; vm_compute; reflexivity. Qed.

(* ================================================================== *)
(** * Induction on expressions *)

Lemma expr_nested_ind (P : expr -> Prop) :
  (forall n, P (ENum n)) ->
  (forall s, P (EStr s)) ->
  (forall x, P (EName x)) ->
  (forall e a, P e -> P (EAttr e a)) ->
  (forall f args, P f -> Forall P args -> P (ECall f args)) ->
  (forall op e, P e -> P (EUnary op e)) ->
  (forall op l r, P l -> P r -> P (EBin op l r)) ->
  forall e, P e.
Proof.
  intros Hnum Hstr Hname Hattr Hcall Hun Hbin.
  fix IH 1. intros [n|s|x|e a|f args|op e|op l r].
  - apply Hnum.
  - apply Hstr.
  - apply Hname.
  - apply Hattr, IH.
  - apply Hcall; [apply IH|].
    induction args as [|a rest IHargs]; constructor; [apply IH | exact IHargs].
  - apply Hun, IH.
  - apply Hbin; apply IH.
Qed.

(* ================================================================== *)
(** * The evaluator: what it can read *)

Lemma assoc_clock_free (x : string) (l : list (string * value)) :
  Forall (fun kv => clock_free (snd kv) = true) l ->
  clock_free_outcome (of_option (assoc x l)).
Proof.
  induction 1 as [|[k v] rest Hv _ IH]; simpl; [exact I|].
  destruct (String.eqb x k); [exact Hv | exact IH].
Qed.

Lemma members_clock_free :
  Forall (fun kv => clock_free (snd kv) = true) math_members.
Proof. repeat constructor. Qed.

Lemma get_attr_clock_free (v : value) (a : string) (st : popped) :
  clock_free v = true -> clock_free_outcome (fst (get_attr v a st)).
Proof.
  destruct v as [| | |[]|[]| | | |]; intro Hv; try exact I; try discriminate Hv;
    unfold get_attr, lift;
    try (match goal with
         | |- context [if String.eqb a ?k then _ else _] =>
             destruct (String.eqb a k); [reflexivity|]
         end);
    try exact I.
  destruct (was_popped a st); [exact I|].
  exact (assoc_clock_free a math_members members_clock_free).
Qed.

Lemma math_dict_pop_clock_free (args : list value) (st : popped) :
  forallb clock_free args = true ->
  clock_free_outcome (fst (math_dict_pop args st)).
Proof.
  pose proof (fun key => assoc_clock_free key math_members members_clock_free) as Hm.
  unfold math_dict_pop, lift.
  destruct args as [|k [|d [|x rest]]]; intro Hargs; try exact I;
    destruct k as [| |key| | | | | |]; try exact I;
    destruct (was_popped key st); try exact I;
    try (specialize (Hm key); destruct (assoc key math_members); [exact Hm | exact I]).
  simpl in Hargs. unfold clock_free_outcome. cbn [fst returns].
  destruct (clock_free d); [reflexivity | discriminate Hargs].
Qed.

Lemma call_wall (libm : Libm) (w1 w2 : float) (f : value) (args : list value)
      (st : popped) :
  clock_free f = true -> call libm w1 f args st = call libm w2 f args st.
Proof.
  destruct f as [| | | |b| | | |]; try reflexivity.
  destruct b; intro H; try reflexivity. discriminate H.
Qed.

Lemma call_clock_free (libm : Libm) (w : float) (f : value) (args : list value)
      (st : popped) :
  forallb clock_free args = true ->
  clock_free_outcome (fst (call libm w f args st)).
Proof.
  intro Hargs. destruct f as [| | | |b| | | |]; try exact I.
  destruct b; try (apply math_dict_pop_clock_free; exact Hargs);
    destruct args as [|v1 [|v2 [|v3 rest]]]; try exact I; try reflexivity;
    unfold call, call_builtin, bootstrap_globals_get, sys_exit, lift; cbn [fst];
    repeat match goal with
      | |- clock_free_outcome (bind ?m _) => destruct m; simpl; try exact I
      | |- clock_free_outcome (match ?v with _ => _ end) =>
          destruct v; simpl; try exact I
      end; try reflexivity.
Qed.

Lemma ebind_agree {A B : Type} (m1 m2 : E A) (k1 k2 : A -> E B)
      (P : A -> Prop) (Q : B -> Prop) (st : popped) :
  m1 st = m2 st /\ returns P (fst (m1 st)) ->
  (forall a st', P a ->
     k1 a st' = k2 a st' /\ returns Q (fst (k1 a st'))) ->
  ebind m1 k1 st = ebind m2 k2 st /\ returns Q (fst (ebind m1 k1 st)).
Proof.
  intros [Hm HP] Hk. unfold ebind. rewrite <- Hm.
  destruct (m1 st) as [[a|x|] st']; simpl in *;
    [now apply Hk | split; [reflexivity | exact I] ..].
Qed.

Lemma eval_list_agree (ev1 ev2 : expr -> E value) (args : list expr) :
  Forall (fun a => forall st,
            ev1 a st = ev2 a st /\ clock_free_outcome (fst (ev1 a st))) args ->
  forall st,
    eval_list ev1 args st = eval_list ev2 args st
    /\ returns (fun vs => forallb clock_free vs = true)
         (fst (eval_list ev1 args st)).
Proof.
  induction 1 as [|a rest Ha _ IH]; intro st; [split; reflexivity|].
  cbn [eval_list].
  apply ebind_agree with (P := fun v => clock_free v = true); [apply Ha|].
  intros v st1 Hv.
  apply ebind_agree with (P := fun vs => forallb clock_free vs = true);
    [apply IH|].
  intros vs st2 Hvs. split; [reflexivity|]. simpl. now rewrite Hv, Hvs.
Qed.

Lemma lift_agree {A : Type} (o : outcome A) (Q : A -> Prop) (st : popped) :
  returns Q o -> lift o st = lift o st /\ returns Q (fst (lift o st)).
Proof. intro H. split; [reflexivity | exact H]. Qed.

Lemma unary_clock_free (op : unop) (v : value) :
  clock_free_outcome (unary op v).
Proof. destruct v, op; exact I || reflexivity. Qed.

Lemma arith_clock_free (op : binop) (a b : value) :
  clock_free_outcome (arith op a b).
Proof.
  destruct a, b, op; simpl; try exact I; try reflexivity;
    unfold int_arith, float_arith;
    repeat match goal with
      | |- clock_free_outcome (bind ?m _) => destruct m; simpl; try exact I
      | |- clock_free_outcome (if ?c then _ else _) => destruct c; simpl; try exact I
      end; reflexivity.
Qed.

Section WallIndependence.
Variables (libm : Libm) (w1 w2 : float) (ns : namespace).
Hypothesis Hns : clock_free_ns ns.

Lemma lookup_clock_free (x : string) : clock_free_outcome (lookup_name ns x).
Proof.
  unfold lookup_name. destruct Hns as [Hg Hb].
  pose proof (assoc_clock_free x _ Hg) as Kg.
  pose proof (assoc_clock_free x _ Hb) as Kb.
  destruct (assoc x (ns_globals ns)); [exact Kg|].
  destruct (assoc x (ns_builtins ns)); [exact Kb | exact I].
Qed.

Lemma eval_expr_wall (e : expr) :
  forall st,
    eval_expr libm w1 ns e st = eval_expr libm w2 ns e st
    /\ clock_free_outcome (fst (eval_expr libm w1 ns e st)).
Proof.
  induction e as [n|s|x|e a IH|f args IHf IHargs|op e IH|op l r IHl IHr]
    using expr_nested_ind; intro st; cbn [eval_expr].
  - destruct n; split; reflexivity.
  - split; reflexivity.
  - split; [reflexivity | apply lookup_clock_free].
  - apply ebind_agree with (P := fun v => clock_free v = true); [apply IH|].
    intros v st1 Hv. split; [reflexivity | now apply get_attr_clock_free].
  - apply ebind_agree with (P := fun v => clock_free v = true); [apply IHf|].
    intros fv st1 Hfv.
    apply ebind_agree with (P := fun vs => forallb clock_free vs = true);
      [now apply eval_list_agree|].
    intros vs st2 Hvs.
    split; [now apply call_wall | now apply call_clock_free].
  - apply ebind_agree with (P := fun v => clock_free v = true); [apply IH|].
    intros v st1 _. apply lift_agree, unary_clock_free.
  - apply ebind_agree with (P := fun v => clock_free v = true); [apply IHl|].
    intros a st1 _.
    apply ebind_agree with (P := fun v => clock_free v = true); [apply IHr|].
    intros b st2 _. apply lift_agree, arith_clock_free.
Qed.

End WallIndependence.

Lemma sandbox_clock_free (t : float) : clock_free_ns (sandbox t).
Proof. split; repeat constructor. Qed.

(** Whatever the wall clock reads when [safe_eval] is called, the result
    and the state it leaves are the same: nothing reachable from the
    restricted namespace reads the clock. *)
Lemma safe_eval_ignores_clock (libm : Libm) (wall1 wall2 t : float)
      (expr : string) (st : popped) :
  safe_eval libm wall1 t expr st = safe_eval libm wall2 t expr st.
Proof.
  unfold safe_eval, eval_float, py_eval, ebind.
  destruct (py_compile expr) as [e| |]; try reflexivity.
  destruct (eval_expr_wall libm wall1 wall2 (sandbox t) (sandbox_clock_free t) e st)
    as [<- _].
  reflexivity.
Qed.

(** With [time] in scope the same evaluator does read the clock. *)
Lemma py_eval_reads_clock (libm : Libm) (wall : float) (st : popped) :
  py_eval libm wall with_time "time.time()" st = (Ret (VFloat wall), st).
Proof. reflexivity. Qed.

(* ================================================================== *)
(** * The evaluator: [safe_eval] *)

Ltac eval_step :=
  repeat progress
    (cbn [eval_expr eval_list lookup_name sandbox ns_globals
          ns_builtins assoc String.eqb Ascii.eqb Bool.eqb get_attr math_members
          of_option call call_builtin as_double bind py_float unary fst snd];
     unfold ebind, lift).

Lemma compile_math_cos :
  py_compile "math.cos(t)" = Ret (ECall (EAttr (EName "math") "cos") [EName "t"]).
Proof. vm_compute. reflexivity. Qed.

Lemma compile_math_sin :
  py_compile "math.sin(t)" = Ret (ECall (EAttr (EName "math") "sin") [EName "t"]).
Proof. vm_compute. reflexivity. Qed.

Lemma compile_neg_math_sin :
  py_compile "-math.sin(t)"
  = Ret (EUnary UMinus (ECall (EAttr (EName "math") "sin") [EName "t"])).
Proof. vm_compute. reflexivity. Qed.

(** C1. [SystemExit] is not an [Exception].  The formula
    [math.__spec__.__init__.__globals__.get('sys').exit()] reaches [sys]
    from [math] and raises [SystemExit] inside [eval]; the
    [except Exception] of [safe_eval] lets it through to the caller, so
    the iteration ends with it before anything is drawn, and with the
    iteration the loop.  The failures the claim lists are absorbed:
    [1/0], [__import__('os')], the empty text, a broken text, a module
    or a function as the result all give 0.0; and the string ['2'],
    which is not a number, is not a failure for [float]: it gives 2.0. *)
Theorem system_exit_passes_safe_eval (libm : Libm) (wall t dt : float)
        (rest : list Interference) :
  let tick := {| on_shared := fun s => s; elapsed := dt;
                 asks_close := false |} in
  is_Exception SystemExit = false
  /\ fst (py_eval libm wall (sandbox t) quit_formula []) = Raise SystemExit
  /\ safe_eval libm wall t quit_formula [] = (Raise SystemExit, [])
  /\ propagates (fst (safe_eval libm wall t quit_formula [])) = true
  /\ fst (safe_eval libm wall t
            "math.__spec__.__init__.__globals__.get('sys').exit(3)" [])
     = Raise SystemExit
  /\ fst (loop_body libm (quit_world wall)) = Raise SystemExit
  /\ gl (snd (loop_body libm (quit_world wall))) = gl (quit_world wall)
  /\ fst (render_frames libm (tick :: rest) (quit_world wall))
     = Raise SystemExit
  /\ fst (safe_eval libm wall 1 "1/0" []) = Ret 0%float
  /\ fst (safe_eval libm wall 1 "__import__('os')" []) = Ret 0%float
  /\ fst (safe_eval libm wall 1 EmptyString []) = Ret 0%float
  /\ fst (safe_eval libm wall t "(t + 1" []) = Ret 0%float
  /\ fst (safe_eval libm wall t "math" []) = Ret 0%float
  /\ fst (safe_eval libm wall t "math.cos" []) = Ret 0%float
  /\ fst (py_eval libm wall (sandbox t) "'2'" []) = Ret (VStr "2")
  /\ fst (safe_eval libm wall t "'2'" []) = Ret 2%float.
Proof.
  intro tick. repeat split; vm_compute; reflexivity.
Qed.

(** The bare name [cos] is not bound: [cos(t)] at 0 gives 0.0, not 1.0. *)
Lemma safe_eval_bare_cos :
  fst (safe_eval crude_libm 0 0 "cos(t)" []) = Ret 0%float
  /\ fst (safe_eval crude_libm 0 0 "math.cos(t)" []) = Ret 1%float.
Proof. split; reflexivity. Qed.

Lemma safe_eval_math_cos (libm : Libm) (wall t : float) (st : popped) :
  was_popped "cos" st = false ->
  safe_eval libm wall t "math.cos(t)" st
  = (match math_1 (m_cos libm) t with Ret r => Ret r | _ => Ret 0%float end, st).
Proof.
  intro H. unfold safe_eval, eval_float, py_eval.
  rewrite compile_math_cos. eval_step. rewrite H. eval_step.
  destruct (math_1 (m_cos libm) t) as [r|x|] eqn:Hm.
  - reflexivity.
  - unfold math_1 in Hm.
    destruct (is_nan (m_cos libm t) && negb (is_nan t));
      [|destruct (is_infinity (m_cos libm t) && is_finite t)];
      inversion Hm; reflexivity.
  - unfold math_1 in Hm.
    destruct (is_nan (m_cos libm t) && negb (is_nan t));
      [|destruct (is_infinity (m_cos libm t) && is_finite t)];
      inversion Hm.
Qed.

Lemma safe_eval_math_sin (libm : Libm) (wall t : float) (st : popped) :
  was_popped "sin" st = false ->
  safe_eval libm wall t "math.sin(t)" st
  = (match math_1 (m_sin libm) t with Ret r => Ret r | _ => Ret 0%float end, st).
Proof.
  intro H. unfold safe_eval, eval_float, py_eval.
  rewrite compile_math_sin. eval_step. rewrite H. eval_step.
  destruct (math_1 (m_sin libm) t) as [r|x|] eqn:Hm.
  - reflexivity.
  - unfold math_1 in Hm.
    destruct (is_nan (m_sin libm t) && negb (is_nan t));
      [|destruct (is_infinity (m_sin libm t) && is_finite t)];
      inversion Hm; reflexivity.
  - unfold math_1 in Hm.
    destruct (is_nan (m_sin libm t) && negb (is_nan t));
      [|destruct (is_infinity (m_sin libm t) && is_finite t)];
      inversion Hm.
Qed.

Lemma safe_eval_neg_math_sin (libm : Libm) (wall t : float) (st : popped) :
  was_popped "sin" st = false ->
  safe_eval libm wall t "-math.sin(t)" st
  = (match math_1 (m_sin libm) t with
     | Ret r => Ret (- r)%float
     | _ => Ret 0%float
     end, st).
Proof.
  intro H. unfold safe_eval, eval_float, py_eval.
  rewrite compile_neg_math_sin. eval_step. rewrite H. eval_step.
  destruct (math_1 (m_sin libm) t) as [r|x|] eqn:Hm.
  - reflexivity.
  - unfold math_1 in Hm.
    destruct (is_nan (m_sin libm t) && negb (is_nan t));
      [|destruct (is_infinity (m_sin libm t) && is_finite t)];
      inversion Hm; reflexivity.
  - unfold math_1 in Hm.
    destruct (is_nan (m_sin libm t) && negb (is_nan t));
      [|destruct (is_infinity (m_sin libm t) && is_finite t)];
      inversion Hm.
Qed.

(** C2, amended. The namespace of [safe_eval] binds [t] to the supplied
    value, [math] to the module, and [__builtins__] to an empty dict, and
    nothing else: any other bare name, [sin], [cos], [tan], [sqrt], [pi]
    among them, is a [NameError] and evaluates to 0.0.  The math
    functions and constants are reached as attributes of [math].  So
    [t] at 2.5 is 2.5, [cos(t)] at 0 is 0.0, and [math.cos(t)] at 0 is
    1.0 when the C library's cosine of 0 is 1. *)
Theorem sandbox_namespace (libm : Libm) (wall t : float) (st : popped) :
  (forall x,
      lookup_name (sandbox t) x
      = if String.eqb x "__builtins__" then Ret VEmptyDict
        else if String.eqb x "math" then Ret (VModule Math)
        else if String.eqb x "t" then Ret (VFloat t)
        else Raise NameError)
  /\ safe_eval libm wall t "t" st = (Ret t, st)
  /\ safe_eval libm wall 2.5 "t" st = (Ret 2.5%float, st)
  /\ Forall (fun x => safe_eval libm wall t x st = (Ret 0%float, st))
       ["sin"; "cos"; "tan"; "sqrt"; "pi"; "e"; "abs"; "sin(t)"; "cos(t)";
        "sqrt(t)"; "pi * t"]%string
  /\ map (fun a => fst (get_attr (VModule Math) a []))
       ["sin"; "cos"; "tan"; "sqrt"; "pi"; "e"]%string
     = [Ret (VFunc FSin); Ret (VFunc FCos); Ret (VFunc FTan);
        Ret (VFunc FSqrt); Ret (VFloat pi); Ret (VFloat Num.e)]
  /\ safe_eval libm wall t "math.pi" [] = (Ret pi, [])
  /\ safe_eval libm wall t "math.cos(t)" []
     = (match math_1 (m_cos libm) t with Ret r => Ret r | _ => Ret 0%float end,
        [])
  /\ (m_cos libm 0 = 1%float ->
      safe_eval libm wall 0 "math.cos(t)" [] = (Ret 1%float, [])).
Proof.
  split; [intro x; unfold lookup_name; simpl; now repeat destruct (String.eqb x _)|].
  do 2 (split; [reflexivity|]).
  split; [repeat constructor|].
  do 2 (split; [reflexivity|]).
  split; [now apply safe_eval_math_cos|].
  intro H. rewrite safe_eval_math_cos by reflexivity.
  unfold math_1. rewrite H. reflexivity.
Qed.

(** The crude library's cosine of 0 is 1. *)
Lemma sandbox_namespace_witness :
  m_cos crude_libm 0 = 1%float
  /\ safe_eval crude_libm 0 0 "math.cos(t)" [] = (Ret 1%float, []).
Proof.
  split; [reflexivity|].
  apply (sandbox_namespace crude_libm 0 0 []). reflexivity.
Defined.

(* ================================================================== *)
(** * Formulas that stay away from [math.__dict__] *)

Lemma pure_bind {A B : Type} (m : E A) (k : A -> E B)
      (P : A -> Prop) (Q : B -> Prop) (st : popped) :
  pure_step P m st ->
  (forall a, P a -> pure_step Q (k a) st) ->
  pure_step Q (ebind m k) st.
Proof.
  unfold pure_step, ebind. intros Hm Hk.
  destruct (m st) as [[a|x|] st']; simpl in *; intro Hne.
  - destruct Hm as [Hst HP]; [discriminate|]. subst st'. now apply Hk.
  - destruct Hm as [Hst _]; [discriminate|]. subst st'.
    split; [reflexivity | exact I].
  - contradiction.
Qed.

Lemma pure_lift {A : Type} (o : outcome A) (P : A -> Prop) (st : popped) :
  returns P o -> pure_step P (lift o) st.
Proof. intros H _. split; [reflexivity | exact H]. Qed.

Lemma assoc_dict_free (x : string) (l : list (string * value)) :
  Forall (fun kv => dict_free (snd kv) = true) l ->
  returns (fun v => dict_free v = true) (of_option (assoc x l)).
Proof.
  induction 1 as [|[k v] rest Hv _ IH]; simpl; [exact I|].
  destruct (String.eqb x k); [exact Hv | exact IH].
Qed.

Lemma members_dict_free :
  Forall (fun kv => dict_free (snd kv) = true) math_members.
Proof. repeat constructor. Qed.

Lemma get_attr_pure (v : value) (a : string) (st : popped) :
  dict_free v = true -> String.eqb a "__dict__" = false ->
  pure_step (fun r => dict_free r = true) (get_attr v a) st.
Proof.
  intros Hv Ha. unfold pure_step. intros _.
  destruct v as [| | |[]|[]| | | |]; try discriminate Hv;
    try (split; [reflexivity | exact I]).
  - unfold get_attr. rewrite Ha. destruct (was_popped a st);
      [split; [reflexivity | exact I]|].
    split; [reflexivity|].
    exact (assoc_dict_free a math_members members_dict_free).
  - split; [reflexivity|]. unfold get_attr, lift, time_members. simpl.
    destruct (String.eqb a "time"); [reflexivity | exact I].
  - unfold get_attr, lift. destruct (String.eqb a "exit");
      split; first [reflexivity | exact I].
  - unfold get_attr, lift. destruct (String.eqb a "__globals__");
      split; first [reflexivity | exact I].
  - unfold get_attr, lift. destruct (String.eqb a "__init__");
      split; first [reflexivity | exact I].
  - unfold get_attr, lift. destruct (String.eqb a "get");
      split; first [reflexivity | exact I].
Qed.

Lemma call_pure (libm : Libm) (wall : float) (f : value) (args : list value)
      (st : popped) :
  dict_free f = true ->
  pure_step (fun r => dict_free r = true) (call libm wall f args) st.
Proof.
  intro Hf. unfold pure_step. intros _.
  destruct f as [| | | |b| | | |]; try (split; [reflexivity | exact I]).
  destruct b; try discriminate Hf;
    destruct args as [|v1 [|v2 [|v3 rest]]];
    try (split; [reflexivity | exact I]);
    (split; [reflexivity|]);
    unfold call, call_builtin, bootstrap_globals_get, sys_exit, lift; cbn [fst];
    repeat match goal with
      | |- returns _ (bind ?m _) => destruct m; simpl; try exact I
      | |- returns _ (match ?v with _ => _ end) => destruct v; simpl; try exact I
      end; try reflexivity.
Qed.

Lemma unary_dict_free (op : unop) (v : value) :
  returns (fun r => dict_free r = true) (unary op v).
Proof. destruct v, op; exact I || reflexivity. Qed.

Lemma arith_dict_free (op : binop) (a b : value) :
  returns (fun r => dict_free r = true) (arith op a b).
Proof.
  destruct a, b, op; simpl; try exact I; try reflexivity;
    unfold int_arith, float_arith;
    repeat match goal with
      | |- returns _ (bind ?m _) => destruct m; simpl; try exact I
      | |- returns _ (if ?c then _ else _) => destruct c; simpl; try exact I
      end; reflexivity.
Qed.

Lemma eval_list_pure (ev : expr -> E value) (args : list expr) (st : popped) :
  Forall (fun a => reaches_dict a = false ->
                   pure_step (fun r => dict_free r = true) (ev a) st) args ->
  existsb reaches_dict args = false ->
  pure_step (fun _ => True) (eval_list ev args) st.
Proof.
  induction 1 as [|a rest Ha _ IH]; intro Hargs;
    [intros _; split; [reflexivity | exact I]|].
  simpl in Hargs. apply orb_false_iff in Hargs. destruct Hargs as [Hra Hrest].
  cbn [eval_list].
  apply pure_bind with (P := fun r => dict_free r = true); [now apply Ha|].
  intros v _.
  apply pure_bind with (P := fun _ => True); [now apply IH|].
  intros vs _. now apply pure_lift.
Qed.

Section DictFree.
Variables (libm : Libm) (wall : float) (t : float).

Lemma sandbox_lookup_dict_free (x : string) :
  returns (fun r => dict_free r = true) (lookup_name (sandbox t) x).
Proof.
  unfold lookup_name. simpl.
  repeat (destruct (String.eqb x _); [reflexivity|]). exact I.
Qed.

Lemma eval_expr_pure (e : expr) (st : popped) :
  reaches_dict e = false ->
  pure_step (fun r => dict_free r = true)
            (eval_expr libm wall (sandbox t) e) st.
Proof.
  induction e as [n|s|x|e a IH|f args IHf IHargs|op e IH|op l r IHl IHr]
    using expr_nested_ind; intro Hr; cbn [eval_expr]; cbn [reaches_dict] in Hr.
  - intros _. destruct n; split; reflexivity.
  - intros _. split; reflexivity.
  - apply pure_lift, sandbox_lookup_dict_free.
  - apply orb_false_iff in Hr. destruct Hr as [Ha He].
    apply pure_bind with (P := fun r => dict_free r = true); [now apply IH|].
    intros v Hv. now apply get_attr_pure.
  - apply orb_false_iff in Hr. destruct Hr as [Hf Hargs].
    apply pure_bind with (P := fun r => dict_free r = true); [now apply IHf|].
    intros fv Hfv.
    apply pure_bind with (P := fun _ => True); [now apply eval_list_pure|].
    intros vs _. now apply call_pure.
  - apply pure_bind with (P := fun r => dict_free r = true); [now apply IH|].
    intros v _. apply pure_lift, unary_dict_free.
  - apply orb_false_iff in Hr. destruct Hr as [Hl Hr].
    apply pure_bind with (P := fun r => dict_free r = true); [now apply IHl|].
    intros a _.
    apply pure_bind with (P := fun r => dict_free r = true); [now apply IHr|].
    intros b _. apply pure_lift, arith_dict_free.
Qed.

Lemma safe_eval_keeps_state (expr : string) (st : popped) :
  source_reaches_dict expr = false ->
  fst (safe_eval libm wall t expr st) <> Beyond ->
  snd (safe_eval libm wall t expr st) = st.
Proof.
  unfold source_reaches_dict, safe_eval, eval_float, py_eval. intro Hr.
  destruct (py_compile expr) as [e| |]; try reflexivity.
  pose proof (eval_expr_pure e st Hr) as Hpure. unfold pure_step in Hpure.
  unfold ebind.
  destruct (eval_expr libm wall (sandbox t) e st) as [[v|x|] st'];
    simpl in *; intro Hne.
  - destruct Hpure as [Hst _]; [discriminate|]. subst st'.
    unfold lift. now destruct (py_float v).
  - destruct Hpure as [Hst _]; [discriminate|]. subst st'.
    now destruct (is_Exception x).
  - contradiction.
Qed.

End DictFree.

(** X1. A formula that never names [__dict__], and whose evaluation
    stays within the modelled operations, leaves the interpreter as it
    found it, so evaluating it again with the same [t], at whatever
    time, gives the same result.  Of a formula whose evaluation leaves
    the modelled operations nothing is said: one can reach the same
    dictionary by other names. *)
Lemma safe_eval_repeatable (libm : Libm) (wall1 wall2 t : float)
      (expr : string) (st : popped) :
  source_reaches_dict expr = false ->
  fst (safe_eval libm wall1 t expr st) <> Beyond ->
  safe_eval libm wall2 t expr (snd (safe_eval libm wall1 t expr st))
  = safe_eval libm wall1 t expr st.
Proof.
  intros Hr Hne. rewrite (safe_eval_keeps_state libm wall1 t expr st Hr Hne).
  apply safe_eval_ignores_clock.
Qed.

(** A formula that returns a number and one that [safe_eval] turns into
    0.0. *)
Lemma safe_eval_repeatable_witness :
  source_reaches_dict "math.cos(t) * 2" = false
  /\ safe_eval crude_libm 5 0 "math.cos(t) * 2" [] = (Ret 2%float, [])
  /\ safe_eval crude_libm 9 0 "math.cos(t) * 2"
       (snd (safe_eval crude_libm 5 0 "math.cos(t) * 2" []))
     = safe_eval crude_libm 5 0 "math.cos(t) * 2" []
  /\ safe_eval crude_libm 9 3 "math.sqrt(0 - t)"
       (snd (safe_eval crude_libm 5 3 "math.sqrt(0 - t)" []))
     = safe_eval crude_libm 5 3 "math.sqrt(0 - t)" [].
Proof.
  split; [reflexivity|]. split; [vm_compute; reflexivity|]. split.
  - apply (safe_eval_repeatable crude_libm 5 9 0);
      [reflexivity | vm_compute; discriminate].
  - apply (safe_eval_repeatable crude_libm 5 9 3);
      [reflexivity | vm_compute; discriminate].
Defined.

(** C10. [math.__dict__] is the namespace of the module object, reachable
    from the restricted namespace and mutable: the first evaluation of
    [math.__dict__.pop('pi')] returns pi and removes the entry, the second
    one, with the same arguments, meets a [KeyError] and returns 0.0; and
    [math.pi], which evaluated to pi before, evaluates to 0.0 after.  In
    the render loop, with that text as the first formula and the control
    state untouched, the first frame uploads [a = float32(pi)] and the
    next one [a = 0.0]. *)
Theorem pop_pi_is_not_repeatable (libm : Libm) (wall t : float) :
  let first := safe_eval libm wall t "math.__dict__.pop('pi')" [] in
  let second := safe_eval libm wall t "math.__dict__.pop('pi')" (snd first) in
  let w0 := pop_world wall in
  let w1 := snd (loop_body libm w0) in
  let w2 := snd (loop_body libm w1) in
  first = (Ret pi, ["pi"%string])
  /\ second = (Ret 0%float, ["pi"%string])
  /\ fst (py_eval libm wall (sandbox t) "math.__dict__.pop('pi')" (snd first))
     = Raise KeyError
  /\ fst (safe_eval libm wall t "math.pi" []) = Ret pi
  /\ fst (safe_eval libm wall t "math.pi" (snd first)) = Ret 0%float
  /\ shared w1 = shared w0
  /\ shared w2 = shared w0
  /\ ravel (uTransform (gl w1))
     = [float32 pi; 0; 0; 0; 0; 1; 0; 0; 0; 0; 1; 0; 0; 0; 0; 1]%float
  /\ ravel (uTransform (gl w2))
     = [0; 0; 0; 0; 0; 1; 0; 0; 0; 0; 1; 0; 0; 0; 0; 1]%float.
Proof. repeat split; vm_compute; reflexivity. Qed.

(* ================================================================== *)
(** * One iteration of the render loop *)

Ltac mstep :=
  cbv beta iota zeta delta
    [loop_body mbind mret effect poll_events shared_get time_time time_sleep
     call_safe_eval log with_gl with_clock glClear glUniformMatrix4fv
     glUniform3f glBindBuffer glVertexAttribPointer glEnableVertexAttribArray
     glDrawArrays swap_buffers with_popped shared clock gl trace
     close_requested math_popped uTransform uColor array_buffer back front
     fst snd].

Ltac mstep_in H :=
  cbv beta iota zeta delta
    [shared clock gl trace close_requested math_popped fst snd] in H.

Lemma loop_body_paused (libm : Libm) (w : World) :
  paused (shared w) = true ->
  loop_body libm w
  = (Ret tt, log (EvSleep 0.01) (with_clock (clock w + 0.01)%float (log EvPoll w))).
Proof.
  intro Hp. destruct w as [sh ck cl g mp tr]. mstep. mstep_in Hp.
  rewrite Hp. reflexivity.
Qed.

Lemma loop_body_running (libm : Libm) (w : World) (va vb vc vd : float)
      (s1 s2 s3 s4 : popped) :
  paused (shared w) = false ->
  let t := (clock w - t0 (shared w))%float in
  safe_eval libm (clock w) t (a_expr (shared w)) (math_popped w) = (Ret va, s1) ->
  safe_eval libm (clock w) t (b_expr (shared w)) s1 = (Ret vb, s2) ->
  safe_eval libm (clock w) t (c_expr (shared w)) s2 = (Ret vc, s3) ->
  safe_eval libm (clock w) t (d_expr (shared w)) s3 = (Ret vd, s4) ->
  let M := matrix_M (va * a_scale (shared w)) (vb * b_scale (shared w))
                    (vc * c_scale (shared w)) (vd * d_scale (shared w)) in
  exists w',
    loop_body libm w = (Ret tt, w')
    /\ shared w' = shared w
    /\ clock w' = clock w
    /\ math_popped w' = s4
    /\ uTransform (gl w') = uniform_of_buffer false (ravel M)
    /\ front (gl w') = frame_draws libm (shared w) (uniform_of_buffer false (ravel M))
    /\ trace w'
       = trace w
         ++ [EvPoll;
             EvEval (a_expr (shared w)) t; EvEval (b_expr (shared w)) t;
             EvEval (c_expr (shared w)) t; EvEval (d_expr (shared w)) t;
             EvClear; EvUniformMatrix4fv false (ravel M)]
         ++ frame_events libm (shared w) ++ [EvSwapBuffers].
Proof.
  intros Hp t Ha Hb Hc Hd M.
  destruct w as [sh ck cl g mp tr]. subst t M. mstep_in Hp. mstep_in Ha.
  mstep_in Hb. mstep_in Hc. mstep_in Hd. mstep.
  rewrite Hp, Ha. mstep. rewrite Hb. mstep. rewrite Hc. mstep.
  rewrite Hd. mstep. unfold frame_draws, frame_events.
  generalize (Z.of_nat (List.length (grid)) / 2)%Z as count. intro count.
  destruct (show_grid sh), (show_arrow sh); mstep;
    eexists; (split; [reflexivity|]); mstep;
    repeat (split; [reflexivity|]);
    rewrite <- !app_assoc; reflexivity.
Qed.

(** ** The render thread only reads the control state *)

Lemma reads_only_bind {A B : Type} (m : M A) (k : A -> M B) :
  reads_only m -> (forall a, reads_only (k a)) -> reads_only (mbind m k).
Proof.
  intros Hm Hk w. unfold mbind. specialize (Hm w).
  destruct (m w) as [[a|x|] w']; simpl in *; intro Hne.
  - rewrite (Hk a w' Hne). apply Hm. discriminate.
  - apply Hm. discriminate.
  - contradiction.
Qed.

Lemma reads_only_effect (f : World -> World) :
  (forall w, shared (f w) = shared w) -> reads_only (effect f).
Proof. intros Hf w _. apply Hf. Qed.

Lemma reads_only_mret {A : Type} (a : A) : reads_only (mret a).
Proof. intros w _. reflexivity. Qed.

Lemma reads_only_get {A : Type} (field : Shared -> A) :
  reads_only (shared_get field).
Proof. intros w _. reflexivity. Qed.

Lemma reads_only_time : reads_only time_time.
Proof. intros w _. reflexivity. Qed.

Lemma reads_only_safe_eval (libm : Libm) (t : float) (expr : string) :
  reads_only (call_safe_eval libm t expr).
Proof. intros w _. reflexivity. Qed.

Ltac reads_only_step :=
  first
    [ apply reads_only_bind; [ | intro ]
    | apply reads_only_get
    | apply reads_only_time
    | apply reads_only_safe_eval
    | apply reads_only_mret
    | apply reads_only_effect; intro; reflexivity
    | match goal with
      | |- reads_only (if ?b then _ else _) => destruct b
      end ].

(** X17. An iteration whose formulas stay within the modelled
    operations writes no field of the shared control state, however it
    ends: the statements of the loop only read [shared], and nothing the
    model covers of a formula reaches it.  Of an iteration in which a
    formula leaves the model nothing is said. *)
Theorem iteration_within_model_reads_only (libm : Libm) (w : World) :
  fst (loop_body libm w) <> Beyond ->
  shared (snd (loop_body libm w)) = shared w.
Proof.
  revert w. change (reads_only (loop_body libm)).
  unfold loop_body, poll_events, time_sleep, glClear,
    glUniformMatrix4fv, glUniform3f, glBindBuffer, glVertexAttribPointer,
    glEnableVertexAttribArray, glDrawArrays, swap_buffers.
  repeat reads_only_step.
Qed.

(** A frame of the default controls, and an iteration that [sys.exit()]
    ends. *)
Lemma iteration_within_model_reads_only_witness :
  fst (loop_body crude_libm (initial_world 0)) <> Beyond
  /\ shared (snd (loop_body crude_libm (initial_world 0)))
     = shared (initial_world 0)
  /\ fst (loop_body crude_libm (quit_world 0)) <> Beyond
  /\ shared (snd (loop_body crude_libm (quit_world 0))) = shared (quit_world 0).
Proof.
  assert (H1 : fst (loop_body crude_libm (initial_world 0)) <> Beyond)
    by (vm_compute; discriminate).
  assert (H2 : fst (loop_body crude_libm (quit_world 0)) <> Beyond)
    by (vm_compute; discriminate).
  split; [exact H1|].
  split; [exact (iteration_within_model_reads_only crude_libm _ H1)|].
  split; [exact H2|].
  exact (iteration_within_model_reads_only crude_libm _ H2).
Defined.

(** The control surface does write: [reset_t] moves the time origin. *)
Lemma reset_t_writes :
  t0 (shared (snd (reset_t (with_clock 5 (initial_world 0))))) = 5%float
  /\ t0 (shared (with_clock 5 (initial_world 0))) = 0%float.
Proof. split; reflexivity. Qed.

(** ** Paused iterations *)

Lemma render_frames_paused (libm : Libm) (steps : list Interference) :
  forall w,
    stays_paused steps (shared w) ->
    exists idle,
      fst (render_frames libm steps w) = Ret tt
      /\ gl (snd (render_frames libm steps w)) = gl w
      /\ trace (snd (render_frames libm steps w)) = trace w ++ idle
      /\ Forall idle_event idle.
Proof.
  induction steps as [|i rest IH]; intros w Hs.
  - exists []. simpl. rewrite app_nil_r. repeat split; constructor.
  - destruct Hs as [Hp Hrest].
    change (render_frames libm (i :: rest) w)
      with (match window_should_close (interfere i w) with
            | (Ret true, w1) => (Ret tt, w1)
            | (Ret false, w1) =>
                match loop_body libm w1 with
                | (Ret _, w2) => render_frames libm rest w2
                | (Raise x, w2) => (Raise x, w2)
                | (Beyond, w2) => (Beyond, w2)
                end
            | (Raise x, w1) => (Raise x, w1)
            | (Beyond, w1) => (Beyond, w1)
            end).
    set (w1 := interfere i w). unfold window_should_close.
    assert (Hsh1 : shared w1 = on_shared i (shared w)) by reflexivity.
    assert (Hgl1 : gl w1 = gl w) by reflexivity.
    assert (Htr1 : trace w1 = trace w) by reflexivity.
    clearbody w1.
    destruct (close_requested w1).
    + exists []. simpl. rewrite app_nil_r, Hgl1, Htr1.
      repeat split; constructor.
    + rewrite loop_body_paused by (rewrite Hsh1; exact Hp).
      set (w2 := log (EvSleep 0.01) (with_clock (clock w1 + 0.01)%float (log EvPoll w1))).
      assert (Hsh2 : shared w2 = shared w1) by reflexivity.
      assert (Hgl2 : gl w2 = gl w1) by reflexivity.
      assert (Htr2 : trace w2 = trace w1 ++ [EvPoll; EvSleep 0.01])
        by (unfold w2; simpl; now rewrite <- app_assoc).
      clearbody w2.
      destruct (IH w2) as (idle & Hret & Hgl & Htr & Hidle).
      { rewrite Hsh2, Hsh1. exact Hrest. }
      exists ([EvPoll; EvSleep 0.01] ++ idle).
      rewrite Hret, Hgl, Htr, Hgl2, Hgl1, Htr2, Htr1, <- app_assoc.
      repeat split.
      simpl. constructor; [left; reflexivity|].
      constructor; [right; eexists; reflexivity | exact Hidle].
Qed.

(** C8. An iteration that reads [paused] as true polls the events,
    sleeps 10 ms and does nothing else: no [safe_eval], no matrix, no
    [glClear], no draw, no [swap_buffers]; the GL state and the control
    state are untouched.  And through any run of iterations during which
    the pause box stays ticked, however far the clock advances and
    whatever else the control surface changes, the trace gains only polls
    and sleeps and the frame on screen stays the one it was. *)
Theorem paused_iteration_idles (libm : Libm) (w : World)
        (steps : list Interference) :
  (paused (shared w) = true ->
   fst (loop_body libm w) = Ret tt
   /\ trace (snd (loop_body libm w)) = trace w ++ [EvPoll; EvSleep 0.01]
   /\ gl (snd (loop_body libm w)) = gl w
   /\ shared (snd (loop_body libm w)) = shared w
   /\ clock (snd (loop_body libm w)) = (clock w + 0.01)%float)
  /\ (stays_paused steps (shared w) ->
      exists idle,
        fst (render_frames libm steps w) = Ret tt
        /\ trace (snd (render_frames libm steps w)) = trace w ++ idle
        /\ Forall idle_event idle
        /\ (forall expr t, ~ In (EvEval expr t) idle)
        /\ gl (snd (render_frames libm steps w)) = gl w
        /\ front (gl (snd (render_frames libm steps w))) = front (gl w)).
Proof.
  split.
  - intro Hp. rewrite loop_body_paused by exact Hp. simpl.
    rewrite <- app_assoc. repeat split.
  - intro Hs.
    destruct (render_frames_paused libm steps w Hs) as (idle & Hret & Hgl & Htr & Hidle).
    exists idle. repeat split; try assumption.
    + intros expr t Hin.
      rewrite Forall_forall in Hidle. destruct (Hidle _ Hin) as [H|[s H]];
        discriminate H.
    + now rewrite Hgl.
Qed.

(** A paused world showing a one-draw frame, an hour passing in two
    interferences, the second of which also retypes a formula. *)
Lemma paused_iteration_idles_witness :
  let g := {| uTransform := identity4; uColor := (0, 0, 0)%float;
              array_buffer := None; back := [];
              front := [{| d_buffer := Some VboVec; d_count := 6;
                           d_transform := identity4;
                           d_color := (1, 0, 0)%float |}] |} in
  let w := paused_world g 100 in
  let retype (s : Shared) :=
      {| a_expr := "t"; b_expr := b_expr s; c_expr := c_expr s;
         d_expr := d_expr s; a_scale := a_scale s; b_scale := b_scale s;
         c_scale := c_scale s; d_scale := d_scale s; paused := paused s;
         show_grid := show_grid s; show_arrow := show_arrow s; t0 := t0 s |} in
  let steps := [ {| on_shared := fun s => s; elapsed := 1800; asks_close := false |};
                 {| on_shared := retype; elapsed := 1800; asks_close := false |} ] in
  paused (shared w) = true
  /\ stays_paused steps (shared w)
  /\ trace (snd (loop_body crude_libm w)) = [EvPoll; EvSleep 0.01]
  /\ front (gl (snd (render_frames crude_libm steps w))) = front g.
Proof.
  intros g w retype steps.
  assert (Hp : paused (shared w) = true) by reflexivity.
  assert (Hs : stays_paused steps (shared w)) by (simpl; auto).
  split; [exact Hp|]. split; [exact Hs|].
  destruct (paused_iteration_idles crude_libm w steps) as [H1 H2].
  split.
  - apply H1. exact Hp.
  - destruct (H2 Hs) as (idle & _ & _ & _ & _ & _ & Hfront). exact Hfront.
Defined.

(* ================================================================== *)
(** * The frame transform *)

(** C4, amended. The matrix built each frame has [[a, b], [c, d]] as its top-left
    block, held in the array's float32, and the third and fourth rows and
    columns of the identity; entries that float32 represents are stored
    as they are, so [matrix_M 1 0 0 1] is the identity.  In a running
    iteration the four numbers are the values [safe_eval] returns for the
    four formulas at [t = time.time() - t0], each times its scale factor
    and nothing more, and that matrix is what the iteration uploads. *)
Theorem frame_matrix (libm : Libm) (w : World) (a b c d va vb vc vd : float)
        (s1 s2 s3 s4 : popped) :
  matrix_M a b c d
  = [[float32 a; float32 b; 0; 0]; [float32 c; float32 d; 0; 0];
     [0; 0; 1; 0]; [0; 0; 0; 1]]%float
  /\ (float32 a = a -> float32 b = b -> float32 c = c -> float32 d = d ->
      matrix_M a b c d
      = [[a; b; 0; 0]; [c; d; 0; 0]; [0; 0; 1; 0]; [0; 0; 0; 1]]%float)
  /\ matrix_M 1 0 0 1 = identity4
  /\ (paused (shared w) = false ->
      let t := (clock w - t0 (shared w))%float in
      safe_eval libm (clock w) t (a_expr (shared w)) (math_popped w)
      = (Ret va, s1) ->
      safe_eval libm (clock w) t (b_expr (shared w)) s1 = (Ret vb, s2) ->
      safe_eval libm (clock w) t (c_expr (shared w)) s2 = (Ret vc, s3) ->
      safe_eval libm (clock w) t (d_expr (shared w)) s3 = (Ret vd, s4) ->
      let M := matrix_M (va * a_scale (shared w)) (vb * b_scale (shared w))
                        (vc * c_scale (shared w)) (vd * d_scale (shared w)) in
      fst (loop_body libm w) = Ret tt
      /\ In (EvUniformMatrix4fv false (ravel M)) (trace (snd (loop_body libm w)))
      /\ ravel (uTransform (gl (snd (loop_body libm w)))) = ravel M).
Proof.
  split; [reflexivity|]. split.
  { intros Ha Hb Hc Hd. unfold matrix_M. simpl. now rewrite Ha, Hb, Hc, Hd. }
  split; [reflexivity|].
  intros Hp t Ha Hb Hc Hd M.
  destruct (loop_body_running libm w va vb vc vd s1 s2 s3 s4 Hp Ha Hb Hc Hd)
    as (w' & Hrun & _ & _ & _ & Hu & _ & Htr).
  rewrite Hrun. simpl. split; [reflexivity|]. split.
  - rewrite Htr. apply in_or_app. right. simpl. auto 10.
  - rewrite Hu. reflexivity.
Qed.

(** The first frame of the default controls with the crude library, and
    the matrix of 1, 0, 0, 1. *)
Lemma frame_matrix_witness :
  let w := initial_world 0 in
  paused (shared w) = false
  /\ safe_eval crude_libm 0 0 "math.cos(t)" [] = (Ret 1%float, [])
  /\ safe_eval crude_libm 0 0 "math.sin(t)" [] = (Ret 0%float, [])
  /\ safe_eval crude_libm 0 0 "-math.sin(t)" [] = (Ret (-0)%float, [])
  /\ float32 1 = 1%float /\ float32 0 = 0%float
  /\ matrix_M 1 0 0 1
     = [[1; 0; 0; 0]; [0; 1; 0; 0]; [0; 0; 1; 0]; [0; 0; 0; 1]]%float
  /\ In (EvUniformMatrix4fv false
           (ravel (matrix_M (1 * 1) (0 * 1) (-0 * 1) (1 * 1))))
        (trace (snd (loop_body crude_libm w))).
Proof.
  intro w.
  assert (Hp : paused (shared w) = false) by reflexivity.
  assert (Ha : safe_eval crude_libm 0 0 "math.cos(t)" [] = (Ret 1%float, []))
    by reflexivity.
  assert (Hb : safe_eval crude_libm 0 0 "math.sin(t)" [] = (Ret 0%float, []))
    by reflexivity.
  assert (Hc : safe_eval crude_libm 0 0 "-math.sin(t)" [] = (Ret (-0)%float, []))
    by reflexivity.
  assert (H1 : float32 1 = 1%float) by reflexivity.
  assert (H0 : float32 0 = 0%float) by reflexivity.
  pose proof (frame_matrix crude_libm w 1 0 0 1 1 0 (-0) 1 [] [] [] [])
    as (_ & Hexact & _ & Hrun).
  repeat (split; [assumption|]). split.
  - exact (Hexact H1 H0 H0 H1).
  - exact (proj1 (proj2 (Hrun Hp Ha Hb Hc Ha))).
Defined.

(** The array is float32: [matrix_M 0.1 0 0 1] holds the float32 nearest
    to 0.1, which is not 0.1. *)
Lemma matrix_M_rounds :
  matrix_M 0.1 0 0 1
  = [[0.10000000149011612; 0; 0; 0]; [0; 1; 0; 0];
     [0; 0; 1; 0]; [0; 0; 0; 1]]%float
  /\ float32 0.1 = 0.10000000149011612%float
  /\ feq 0.10000000149011612 0.1 = false
  /\ all_feq (ravel (matrix_M 0.1 0 0 1))
             [0.1; 0; 0; 0; 0; 1; 0; 0; 0; 0; 1; 0; 0; 0; 0; 1]%float = false.
Proof. repeat split; vm_compute; reflexivity. Qed.



(** With the four formulas typed as the bare names [cos(t)], [sin(t)],
    [-sin(t)], [cos(t)] and all scales 1.0, the transform uploaded at
    [t = 0] has a zero 2x2 block: it is not the identity. *)
Lemma bare_transform_is_zero :
  fst (loop_body crude_libm (bare_world 0)) = Ret tt
  /\ ravel (uTransform (gl (snd (loop_body crude_libm (bare_world 0)))))
     = [0; 0; 0; 0; 0; 0; 0; 0; 0; 0; 1; 0; 0; 0; 0; 1]%float
  /\ all_feq (ravel (uTransform (gl (snd (loop_body crude_libm (bare_world 0))))))
             (ravel identity4) = false.
Proof. repeat split; vm_compute; reflexivity. Qed.

Ltac default_fields Hs :=
  rewrite Hs; unfold initial_shared;
  cbn [a_expr b_expr c_expr d_expr a_scale b_scale c_scale d_scale paused t0].

Lemma default_frame (libm : Libm) (w : World) (origin va vb : float) :
  shared w = initial_shared origin ->
  math_popped w = [] ->
  let t := (clock w - origin)%float in
  math_1 (m_cos libm) t = Ret va ->
  math_1 (m_sin libm) t = Ret vb ->
  fst (loop_body libm w) = Ret tt
  /\ ravel (uTransform (gl (snd (loop_body libm w))))
     = ravel (matrix_M (va * 1) (vb * 1) (- vb * 1) (va * 1)).
Proof.
  intros Hs Hst t Hcos Hsin.
  destruct (loop_body_running libm w va vb (- vb)%float va [] [] [] [])
    as (w' & Hrun & _ & _ & _ & Hu & _ & _).
  - default_fields Hs. reflexivity.
  - default_fields Hs. fold t.
    rewrite Hst, safe_eval_math_cos, Hcos by reflexivity. reflexivity.
  - default_fields Hs. fold t.
    rewrite safe_eval_math_sin, Hsin by reflexivity. reflexivity.
  - default_fields Hs. fold t.
    rewrite safe_eval_neg_math_sin, Hsin by reflexivity. reflexivity.
  - default_fields Hs. fold t.
    rewrite safe_eval_math_cos, Hcos by reflexivity. reflexivity.
  - rewrite Hrun. simpl fst. simpl snd. split; [reflexivity|].
    rewrite Hu. default_fields Hs. reflexivity.
Qed.

Lemma safe_eval_unbound_call (libm : Libm) (wall t : float) (st : popped) :
  safe_eval libm wall t "cos(t)" st = (Ret 0%float, st)
  /\ safe_eval libm wall t "sin(t)" st = (Ret 0%float, st)
  /\ safe_eval libm wall t "-sin(t)" st = (Ret 0%float, st).
Proof. repeat split. Qed.

Lemma bare_frame (libm : Libm) (w : World) (origin : float) :
  shared w = bare_shared origin ->
  fst (loop_body libm w) = Ret tt
  /\ ravel (uTransform (gl (snd (loop_body libm w))))
     = [0; 0; 0; 0; 0; 0; 0; 0; 0; 0; 1; 0; 0; 0; 0; 1]%float.
Proof.
  intro Hs.
  pose proof (fun t st => safe_eval_unbound_call libm (clock w) t st)
    as Hbare.
  destruct (loop_body_running libm w 0 0 0 0 (math_popped w) (math_popped w)
              (math_popped w) (math_popped w))
    as (w' & Hrun & _ & _ & _ & Hu & _ & _).
  - rewrite Hs. reflexivity.
  - rewrite Hs. apply Hbare.
  - rewrite Hs. apply Hbare.
  - rewrite Hs. apply Hbare.
  - rewrite Hs. apply Hbare.
  - rewrite Hrun. simpl fst. simpl snd. split; [reflexivity|].
    rewrite Hu, Hs. reflexivity.
Qed.

(** C3, amended. With the formulas the control panel starts from,
    [math.cos(t)], [math.sin(t)], [-math.sin(t)], [math.cos(t)], and all
    scales 1.0, the 16 floats a running iteration uploads are, at [t = 0]
    and for a C library with [cos 0 = 1] and [sin 0 = 0], those of the
    identity (with [c = -0.0], which [==] 0.0); and at [t = pi/2], for a
    C library within one ulp of the correctly rounded cosine and sine
    there, [a] and [d] within 1e-6 of 0, [b] of 1 and [c] of -1.  With
    the bare names [cos(t)], [sin(t)], [-sin(t)], [cos(t)] instead, and
    all scales 1.0, a running iteration uploads a zero 2x2 block at
    every [t], with every C library and whatever was evaluated before:
    each of the four is a [NameError] that [safe_eval] turns into 0.0. *)
Theorem default_transform (libm : Libm) (w : World) (origin : float) :
  shared w = initial_shared origin ->
  math_popped w = [] ->
  ((clock w - origin)%float = 0%float ->
   m_cos libm 0 = 1%float -> m_sin libm 0 = 0%float ->
   fst (loop_body libm w) = Ret tt
   /\ ravel (uTransform (gl (snd (loop_body libm w))))
      = [1; 0; 0; 0; -0; 1; 0; 0; 0; 0; 1; 0; 0; 0; 0; 1]%float
   /\ all_feq (ravel (uTransform (gl (snd (loop_body libm w)))))
              (ravel identity4) = true)
  /\ ((clock w - origin)%float = halfpi ->
      within_ulp (m_cos libm halfpi) cos_halfpi ->
      within_ulp (m_sin libm halfpi) 1 ->
      fst (loop_body libm w) = Ret tt
      /\ exists a b c d,
          ravel (uTransform (gl (snd (loop_body libm w))))
          = [a; b; 0; 0; c; d; 0; 0; 0; 0; 1; 0; 0; 0; 0; 1]%float
          /\ close_to 1e-6 a 0 = true
          /\ close_to 1e-6 b 1 = true
          /\ close_to 1e-6 c (-1) = true
          /\ close_to 1e-6 d 0 = true)
  /\ (forall (wb : World) (ob : float),
        shared wb = bare_shared ob ->
        (forall t st,
            safe_eval libm (clock wb) t "cos(t)" st = (Ret 0%float, st)
            /\ safe_eval libm (clock wb) t "sin(t)" st = (Ret 0%float, st)
            /\ safe_eval libm (clock wb) t "-sin(t)" st = (Ret 0%float, st))
        /\ fst (loop_body libm wb) = Ret tt
        /\ ravel (uTransform (gl (snd (loop_body libm wb))))
           = [0; 0; 0; 0; 0; 0; 0; 0; 0; 0; 1; 0; 0; 0; 0; 1]%float
        /\ all_feq (ravel (uTransform (gl (snd (loop_body libm wb)))))
                   (ravel identity4) = false).
Proof.
  intros Hs Hst. split; [|split].
  - intros Ht Hc0 Hs0.
    destruct (default_frame libm w origin 1 0 Hs Hst) as [Hret Hu].
    + rewrite Ht. unfold math_1. rewrite Hc0. reflexivity.
    + rewrite Ht. unfold math_1. rewrite Hs0. reflexivity.
    + split; [exact Hret|]. rewrite Hu. split; reflexivity.
  - intros Ht Hc Hsn.
    assert (Hcase : forall va vb,
               In va [next_down cos_halfpi; cos_halfpi; next_up cos_halfpi] ->
               In vb [next_down 1; 1; next_up 1]%float ->
               (forall f, f halfpi = va -> math_1 f halfpi = Ret va)
               /\ (forall f, f halfpi = vb -> math_1 f halfpi = Ret vb)
               /\ close_to 1e-6 (float32 (va * 1)) 0 = true
               /\ close_to 1e-6 (float32 (vb * 1)) 1 = true
               /\ close_to 1e-6 (float32 (- vb * 1)) (-1) = true).
    { intros va vb Ha Hb. simpl in Ha, Hb.
      destruct Ha as [<-|[<-|[<-|[]]]]; destruct Hb as [<-|[<-|[<-|[]]]];
        repeat split;
        try (intros f Hf; unfold math_1; rewrite Hf);
        vm_compute; reflexivity. }
    destruct (Hcase _ _ Hc Hsn) as (Hm1 & Hm2 & Ka & Kb & Kc).
    destruct (default_frame libm w origin (m_cos libm halfpi) (m_sin libm halfpi)
                Hs Hst)
      as [Hret Hu].
    + rewrite Ht. apply Hm1. reflexivity.
    + rewrite Ht. apply Hm2. reflexivity.
    + split; [exact Hret|].
      do 4 eexists. split; [rewrite Hu; reflexivity|]. auto.
  - intros wb ob Hb.
    split; [intros t st; apply safe_eval_unbound_call|].
    destruct (bare_frame libm wb ob Hb) as [Hret Hu].
    split; [exact Hret|]. split; [exact Hu|]. rewrite Hu. reflexivity.
Qed.

(** The first frame of the default controls ([t = 0]) and a frame a
    quarter turn later ([t = pi/2]), with the crude library; and a frame
    of the bare names two and a half seconds in. *)
Lemma default_transform_witness :
  let w0 := initial_world 0 in
  let w1 := with_clock halfpi (initial_world 0) in
  let wb := with_clock 2.5 (bare_world 0) in
  shared w0 = initial_shared 0
  /\ math_popped w0 = [] /\ math_popped w1 = []
  /\ (clock w0 - 0)%float = 0%float
  /\ m_cos crude_libm 0 = 1%float
  /\ m_sin crude_libm 0 = 0%float
  /\ all_feq (ravel (uTransform (gl (snd (loop_body crude_libm w0)))))
             (ravel identity4) = true
  /\ shared w1 = initial_shared 0
  /\ (clock w1 - 0)%float = halfpi
  /\ within_ulp (m_cos crude_libm halfpi) cos_halfpi
  /\ within_ulp (m_sin crude_libm halfpi) 1
  /\ fst (loop_body crude_libm w1) = Ret tt
  /\ shared wb = bare_shared 0
  /\ ravel (uTransform (gl (snd (loop_body crude_libm wb))))
     = [0; 0; 0; 0; 0; 0; 0; 0; 0; 0; 1; 0; 0; 0; 0; 1]%float.
Proof.
  intros w0 w1 wb.
  assert (Hs0 : shared w0 = initial_shared 0) by reflexivity.
  assert (Hp0 : math_popped w0 = []) by reflexivity.
  assert (Hp1 : math_popped w1 = []) by reflexivity.
  assert (Ht0 : (clock w0 - 0)%float = 0%float) by reflexivity.
  assert (Hc0 : m_cos crude_libm 0 = 1%float) by reflexivity.
  assert (Hn0 : m_sin crude_libm 0 = 0%float) by reflexivity.
  assert (Hs1 : shared w1 = initial_shared 0) by reflexivity.
  assert (Ht1 : (clock w1 - 0)%float = halfpi) by reflexivity.
  assert (Hc1 : within_ulp (m_cos crude_libm halfpi) cos_halfpi)
    by (right; left; reflexivity).
  assert (Hn1 : within_ulp (m_sin crude_libm halfpi) 1)
    by (right; left; reflexivity).
  assert (Hsb : shared wb = bare_shared 0) by reflexivity.
  repeat (split; [assumption|]). split; [|repeat (split; [assumption|])].
  - exact (proj2 (proj2 (proj1 (default_transform crude_libm w0 0 Hs0 Hp0)
                                Ht0 Hc0 Hn0))).
  - split.
    + exact (proj1 (proj1 (proj2 (default_transform crude_libm w1 0 Hs1 Hp1))
                      Ht1 Hc1 Hn1)).
    + split; [assumption|].
      exact (proj1 (proj2 (proj2 (proj2 (proj2
               (default_transform crude_libm w0 0 Hs0 Hp0)) wb 0%float Hsb)))).
Defined.

Import Shader RenderThread ThreadProps.

(* ================================================================== *)
(** * Shader objects: proofs *)

Lemma compile_shader_run (drv : Driver) (src : string) (ty : shader_type)
      (o : Objects) :
  compile_shader drv src ty o
  = (let r := glsl_compile drv ty src in
     if fst r then Done (next_name o)
     else if utf8_valid (snd r) then Raised (RuntimeError (snd r))
     else Raised UnicodeDecodeError,
     {| next_name := (next_name o + 1)%Z;
        shader_objs :=
          (next_name o,
           {| sh_type := ty; sh_source := src;
              sh_compiled := fst (glsl_compile drv ty src);
              sh_info := snd (glsl_compile drv ty src);
              sh_flagged := false |}) :: shader_objs o;
        program_objs := program_objs o |}).
Proof.
  unfold compile_shader, and_then, glCreateShader, glShaderSource,
    glCompileShader, glGetShaderiv, glGetShaderInfoLog, on_shader, modify,
    with_shaders, decode, done, throw.
  repeat (cbn [shader_objs lookup update next_name program_objs sh_type
                sh_source sh_compiled sh_info sh_flagged];
          rewrite ?Z.eqb_refl).
  destruct (glsl_compile drv ty src) as [ok info]. cbn [fst snd negb].
  destruct ok; cbn [negb]; [reflexivity|].
  repeat (cbn [shader_objs lookup update next_name program_objs sh_type
                sh_source sh_compiled sh_info sh_flagged];
          rewrite ?Z.eqb_refl).
  destruct (utf8_valid info); reflexivity.
Qed.

Lemma make_program_run (drv : Driver) (vs_src fs_src : string) (o : Objects) :
  let n := next_name o in
  let cv := glsl_compile drv GL_VERTEX_SHADER vs_src in
  let cf := glsl_compile drv GL_FRAGMENT_SHADER fs_src in
  let vs := compiled_object drv GL_VERTEX_SHADER vs_src in
  let fs := compiled_object drv GL_FRAGMENT_SHADER fs_src in
  make_program drv vs_src fs_src o
  = if fst cv then
      if fst cf then
        (Done (n + 2)%Z,
         {| next_name := (n + 3)%Z;
            shader_objs := ((n + 1)%Z, fs true) :: (n, vs true) :: shader_objs o;
            program_objs :=
              ((n + 2)%Z, {| pr_attached := [n; (n + 1)%Z];
                         pr_linked := glsl_link drv [vs false; fs false] |})
              :: program_objs o |})
      else
        (Raised (compile_error (snd cf)),
         {| next_name := (n + 2)%Z;
            shader_objs := ((n + 1)%Z, fs false) :: (n, vs false) :: shader_objs o;
            program_objs := program_objs o |})
    else
      (Raised (compile_error (snd cv)),
       {| next_name := (n + 1)%Z;
          shader_objs := (n, vs false) :: shader_objs o;
          program_objs := program_objs o |}).
Proof.
  intros n cv cf vs fs.
  assert (Hn1 : (n + 1 =? n)%Z = false) by (apply Z.eqb_neq; lia).
  assert (Hn2 : (n =? n + 1)%Z = false) by (apply Z.eqb_neq; lia).
  unfold make_program, and_then at 1.
  rewrite compile_shader_run. fold n cv. cbv zeta.
  destruct (fst cv) eqn:Hv.
  2:{ unfold compile_error, vs, compiled_object. fold cv. rewrite Hv.
      destruct (utf8_valid (snd cv)); reflexivity. }
  unfold and_then at 1. rewrite compile_shader_run.
  cbn [next_name]. fold cf.
  destruct (fst cf) eqn:Hf.
  2:{ unfold compile_error, vs, fs, compiled_object. fold cv cf.
      rewrite Hv, Hf. replace (n + 1 + 1)%Z with (n + 2)%Z by lia.
      destruct (utf8_valid (snd cf)); reflexivity. }
  unfold and_then, glCreateProgram, glAttachShader, glLinkProgram,
    glDeleteShader, on_program, on_shader, modify, with_programs,
    with_shaders, is_attached, attached_objects, done.
  repeat (cbn [shader_objs program_objs next_name lookup update pr_attached
               pr_linked app flat_map existsb snd fst orb];
          rewrite ?Z.eqb_refl, ?Hn1, ?Hn2).
  unfold vs, fs, compiled_object. fold cv cf. rewrite Hv, Hf.
  replace (n + 1 + 1)%Z with (n + 2)%Z by lia.
  replace (n + 2 + 1)%Z with (n + 3)%Z by lia.
  reflexivity.
Qed.

Lemma lookup_other {A : Type} (k n : Z) (v : A) (l : list (Z * A)) :
  k <> n -> lookup k ((n, v) :: l) = lookup k l.
Proof.
  intro H. cbn [lookup].
  destruct (Z.eqb_spec n k) as [->|_]; [contradiction|reflexivity].
Qed.

Lemma lookup_head {A : Type} (n : Z) (v : A) (l : list (Z * A)) :
  lookup n ((n, v) :: l) = Some v.
Proof. cbn [lookup]. now rewrite Z.eqb_refl. Qed.

(** X2. [compile_shader] returns the new shader's name when the driver
    accepts the source and raises [RuntimeError] with the driver's info
    log when it does not ([UnicodeDecodeError] if the log is not UTF-8).
    Either way the context holds one more shader object, under a new
    name, with the source and the compile result, not flagged for
    deletion: a shader that failed to compile is left behind.  Every
    other object is as it was. *)
Theorem compile_shader_reports (drv : Driver) (src : string)
        (ty : shader_type) (o : Objects) :
  let n := next_name o in
  let r := compile_shader drv src ty o in
  let c := glsl_compile drv ty src in
  fst r = (if fst c then Done n else Raised (compile_error (snd c)))
  /\ lookup n (shader_objs (snd r)) = Some (compiled_object drv ty src false)
  /\ (forall k, k <> n ->
        lookup k (shader_objs (snd r)) = lookup k (shader_objs o))
  /\ program_objs (snd r) = program_objs o
  /\ next_name (snd r) = (n + 1)%Z.
Proof.
  intros n r c. subst r. rewrite compile_shader_run. cbn [fst snd shader_objs
    program_objs next_name]. fold n c.
  split; [unfold compile_error; destruct (fst c), (utf8_valid (snd c)); reflexivity|].
  split; [apply lookup_head|].
  split; [intros k Hk; now apply lookup_other|].
  split; reflexivity.
Qed.

(** X3. [make_program] stops at the first shader the driver rejects and
    raises that shader's error.  When the vertex shader is rejected the
    fragment shader is never created; when the fragment shader is
    rejected the vertex shader, already compiled, stays in the context,
    neither deleted nor flagged.  No program object is created in
    either case. *)
Theorem make_program_stops_at_first_error (drv : Driver)
        (vs_src fs_src : string) (o : Objects) :
  let n := next_name o in
  let r := make_program drv vs_src fs_src o in
  let cv := glsl_compile drv GL_VERTEX_SHADER vs_src in
  let cf := glsl_compile drv GL_FRAGMENT_SHADER fs_src in
  (fst cv = false ->
   fst r = Raised (compile_error (snd cv))
   /\ shader_objs (snd r)
      = (n, compiled_object drv GL_VERTEX_SHADER vs_src false) :: shader_objs o
   /\ program_objs (snd r) = program_objs o)
  /\ (fst cv = true -> fst cf = false ->
      fst r = Raised (compile_error (snd cf))
      /\ shader_objs (snd r)
         = ((n + 1)%Z, compiled_object drv GL_FRAGMENT_SHADER fs_src false)
           :: (n, compiled_object drv GL_VERTEX_SHADER vs_src false)
           :: shader_objs o
      /\ sh_compiled (compiled_object drv GL_VERTEX_SHADER vs_src false) = true
      /\ is_attached n (snd r) = is_attached n o
      /\ program_objs (snd r) = program_objs o).
Proof.
  intros n r cv cf. subst r. rewrite make_program_run. fold n cv cf. cbv zeta.
  split.
  - intro Hv. rewrite Hv. repeat split.
  - intros Hv Hf. rewrite Hv, Hf. repeat split. exact Hv.
Qed.

(** X4. When the driver accepts both shaders, [make_program] returns a new
    program with the vertex and the fragment shader attached, in that
    order, and linked from them; both shaders are then flagged for
    deletion and live on attached to the program.  The link status is
    whatever the driver's linker said: [make_program] returns the
    program without looking at it.  Every older object is as it was. *)
Theorem make_program_returns_unchecked (drv : Driver)
        (vs_src fs_src : string) (o : Objects) :
  fst (glsl_compile drv GL_VERTEX_SHADER vs_src) = true ->
  fst (glsl_compile drv GL_FRAGMENT_SHADER fs_src) = true ->
  let n := next_name o in
  let r := make_program drv vs_src fs_src o in
  let vs := compiled_object drv GL_VERTEX_SHADER vs_src in
  let fs := compiled_object drv GL_FRAGMENT_SHADER fs_src in
  fst r = Done (n + 2)%Z
  /\ lookup (n + 2) (program_objs (snd r))
     = Some {| pr_attached := [n; (n + 1)%Z];
               pr_linked := glsl_link drv [vs false; fs false] |}
  /\ lookup n (shader_objs (snd r)) = Some (vs true)
  /\ lookup (n + 1) (shader_objs (snd r)) = Some (fs true)
  /\ is_attached n (snd r) = true
  /\ is_attached (n + 1) (snd r) = true
  /\ (forall k, (k < n)%Z ->
        lookup k (shader_objs (snd r)) = lookup k (shader_objs o)
        /\ lookup k (program_objs (snd r)) = lookup k (program_objs o)).
Proof.
  intros Hv Hf n r vs fs. subst r. rewrite make_program_run.
  fold n. rewrite Hv, Hf. cbn [fst snd shader_objs program_objs].
  fold vs fs.
  assert (Hn1 : (n + 1 =? n)%Z = false) by (apply Z.eqb_neq; lia).
  split; [reflexivity|].
  split; [apply lookup_head|].
  split; [rewrite lookup_other by lia; apply lookup_head|].
  split; [apply lookup_head|].
  split; [unfold is_attached; cbn; now rewrite Z.eqb_refl|].
  split; [unfold is_attached; cbn; now rewrite Z.eqb_refl, Hn1|].
  intros k Hk. split; rewrite !lookup_other by lia; reflexivity.
Qed.

(** A driver that accepts everything, on a context with no objects. *)
Lemma make_program_returns_unchecked_witness :
  let drv := {| glsl_compile := fun _ _ => (true, EmptyString);
                glsl_link := fun _ => false |} in
  fst (glsl_compile drv GL_VERTEX_SHADER VERTEX_SHADER) = true
  /\ fst (glsl_compile drv GL_FRAGMENT_SHADER FRAGMENT_SHADER) = true
  /\ fst (make_program drv VERTEX_SHADER FRAGMENT_SHADER no_objects) = Done 3%Z
  /\ lookup 3 (program_objs
                 (snd (make_program drv VERTEX_SHADER FRAGMENT_SHADER no_objects)))
     = Some {| pr_attached := [1; 2]%Z; pr_linked := false |}.
Proof.
  intro drv.
  assert (Hv : fst (glsl_compile drv GL_VERTEX_SHADER VERTEX_SHADER) = true)
    by reflexivity.
  assert (Hf : fst (glsl_compile drv GL_FRAGMENT_SHADER FRAGMENT_SHADER) = true)
    by reflexivity.
  split; [exact Hv|]. split; [exact Hf|].
  pose proof (make_program_returns_unchecked drv VERTEX_SHADER FRAGMENT_SHADER
                no_objects Hv Hf) as (Hret & Hprog & _).
  split; [exact Hret | exact Hprog].
Defined.

(** A driver that rejects the vertex shader, and one that rejects the
    fragment shader with a log that is not UTF-8. *)
Lemma make_program_stops_at_first_error_witness :
  let no_vs := {| glsl_compile := fun ty _ =>
                    match ty with
                    | GL_VERTEX_SHADER => (false, "0:1: syntax error"%string)
                    | GL_FRAGMENT_SHADER => (true, EmptyString)
                    end;
                  glsl_link := fun _ => true |} in
  let no_fs := {| glsl_compile := fun ty _ =>
                    match ty with
                    | GL_VERTEX_SHADER => (true, EmptyString)
                    | GL_FRAGMENT_SHADER =>
                        (false, String (ascii_of_N 255) EmptyString)
                    end;
                  glsl_link := fun _ => true |} in
  fst (glsl_compile no_vs GL_VERTEX_SHADER VERTEX_SHADER) = false
  /\ fst (make_program no_vs VERTEX_SHADER FRAGMENT_SHADER no_objects)
     = Raised (RuntimeError "0:1: syntax error")
  /\ fst (glsl_compile no_fs GL_VERTEX_SHADER VERTEX_SHADER) = true
  /\ fst (glsl_compile no_fs GL_FRAGMENT_SHADER FRAGMENT_SHADER) = false
  /\ fst (make_program no_fs VERTEX_SHADER FRAGMENT_SHADER no_objects)
     = Raised UnicodeDecodeError.
Proof.
  intros no_vs no_fs.
  assert (H1 : fst (glsl_compile no_vs GL_VERTEX_SHADER VERTEX_SHADER) = false)
    by reflexivity.
  assert (H2 : fst (glsl_compile no_fs GL_VERTEX_SHADER VERTEX_SHADER) = true)
    by reflexivity.
  assert (H3 : fst (glsl_compile no_fs GL_FRAGMENT_SHADER FRAGMENT_SHADER) = false)
    by reflexivity.
  split; [exact H1|]. split.
  - exact (proj1 (proj1 (make_program_stops_at_first_error no_vs VERTEX_SHADER
                           FRAGMENT_SHADER no_objects) H1)).
  - split; [exact H2|]. split; [exact H3|].
    exact (proj1 (proj2 (make_program_stops_at_first_error no_fs VERTEX_SHADER
                           FRAGMENT_SHADER no_objects) H2 H3)).
Defined.

(* ================================================================== *)
(** * What can end the loop *)

Lemma safe_eval_escapes (libm : Libm) (wall t : float) (expr : string)
      (st : popped) (x : exn) :
  fst (safe_eval libm wall t expr st) = Raise x -> is_Exception x = false.
Proof.
  unfold safe_eval.
  destruct (eval_float libm wall t expr st) as [[f|y|] st']; cbn [fst];
    [discriminate | | discriminate].
  destruct (is_Exception y) eqn:Hy; [discriminate|].
  intro H. inversion H. subst. exact Hy.
Qed.

Lemma only_escapes_bind {A B : Type} (m : M A) (k : A -> M B) :
  only_escapes m -> (forall a, only_escapes (k a)) -> only_escapes (mbind m k).
Proof.
  intros Hm Hk w x. unfold mbind. specialize (Hm w).
  destruct (m w) as [[a|y|] w']; simpl in *.
  - apply Hk.
  - intro H. inversion H. subst. now apply Hm.
  - discriminate.
Qed.

Lemma only_escapes_effect (f : World -> World) : only_escapes (effect f).
Proof. intros w x. discriminate. Qed.

Lemma only_escapes_mret {A : Type} (a : A) : only_escapes (mret a).
Proof. intros w x. discriminate. Qed.

Lemma only_escapes_get {A : Type} (field : Shared -> A) :
  only_escapes (shared_get field).
Proof. intros w x. discriminate. Qed.

Lemma only_escapes_time : only_escapes time_time.
Proof. intros w x. discriminate. Qed.

Lemma only_escapes_safe_eval (libm : Libm) (t : float) (expr : string) :
  only_escapes (call_safe_eval libm t expr).
Proof. intros w x. apply safe_eval_escapes. Qed.

Ltac only_escapes_step :=
  first
    [ apply only_escapes_bind; [ | intro ]
    | apply only_escapes_get
    | apply only_escapes_time
    | apply only_escapes_safe_eval
    | apply only_escapes_mret
    | apply only_escapes_effect
    | match goal with
      | |- only_escapes (if ?b then _ else _) => destruct b
      end ].

Lemma loop_body_escapes (libm : Libm) : only_escapes (loop_body libm).
Proof.
  unfold loop_body, poll_events, time_sleep, glClear,
    glUniformMatrix4fv, glUniform3f, glBindBuffer, glVertexAttribPointer,
    glEnableVertexAttribArray, glDrawArrays, swap_buffers.
  repeat only_escapes_step.
Qed.

Lemma render_frames_step (libm : Libm) (i : Interference)
      (rest : list Interference) (w : World) :
  render_frames libm (i :: rest) w
  = if close_requested (interfere i w) then (Ret tt, interfere i w)
    else match loop_body libm (interfere i w) with
         | (Ret _, w2) => render_frames libm rest w2
         | (Raise x, w2) => (Raise x, w2)
         | (Beyond, w2) => (Beyond, w2)
         end.
Proof.
  change (render_frames libm (i :: rest) w)
    with (match window_should_close (interfere i w) with
          | (Ret true, w1) => (Ret tt, w1)
          | (Ret false, w1) =>
              match loop_body libm w1 with
              | (Ret _, w2) => render_frames libm rest w2
              | (Raise x, w2) => (Raise x, w2)
              | (Beyond, w2) => (Beyond, w2)
              end
          | (Raise x, w1) => (Raise x, w1)
          | (Beyond, w1) => (Beyond, w1)
          end).
  unfold window_should_close.
  destruct (close_requested (interfere i w)); reflexivity.
Qed.

Lemma render_frames_escapes (libm : Libm) (steps : list Interference) :
  forall w x,
    fst (render_frames libm steps w) = Raise x -> is_Exception x = false.
Proof.
  induction steps as [|i rest IH]; intros w x.
  - discriminate.
  - rewrite render_frames_step.
    destruct (close_requested (interfere i w)); [discriminate|].
    pose proof (loop_body_escapes libm (interfere i w)) as Hb.
    destruct (loop_body libm (interfere i w)) as [[u|y|] w2]; simpl in *.
    + apply IH.
    + intro H. inversion H. subst. now apply Hb.
    + discriminate.
Qed.

(* ================================================================== *)
(** * Running iterations *)

(** A running iteration either gets four numbers from [safe_eval], or
    stops at the first formula that gives none, before anything is
    drawn. *)
Lemma loop_body_running_cases (libm : Libm) (w : World) :
  paused (shared w) = false ->
  let t := (clock w - t0 (shared w))%float in
  (exists va vb vc vd s1 s2 s3 s4,
      safe_eval libm (clock w) t (a_expr (shared w)) (math_popped w) = (Ret va, s1)
      /\ safe_eval libm (clock w) t (b_expr (shared w)) s1 = (Ret vb, s2)
      /\ safe_eval libm (clock w) t (c_expr (shared w)) s2 = (Ret vc, s3)
      /\ safe_eval libm (clock w) t (d_expr (shared w)) s3 = (Ret vd, s4))
  \/ (fst (loop_body libm w) <> Ret tt
      /\ gl (snd (loop_body libm w)) = gl w).
Proof.
  intros Hp t.
  destruct (safe_eval libm (clock w) t (a_expr (shared w)) (math_popped w))
    as [[va|x|] s1] eqn:Ha.
  2,3: right; destruct w as [sh ck cl g mp tr]; subst t; mstep_in Hp;
       mstep_in Ha; mstep; rewrite Hp, Ha; mstep;
       (split; [discriminate | reflexivity]).
  destruct (safe_eval libm (clock w) t (b_expr (shared w)) s1)
    as [[vb|x|] s2] eqn:Hb.
  2,3: right; destruct w as [sh ck cl g mp tr]; subst t; mstep_in Hp;
       mstep_in Ha; mstep_in Hb; mstep; rewrite Hp, Ha; mstep; rewrite Hb;
       mstep; (split; [discriminate | reflexivity]).
  destruct (safe_eval libm (clock w) t (c_expr (shared w)) s2)
    as [[vc|x|] s3] eqn:Hc.
  2,3: right; destruct w as [sh ck cl g mp tr]; subst t; mstep_in Hp;
       mstep_in Ha; mstep_in Hb; mstep_in Hc; mstep; rewrite Hp, Ha; mstep;
       rewrite Hb; mstep; rewrite Hc; mstep;
       (split; [discriminate | reflexivity]).
  destruct (safe_eval libm (clock w) t (d_expr (shared w)) s3)
    as [[vd|x|] s4] eqn:Hd.
  2,3: right; destruct w as [sh ck cl g mp tr]; subst t; mstep_in Hp;
       mstep_in Ha; mstep_in Hb; mstep_in Hc; mstep_in Hd; mstep;
       rewrite Hp, Ha; mstep; rewrite Hb; mstep; rewrite Hc; mstep;
       rewrite Hd; mstep; (split; [discriminate | reflexivity]).
  left. exists va, vb, vc, vd, s1, s2, s3, s4.
  repeat split; first [assumption | reflexivity].
Qed.

(* ================================================================== *)
(** * Arithmetic of the scale factors *)

Lemma zero_times_finite (s : float) :
  is_finite s = true -> (0 * s = 0 \/ 0 * s = -0)%float.
Proof.
  intro Hfin.
  assert (Hz : exists b, Prim2SF (0 * s) = S754_zero b).
  { rewrite FloatAxioms.mul_spec.
    unfold is_finite, is_nan, is_infinity in Hfin.
    rewrite !FloatAxioms.eqb_spec, FloatAxioms.abs_spec in Hfin.
    destruct (Prim2SF s) as [b|b| |b m ex]; cbn in Hfin |- *.
    - eexists. reflexivity.
    - destruct b; discriminate Hfin.
    - discriminate Hfin.
    - eexists. reflexivity. }
  destruct Hz as [b Hz].
  rewrite <- (FloatAxioms.SF2Prim_Prim2SF (0 * s)), Hz.
  destruct b; [right | left]; reflexivity.
Qed.

(* ================================================================== *)
(** * What a running iteration evaluates and shows *)

Lemma evals_app (l1 l2 : list event) : evals (l1 ++ l2) = evals l1 ++ evals l2.
Proof.
  induction l1 as [|ev l1 IH]; [reflexivity|].
  destruct ev; simpl; rewrite ?IH; reflexivity.
Qed.

Lemma evals_frame_events (libm : Libm) (s : Shared) :
  evals (frame_events libm s) = [].
Proof. unfold frame_events. destruct (show_grid s), (show_arrow s); reflexivity. Qed.

Lemma loop_body_completes (libm : Libm) (w : World) :
  paused (shared w) = false ->
  fst (loop_body libm w) = Ret tt ->
  let t := (clock w - t0 (shared w))%float in
  exists va vb vc vd s1 s2 s3 s4,
    safe_eval libm (clock w) t (a_expr (shared w)) (math_popped w) = (Ret va, s1)
    /\ safe_eval libm (clock w) t (b_expr (shared w)) s1 = (Ret vb, s2)
    /\ safe_eval libm (clock w) t (c_expr (shared w)) s2 = (Ret vc, s3)
    /\ safe_eval libm (clock w) t (d_expr (shared w)) s3 = (Ret vd, s4).
Proof.
  intros Hp Hret t.
  destruct (loop_body_running_cases libm w Hp) as [H|[Hne _]]; [exact H|].
  contradiction.
Qed.

Lemma loop_body_evals (libm : Libm) (w : World) :
  paused (shared w) = false ->
  fst (loop_body libm w) = Ret tt ->
  evals (trace (snd (loop_body libm w)))
  = evals (trace w)
    ++ four_evals (shared w) (clock w - t0 (shared w))%float.
Proof.
  intros Hp Hret.
  destruct (loop_body_completes libm w Hp Hret)
    as (va & vb & vc & vd & s1 & s2 & s3 & s4 & Ha & Hb & Hc & Hd).
  destruct (loop_body_running libm w va vb vc vd s1 s2 s3 s4 Hp Ha Hb Hc Hd)
    as (w' & Hrun & _ & _ & _ & _ & _ & Htr).
  rewrite Hrun. cbn [snd]. rewrite Htr, !evals_app, evals_frame_events.
  cbn [evals app]. reflexivity.
Qed.

(** X11. A running iteration that completes calls [safe_eval] exactly four
    times, on the formulas a, b, c, d in that order, all with the same
    [t]: the clock read once at the start of the iteration minus [t0]. *)
Theorem running_iteration_evaluates_abcd (libm : Libm) (w : World) :
  paused (shared w) = false ->
  fst (loop_body libm w) = Ret tt ->
  let s := shared w in
  let t := (clock w - t0 s)%float in
  evals (trace (snd (loop_body libm w)))
  = evals (trace w) ++ [(a_expr s, t); (b_expr s, t); (c_expr s, t); (d_expr s, t)].
Proof. intros Hp Hret s t. exact (loop_body_evals libm w Hp Hret). Qed.

(** The first frame of the default controls, five seconds in. *)
Lemma running_iteration_evaluates_abcd_witness :
  let w := with_clock 5 (initial_world 0) in
  paused (shared w) = false
  /\ fst (loop_body crude_libm w) = Ret tt
  /\ evals (trace (snd (loop_body crude_libm w)))
     = [("math.cos(t)"%string, 5%float); ("math.sin(t)"%string, 5%float);
        ("-math.sin(t)"%string, 5%float); ("math.cos(t)"%string, 5%float)].
Proof.
  intro w.
  assert (Hp : paused (shared w) = false) by reflexivity.
  assert (Hr : fst (loop_body crude_libm w) = Ret tt) by (vm_compute; reflexivity).
  split; [exact Hp|]. split; [exact Hr|].
  exact (running_iteration_evaluates_abcd crude_libm w Hp Hr).
Defined.

Lemma grid_vertex_count : (Z.of_nat (List.length grid) / 2 = 84)%Z.
Proof. vm_compute. reflexivity. Qed.

(** X12. The frame a completed running iteration puts on screen is drawn
    from scratch: the grid (84 vertices, grey) if [show_grid] is ticked,
    then the arrow (6 vertices, red) if [show_arrow] is, both under the
    transform uploaded in this iteration, and nothing of the frame that
    was there before. *)
Theorem running_iteration_presents (libm : Libm) (w : World) :
  paused (shared w) = false ->
  fst (loop_body libm w) = Ret tt ->
  let w' := snd (loop_body libm w) in
  let u := uTransform (gl w') in
  front (gl w')
  = (if show_grid (shared w)
     then [{| d_buffer := Some VboGrid; d_count := 84; d_transform := u;
              d_color := (0.5, 0.5, 0.5)%float |}]
     else [])
    ++ (if show_arrow (shared w)
        then [{| d_buffer := Some VboVec; d_count := 6; d_transform := u;
                 d_color := (1.0, 0.2, 0.2)%float |}]
        else []).
Proof.
  intros Hp Hret w' u. subst u w'.
  destruct (loop_body_completes libm w Hp Hret)
    as (va & vb & vc & vd & s1 & s2 & s3 & s4 & Ha & Hb & Hc & Hd).
  destruct (loop_body_running libm w va vb vc vd s1 s2 s3 s4 Hp Ha Hb Hc Hd)
    as (w' & Hrun & _ & _ & _ & Hu & Hfront & _).
  rewrite Hrun. cbn [snd]. rewrite Hfront, Hu. unfold frame_draws.
  rewrite grid_vertex_count. reflexivity.
Qed.

(** A frame of the default controls drawn over an older frame, with the
    arrow switched off. *)
Lemma running_iteration_presents_witness :
  let old := {| uTransform := identity4; uColor := (0, 0, 0)%float;
                array_buffer := None; back := [];
                front := [{| d_buffer := Some VboVec; d_count := 6;
                             d_transform := identity4;
                             d_color := (1, 0, 0)%float |}] |} in
  let s := initial_shared 0 in
  let w := {| shared :=
                {| a_expr := a_expr s; b_expr := b_expr s; c_expr := c_expr s;
                   d_expr := d_expr s; a_scale := 2; b_scale := b_scale s;
                   c_scale := c_scale s; d_scale := d_scale s;
                   paused := false; show_grid := true; show_arrow := false;
                   t0 := 0 |};
              clock := 0; close_requested := false; gl := old;
              math_popped := []; trace := [] |} in
  paused (shared w) = false
  /\ fst (loop_body crude_libm w) = Ret tt
  /\ front (gl (snd (loop_body crude_libm w)))
     = [{| d_buffer := Some VboGrid; d_count := 84;
           d_transform := [[2; 0; 0; 0]; [-0; 1; 0; 0]; [0; 0; 1; 0];
                           [0; 0; 0; 1]]%float;
           d_color := (0.5, 0.5, 0.5)%float |}].
Proof.
  intros old s w.
  assert (Hp : paused (shared w) = false) by reflexivity.
  assert (Hr : fst (loop_body crude_libm w) = Ret tt) by (vm_compute; reflexivity).
  split; [exact Hp|]. split; [exact Hr|].
  rewrite (running_iteration_presents crude_libm w Hp Hr).
  vm_compute. reflexivity.
Defined.

Lemma float32_signed_zero (x : float) :
  (x = 0 \/ x = -0)%float -> feq (float32 x) 0 = true.
Proof. intros [->| ->]; vm_compute; reflexivity. Qed.

(** X13. An entry whose formula evaluates to 0.0, as every formula that
    fails does, is uploaded as zero whatever finite scale factor the
    slider holds. *)
Theorem zero_formula_zero_entry (libm : Libm) (w : World)
        (va vb vc vd : float) (s1 s2 s3 s4 : popped) :
  paused (shared w) = false ->
  let t := (clock w - t0 (shared w))%float in
  safe_eval libm (clock w) t (a_expr (shared w)) (math_popped w) = (Ret va, s1) ->
  safe_eval libm (clock w) t (b_expr (shared w)) s1 = (Ret vb, s2) ->
  safe_eval libm (clock w) t (c_expr (shared w)) s2 = (Ret vc, s3) ->
  safe_eval libm (clock w) t (d_expr (shared w)) s3 = (Ret vd, s4) ->
  let buf := ravel (uTransform (gl (snd (loop_body libm w)))) in
  (va = 0%float -> is_finite (a_scale (shared w)) = true ->
   is_zero_entry (nth 0 buf 1%float))
  /\ (vb = 0%float -> is_finite (b_scale (shared w)) = true ->
      is_zero_entry (nth 1 buf 1%float))
  /\ (vc = 0%float -> is_finite (c_scale (shared w)) = true ->
      is_zero_entry (nth 4 buf 1%float))
  /\ (vd = 0%float -> is_finite (d_scale (shared w)) = true ->
      is_zero_entry (nth 5 buf 1%float)).
Proof.
  intros Hp t Ha Hb Hc Hd buf. subst buf.
  destruct (loop_body_running libm w va vb vc vd s1 s2 s3 s4 Hp Ha Hb Hc Hd)
    as (w' & Hrun & _ & _ & _ & Hu & _ & _).
  rewrite Hrun. cbn [snd]. rewrite Hu.
  change (ravel (uniform_of_buffer false
            (ravel (matrix_M (va * a_scale (shared w)) (vb * b_scale (shared w))
                             (vc * c_scale (shared w)) (vd * d_scale (shared w))))))
    with [float32 (va * a_scale (shared w)); float32 (vb * b_scale (shared w));
          0; 0;
          float32 (vc * c_scale (shared w)); float32 (vd * d_scale (shared w));
          0; 0; 0; 0; 1; 0; 0; 0; 0; 1]%float.
  cbn [nth]. unfold is_zero_entry.
  repeat split; intros -> Hfin;
    apply float32_signed_zero, zero_times_finite, Hfin.
Qed.

(** The bare-name formulas, which all fail, with the sliders at 2, -2,
    0.5 and 1. *)
Lemma zero_formula_zero_entry_witness :
  let s := bare_shared 0 in
  let w := {| shared :=
                {| a_expr := a_expr s; b_expr := b_expr s; c_expr := c_expr s;
                   d_expr := d_expr s; a_scale := 2; b_scale := -2;
                   c_scale := 0.5; d_scale := 1;
                   paused := false; show_grid := true; show_arrow := true;
                   t0 := 0 |};
              clock := 1; close_requested := false; gl := initial_gl;
              math_popped := []; trace := [] |} in
  let buf := ravel (uTransform (gl (snd (loop_body crude_libm w)))) in
  paused (shared w) = false
  /\ safe_eval crude_libm 1 1 "cos(t)" [] = (Ret 0%float, [])
  /\ safe_eval crude_libm 1 1 "sin(t)" [] = (Ret 0%float, [])
  /\ safe_eval crude_libm 1 1 "-sin(t)" [] = (Ret 0%float, [])
  /\ is_finite 2 = true /\ is_finite (-2) = true
  /\ is_finite 0.5 = true /\ is_finite 1 = true
  /\ is_zero_entry (nth 0 buf 1%float) /\ is_zero_entry (nth 1 buf 1%float)
  /\ is_zero_entry (nth 4 buf 1%float) /\ is_zero_entry (nth 5 buf 1%float).
Proof.
  intros s w buf.
  assert (Hp : paused (shared w) = false) by reflexivity.
  assert (Ha : safe_eval crude_libm 1 1 "cos(t)" [] = (Ret 0%float, []))
    by reflexivity.
  assert (Hb : safe_eval crude_libm 1 1 "sin(t)" [] = (Ret 0%float, []))
    by reflexivity.
  assert (Hc : safe_eval crude_libm 1 1 "-sin(t)" [] = (Ret 0%float, []))
    by reflexivity.
  assert (F1 : is_finite 2 = true) by reflexivity.
  assert (F2 : is_finite (-2) = true) by reflexivity.
  assert (F3 : is_finite 0.5 = true) by reflexivity.
  assert (F4 : is_finite 1 = true) by reflexivity.
  destruct (zero_formula_zero_entry crude_libm w 0 0 0 0 [] [] [] [] Hp Ha Hb Hc Ha)
    as (Za & Zb & Zc & Zd).
  do 8 (split; [assumption|]).
  split; [exact (Za eq_refl F1)|]. split; [exact (Zb eq_refl F2)|].
  split; [exact (Zc eq_refl F3) | exact (Zd eq_refl F4)].
Defined.

(* ================================================================== *)
(** * Time: reset and pause *)

(** X14. [reset_t] writes the clock into [t0] and touches nothing else, and
    the next running iteration evaluates the formulas at the time
    elapsed since that reset. *)
Theorem reset_t_restarts_time (libm : Libm) (w : World) (i : Interference) :
  let w1 := snd (reset_t w) in
  let w2 := interfere i w1 in
  fst (reset_t w) = Ret tt
  /\ t0 (shared w1) = clock w
  /\ same_controls (shared w) (shared w1)
  /\ gl w1 = gl w /\ clock w1 = clock w /\ trace w1 = trace w
  /\ math_popped w1 = math_popped w
  /\ (paused (shared w2) = false ->
      t0 (shared w2) = t0 (shared w1) ->
      fst (loop_body libm w2) = Ret tt ->
      evals (trace (snd (loop_body libm w2)))
      = evals (trace w)
        ++ four_evals (shared w2) (clock w + elapsed i - clock w)%float).
Proof.
  intros w1 w2.
  split; [reflexivity|]. split; [reflexivity|].
  split; [unfold same_controls; repeat split|].
  do 4 (split; [reflexivity|]).
  intros Hp Ht Hret. rewrite (loop_body_evals libm w2 Hp Hret), Ht.
  reflexivity.
Qed.

(** Reset at 100 s, a frame 2.5 s later: the formulas see [t = 2.5]. *)
Lemma reset_t_restarts_time_witness :
  let w := with_clock 100 (initial_world 0) in
  let i := {| on_shared := fun s => s; elapsed := 2.5; asks_close := false |} in
  let w2 := interfere i (snd (reset_t w)) in
  paused (shared w2) = false
  /\ t0 (shared w2) = t0 (shared (snd (reset_t w)))
  /\ fst (loop_body crude_libm w2) = Ret tt
  /\ evals (trace (snd (loop_body crude_libm w2)))
     = four_evals (initial_shared 100) 2.5.
Proof.
  intros w i w2.
  assert (Hp : paused (shared w2) = false) by reflexivity.
  assert (Ht : t0 (shared w2) = t0 (shared (snd (reset_t w)))) by reflexivity.
  assert (Hr : fst (loop_body crude_libm w2) = Ret tt) by (vm_compute; reflexivity).
  do 3 (split; [assumption|]).
  pose proof (reset_t_restarts_time crude_libm w i) as (_ & _ & _ & _ & _ & _ & _ & H).
  exact (H Hp Ht Hr).
Defined.

Lemma render_frames_idles (libm : Libm) (steps : list Interference) :
  forall w,
    close_requested w = false ->
    Forall (fun j => asks_close j = false) steps ->
    stays_paused steps (shared w) ->
    exists w',
      render_frames libm steps w = (Ret tt, w')
      /\ clock w' = clock_through steps (clock w)
      /\ close_requested w' = false
      /\ evals (trace w') = evals (trace w)
      /\ gl w' = gl w
      /\ math_popped w' = math_popped w.
Proof.
  induction steps as [|i rest IH]; intros w Hc Hno Hs.
  - exists w. repeat (split; try reflexivity). exact Hc.
  - destruct Hs as [Hp Hrest]. inversion Hno as [|? ? Hi Hno']; subst.
    rewrite render_frames_step.
    assert (Hc1 : close_requested (interfere i w) = false)
      by (cbn; rewrite Hc, Hi; reflexivity).
    rewrite Hc1.
    rewrite loop_body_paused by exact Hp.
    set (w2 := log (EvSleep 0.01)
                 (with_clock (clock (interfere i w) + 0.01)%float
                    (log EvPoll (interfere i w)))).
    destruct (IH w2) as (w' & Hrun & Hck & Hcl & Hev & Hgl & Hmp);
      [exact Hc1 | exact Hno' | exact Hrest |].
    exists w'. split; [exact Hrun|].
    split; [rewrite Hck; reflexivity|].
    split; [exact Hcl|].
    split; [rewrite Hev; unfold w2; cbn [trace log with_clock interfere
              with_close with_shared]; rewrite !evals_app; cbn [evals];
            now rewrite !app_nil_r|].
    split; [rewrite Hgl; reflexivity | rewrite Hmp; reflexivity].
Qed.

(** X15. Pausing freezes the picture, not the time: through any run of
    paused iterations the clock keeps advancing and nothing is
    evaluated, and the first iteration after the box is unticked
    evaluates the formulas at [t = clock - t0] with all of the pause
    counted in. *)
Theorem pause_does_not_stop_time (libm : Libm) (w : World)
        (steps : list Interference) (i : Interference) :
  close_requested w = false ->
  Forall (fun j => asks_close j = false) steps ->
  stays_paused steps (shared w) ->
  let w1 := snd (render_frames libm steps w) in
  let w2 := interfere i w1 in
  paused (shared w2) = false ->
  fst (loop_body libm w2) = Ret tt ->
  clock w2 = (clock_through steps (clock w) + elapsed i)%float
  /\ evals (trace w1) = evals (trace w)
  /\ evals (trace (snd (loop_body libm w2)))
     = evals (trace w)
       ++ four_evals (shared w2)
            (clock_through steps (clock w) + elapsed i - t0 (shared w2))%float.
Proof.
  intros Hc Hno Hs w1 w2 Hp Hret.
  destruct (render_frames_idles libm steps w Hc Hno Hs)
    as (w' & Hrun & Hck & _ & Hev & _ & _).
  assert (Hw1 : w1 = w') by (unfold w1; rewrite Hrun; reflexivity).
  assert (Hck2 : clock w2 = (clock_through steps (clock w) + elapsed i)%float)
    by (unfold w2; rewrite Hw1; cbn; rewrite Hck; reflexivity).
  split; [exact Hck2|]. split; [rewrite Hw1; exact Hev|].
  rewrite (loop_body_evals libm w2 Hp Hret), Hck2.
  unfold w2 at 1. cbn [trace interfere with_close with_clock with_shared].
  rewrite Hw1, Hev. reflexivity.
Qed.

(** Paused at 100 s for two iterations, an hour between them, then
    unticked. *)
Lemma pause_does_not_stop_time_witness :
  let w := paused_world initial_gl 100 in
  let wait := {| on_shared := fun s => s; elapsed := 1800;
                 asks_close := false |} in
  let untick (s : Shared) :=
      {| a_expr := a_expr s; b_expr := b_expr s; c_expr := c_expr s;
         d_expr := d_expr s; a_scale := a_scale s; b_scale := b_scale s;
         c_scale := c_scale s; d_scale := d_scale s; paused := false;
         show_grid := show_grid s; show_arrow := show_arrow s; t0 := t0 s |} in
  let resume := {| on_shared := untick; elapsed := 0; asks_close := false |} in
  let w2 := interfere resume (snd (render_frames crude_libm [wait; wait] w)) in
  close_requested w = false
  /\ Forall (fun j => asks_close j = false) [wait; wait]
  /\ stays_paused [wait; wait] (shared w)
  /\ paused (shared w2) = false
  /\ fst (loop_body crude_libm w2) = Ret tt
  /\ clock w2 = (100 + 1800 + 0.01 + 1800 + 0.01 + 0)%float.
Proof.
  intros w wait untick resume w2.
  assert (Hc : close_requested w = false) by reflexivity.
  assert (Hno : Forall (fun j => asks_close j = false) [wait; wait])
    by (repeat constructor).
  assert (Hs : stays_paused [wait; wait] (shared w)) by (simpl; auto).
  assert (Hp : paused (shared w2) = false) by reflexivity.
  assert (Hr : fst (loop_body crude_libm w2) = Ret tt) by (vm_compute; reflexivity).
  do 5 (split; [assumption|]).
  exact (proj1 (pause_does_not_stop_time crude_libm w [wait; wait] resume
                  Hc Hno Hs Hp Hr)).
Defined.

(* ================================================================== *)
(** * The render thread from start to end *)

Ltac rstep :=
  cbv beta iota zeta delta
    [render_loop and_then in_world in_objects glfw_init create_window
     make_context_current glUseProgram glGenBuffers glBufferData
     glGetUniformLocation glClearColor done throw
     time_sleep glBindBuffer effect log with_clock with_gl with_world
     with_objects
     world glfw_initialised glfw_terminated window context_current objects
     program_in_use buffer_names buffer_store clear_color
     shared clock close_requested gl math_popped trace
     uTransform uColor array_buffer back front new_context_gl
     glfw_init_ok create_window_ok driver
     lookup program_objs shader_objs next_name pr_linked pr_attached
     Z.eqb Pos.eqb negb fst snd].

Lemma make_program_fresh (drv : Driver) :
  fst (glsl_compile drv GL_VERTEX_SHADER VERTEX_SHADER) = true ->
  fst (glsl_compile drv GL_FRAGMENT_SHADER FRAGMENT_SHADER) = true ->
  make_program drv VERTEX_SHADER FRAGMENT_SHADER no_objects
  = (Done 3%Z,
     {| next_name := 4;
        shader_objs :=
          [(2%Z, compiled_object drv GL_FRAGMENT_SHADER FRAGMENT_SHADER true);
           (1%Z, compiled_object drv GL_VERTEX_SHADER VERTEX_SHADER true)];
        program_objs :=
          [(3%Z, {| pr_attached := [1; 2]%Z;
                    pr_linked :=
                      glsl_link drv
                        [compiled_object drv GL_VERTEX_SHADER VERTEX_SHADER false;
                         compiled_object drv GL_FRAGMENT_SHADER FRAGMENT_SHADER
                           false] |})] |}).
Proof.
  intros Hv Hf. rewrite make_program_run, Hv, Hf. reflexivity.
Qed.

Lemma render_loop_enters (libm : Libm) (platform : Platform)
      (steps : list Interference) (p : Process) :
  glfw_init_ok platform = true ->
  create_window_ok platform = true ->
  fst (glsl_compile (driver platform) GL_VERTEX_SHADER VERTEX_SHADER) = true ->
  fst (glsl_compile (driver platform) GL_FRAGMENT_SHADER FRAGMENT_SHADER) = true ->
  glsl_link (driver platform)
    [compiled_object (driver platform) GL_VERTEX_SHADER VERTEX_SHADER false;
     compiled_object (driver platform) GL_FRAGMENT_SHADER FRAGMENT_SHADER false]
  = true ->
  render_loop libm platform steps p
  = and_then (while_window_open libm steps) (fun _ => terminate)
      (loop_entry libm (driver platform) p).
Proof.
  destruct platform as [iok wok drv]. cbn [glfw_init_ok create_window_ok driver].
  intros -> -> Hv Hf Hl.
  destruct p as [w gi gt win cc o pu bn bs col].
  destruct w as [sh ck cl g mp tr].
  unfold loop_entry. rstep.
  rewrite (make_program_fresh drv Hv Hf). rstep. rewrite Hl.
  rewrite <- !app_assoc. reflexivity.
Qed.

(** X5. The statements of the loop raise nothing themselves, and of
    what a formula raises [safe_eval] absorbs every [Exception].  So
    when an iteration, or the loop under any schedule, ends with an
    exception, that exception is not an [Exception]; and there is one
    that does end them: the [SystemExit] of [sys.exit()].  Of runs in
    which a formula leaves the modelled operations nothing is said. *)
Theorem only_uncaught_exceptions_end_the_loop (libm : Libm)
        (steps : list Interference) (w : World) (x : exn) :
  (fst (loop_body libm w) = Raise x -> is_Exception x = false)
  /\ (fst (render_frames libm steps w) = Raise x -> is_Exception x = false)
  /\ fst (loop_body libm (quit_world (clock w))) = Raise SystemExit.
Proof.
  split; [apply loop_body_escapes|].
  split; [apply render_frames_escapes|].
  vm_compute. reflexivity.
Qed.

(** An iteration and a run that [sys.exit()] ends. *)
Lemma only_uncaught_exceptions_end_the_loop_witness :
  let tick := {| on_shared := fun s => s; elapsed := 0.016;
                 asks_close := false |} in
  fst (loop_body crude_libm (quit_world 0)) = Raise SystemExit
  /\ fst (render_frames crude_libm [tick; tick] (quit_world 0)) = Raise SystemExit
  /\ is_Exception SystemExit = false.
Proof.
  intro tick.
  assert (H1 : fst (loop_body crude_libm (quit_world 0)) = Raise SystemExit)
    by (vm_compute; reflexivity).
  assert (H2 : fst (render_frames crude_libm [tick; tick] (quit_world 0))
               = Raise SystemExit) by (vm_compute; reflexivity).
  pose proof (only_uncaught_exceptions_end_the_loop crude_libm [tick; tick]
                (quit_world 0) SystemExit) as (Hb & Hf & _).
  split; [exact H1|]. split; [exact H2|].
  exact (eq_trans (eq_sym (Hb H1)) (Hf H2)).
Defined.

(** X6. [render_loop] fails at startup in two ways.  If [glfw.init] fails
    it raises [Exception("GLFW init failed")] after its half second of
    sleep, with no window and no GL object created.  If the driver
    rejects a shader it raises [make_program]'s error from inside the
    setup: GLFW stays initialised and the window open, since
    [glfw.terminate] is not reached, and nothing is uploaded or
    drawn. *)
Theorem render_loop_startup_failures (libm : Libm) (platform : Platform)
        (steps : list Interference) (p : Process) :
  let r := render_loop libm platform steps p in
  let cv := glsl_compile (driver platform) GL_VERTEX_SHADER VERTEX_SHADER in
  let cf := glsl_compile (driver platform) GL_FRAGMENT_SHADER FRAGMENT_SHADER in
  (glfw_init_ok platform = false ->
   fst r = Raised (Exception "GLFW init failed")
   /\ world (snd r) = snd (time_sleep 0.5 (world p))
   /\ glfw_initialised (snd r) = false
   /\ glfw_terminated (snd r) = glfw_terminated p
   /\ window (snd r) = window p
   /\ objects (snd r) = objects p
   /\ buffer_store (snd r) = buffer_store p)
  /\ (glfw_init_ok platform = true ->
      create_window_ok platform = true ->
      fst cv && fst cf = false ->
      fst r = Raised (compile_error (if fst cv then snd cf else snd cv))
      /\ glfw_initialised (snd r) = true
      /\ glfw_terminated (snd r) = glfw_terminated p
      /\ window (snd r)
         = Some {| width := 800; height := 800;
                   title := "Matrix Sandbox (Tk Controls)" |}
      /\ program_objs (objects (snd r)) = []
      /\ program_in_use (snd r) = None
      /\ buffer_store (snd r) = []
      /\ trace (world (snd r)) = trace (world p) ++ [EvSleep 0.5]).
Proof.
  intros r cv cf. subst r cv cf.
  destruct platform as [iok wok drv]. cbn [glfw_init_ok create_window_ok driver].
  destruct p as [w gi gt win cc o pu bn bs col].
  destruct w as [sh ck cl g mp tr].
  split.
  - intros ->. rstep. repeat split.
  - intros -> -> Hc. rstep. rewrite make_program_run.
    cbn [next_name no_objects shader_objs program_objs].
    destruct (glsl_compile drv GL_VERTEX_SHADER VERTEX_SHADER) as [okv infov].
    destruct (glsl_compile drv GL_FRAGMENT_SHADER FRAGMENT_SHADER) as [okf infof].
    cbn [fst snd] in Hc |- *.
    destruct okv.
    + cbn [andb] in Hc. rewrite Hc. rstep. repeat split.
    + rstep. repeat split.
Qed.

(** A platform without GLFW, and one whose driver rejects the fragment
    shader. *)
Lemma render_loop_startup_failures_witness :
  let fine := {| glsl_compile := fun _ _ => (true, EmptyString);
                 glsl_link := fun _ => true |} in
  let picky := {| glsl_compile := fun ty _ =>
                    match ty with
                    | GL_VERTEX_SHADER => (true, EmptyString)
                    | GL_FRAGMENT_SHADER => (false, "0:4: undeclared"%string)
                    end;
                  glsl_link := fun _ => true |} in
  let headless := {| glfw_init_ok := false; create_window_ok := false;
                     driver := fine |} in
  let broken := {| glfw_init_ok := true; create_window_ok := true;
                   driver := picky |} in
  let p := new_process (initial_world 0) in
  glfw_init_ok headless = false
  /\ fst (render_loop crude_libm headless [] p)
     = Raised (Exception "GLFW init failed")
  /\ glfw_init_ok broken = true
  /\ create_window_ok broken = true
  /\ fst (glsl_compile picky GL_VERTEX_SHADER VERTEX_SHADER)
     && fst (glsl_compile picky GL_FRAGMENT_SHADER FRAGMENT_SHADER) = false
  /\ fst (render_loop crude_libm broken [] p)
     = Raised (RuntimeError "0:4: undeclared")
  /\ glfw_terminated (snd (render_loop crude_libm broken [] p)) = false.
Proof.
  intros fine picky headless broken p.
  assert (H1 : glfw_init_ok headless = false) by reflexivity.
  assert (H2 : glfw_init_ok broken = true) by reflexivity.
  assert (H3 : create_window_ok broken = true) by reflexivity.
  assert (H4 : fst (glsl_compile picky GL_VERTEX_SHADER VERTEX_SHADER)
               && fst (glsl_compile picky GL_FRAGMENT_SHADER FRAGMENT_SHADER)
               = false) by reflexivity.
  split; [exact H1|]. split.
  - exact (proj1 (proj1 (render_loop_startup_failures crude_libm headless [] p) H1)).
  - do 3 (split; [assumption|]).
    destruct (proj2 (render_loop_startup_failures crude_libm broken [] p) H2 H3 H4)
      as (Hr & _ & Ht & _).
    split; [exact Hr | exact Ht].
Defined.

Lemma render_loop_after_setup (libm : Libm) (platform : Platform)
      (steps : list Interference) (p : Process) :
  setup_succeeds platform ->
  render_loop libm platform steps p
  = and_then (while_window_open libm steps) (fun _ => terminate)
      (loop_entry libm (driver platform) p).
Proof.
  intros (Hi & Hw & Hv & Hf & Hl). now apply render_loop_enters.
Qed.

(** X7. When the setup goes through, the loop starts half a second later
    from the GL state [initial_gl], with the control state untouched,
    the grid of [make_grid(10)] (168 floats, 672 bytes) in the first
    buffer and the arrow of [make_vector(3, 1)] (12 floats, 48 bytes) in
    the second, which is the one left bound, the program of
    [make_program] in use and the clear colour set. *)
Theorem render_loop_setup (libm : Libm) (platform : Platform) (p : Process) :
  setup_succeeds platform ->
  close_requested (world p) = false ->
  let r := render_loop libm platform [] p in
  fst r = Running
  /\ shared (world (snd r)) = shared (world p)
  /\ gl (world (snd r)) = initial_gl
  /\ clock (world (snd r)) = (clock (world p) + 0.5)%float
  /\ math_popped (world (snd r)) = math_popped (world p)
  /\ trace (world (snd r))
     = trace (world p) ++ [EvSleep 0.5; EvBindBuffer VboGrid; EvBindBuffer VboVec]
  /\ buffer_lookup VboGrid (buffer_store (snd r)) = Some (672%Z, make_grid 10)
  /\ buffer_lookup VboVec (buffer_store (snd r))
     = Some (48%Z, make_vector libm 3 1)
  /\ List.length (make_grid 10) = 168%nat
  /\ List.length (make_vector libm 3 1) = 12%nat
  /\ fst (make_program (driver platform) VERTEX_SHADER FRAGMENT_SHADER no_objects)
     = Done 3%Z
  /\ program_in_use (snd r) = Some 3%Z
  /\ clear_color (snd r) = (0.1, 0.1, 0.1, 1.0)%float
  /\ glfw_terminated (snd r) = glfw_terminated p.
Proof.
  intros Hok Hc r. subst r. rewrite (render_loop_after_setup libm platform [] p Hok).
  unfold and_then, while_window_open, loop_entry.
  cbn [world render_frames close_requested fst snd]. rewrite Hc.
  cbn [fst snd world with_world shared gl clock math_popped trace buffer_store
       program_in_use clear_color glfw_terminated buffer_lookup buffer_eqb].
  destruct Hok as (_ & _ & Hv & Hf & _).
  rewrite (make_program_fresh (driver platform) Hv Hf).
  repeat split.
Qed.

(** The program as [make_controls] starts it, on a platform where
    everything works. *)
Lemma render_loop_setup_witness :
  let p := new_process (initial_world 0) in
  let r := render_loop crude_libm fine_platform [] p in
  setup_succeeds fine_platform
  /\ close_requested (world p) = false
  /\ fst r = Running
  /\ gl (world (snd r)) = gl (initial_world 0)
  /\ shared (world (snd r)) = shared (initial_world 0).
Proof.
  intros p r.
  assert (Hok : setup_succeeds fine_platform) by (repeat split).
  assert (Hc : close_requested (world p) = false) by reflexivity.
  split; [exact Hok|]. split; [exact Hc|].
  destruct (render_loop_setup crude_libm fine_platform p Hok Hc)
    as (Hr & Hs & Hg & _).
  split; [exact Hr|]. split; [exact Hg | exact Hs].
Defined.

(** X8. Once the setup is through, [render_loop] ends in one of two
    ways.  It returns after the window has been asked to close, having
    called [glfw.terminate].  Or an exception leaves it: one that a
    formula raised and [except Exception] does not catch, such as the
    [SystemExit] of [sys.exit()]; [glfw.terminate] is then not called
    and the window is left open.  Until then it is still running, with
    its window.  Of runs in which a formula leaves the modelled
    operations nothing is said. *)
Theorem render_loop_endings (libm : Libm) (platform : Platform)
        (steps : list Interference) (p : Process) :
  setup_succeeds platform ->
  let r := render_loop libm platform steps p in
  (forall err, fst r = Raised err ->
     exists x, err = Escaped x
               /\ is_Exception x = false
               /\ glfw_terminated (snd r) = glfw_terminated p
               /\ window (snd r) <> None)
  /\ (fst r = Done tt ->
      close_requested (world (snd r)) = true
      /\ glfw_terminated (snd r) = true
      /\ window (snd r) = None)
  /\ (fst r = Running ->
      close_requested (world (snd r)) = false
      /\ glfw_terminated (snd r) = glfw_terminated p
      /\ window (snd r) <> None).
Proof.
  intros Hok r. subst r. rewrite (render_loop_after_setup libm platform steps p Hok).
  unfold and_then, while_window_open.
  pose proof (render_frames_escapes libm steps
                (world (loop_entry libm (driver platform) p))) as Hesc.
  destruct (render_frames libm steps (world (loop_entry libm (driver platform) p)))
    as [[u|x|] w'].
  - destruct (close_requested w') eqn:Hc; cbn.
    + split; [discriminate|]. split; [intros _; rewrite Hc; repeat split|].
      discriminate.
    + split; [discriminate|]. split; [discriminate|].
      intros _. rewrite Hc. repeat split. discriminate.
  - cbn. split; [|split; discriminate].
    intros err Herr. inversion Herr. subst err. exists x.
    split; [reflexivity|]. split; [exact (Hesc x eq_refl)|].
    split; [reflexivity | discriminate].
  - cbn. split; [discriminate|]. split; discriminate.
Qed.

(** Two frames and the user closes the window; two frames and no more;
    and [sys.exit()] typed as the first formula. *)
Lemma render_loop_endings_witness :
  let tick := {| on_shared := fun s => s; elapsed := 0.016; asks_close := false |} in
  let close := {| on_shared := fun s => s; elapsed := 0.016; asks_close := true |} in
  let p := new_process (initial_world 0) in
  let q := new_process (quit_world 0) in
  setup_succeeds fine_platform
  /\ fst (render_loop crude_libm fine_platform [tick; tick; close] p) = Done tt
  /\ glfw_terminated
       (snd (render_loop crude_libm fine_platform [tick; tick; close] p)) = true
  /\ fst (render_loop crude_libm fine_platform [tick; tick] p) = Running
  /\ glfw_terminated
       (snd (render_loop crude_libm fine_platform [tick; tick] p)) = false
  /\ fst (render_loop crude_libm fine_platform [tick; tick; close] q)
     = Raised (Escaped SystemExit)
  /\ glfw_terminated
       (snd (render_loop crude_libm fine_platform [tick; tick; close] q)) = false.
Proof.
  intros tick close p q.
  assert (Hok : setup_succeeds fine_platform) by (repeat split).
  assert (Hd : fst (render_loop crude_libm fine_platform [tick; tick; close] p)
               = Done tt) by (vm_compute; reflexivity).
  assert (Hq : fst (render_loop crude_libm fine_platform [tick; tick; close] q)
               = Raised (Escaped SystemExit)) by (vm_compute; reflexivity).
  split; [exact Hok|]. split; [exact Hd|]. split.
  - exact (proj1 (proj2 (proj1 (proj2
             (render_loop_endings crude_libm fine_platform
                [tick; tick; close] p Hok)) Hd))).
  - assert (Hr : fst (render_loop crude_libm fine_platform [tick; tick] p)
                 = Running) by (vm_compute; reflexivity).
    split; [exact Hr|]. split.
    + exact (proj1 (proj2 (proj2 (proj2
               (render_loop_endings crude_libm fine_platform
                  [tick; tick] p Hok)) Hr))).
    + split; [exact Hq|].
      destruct (proj1 (render_loop_endings crude_libm fine_platform
                         [tick; tick; close] q Hok) _ Hq)
        as (x & _ & _ & Ht & _).
      exact Ht.
Defined.

(* ================================================================== *)
(** * Vertex counts *)

Lemma make_grid_length (n : Z) :
  List.length (make_grid n) = (8 * Z.to_nat (2 * n + 1))%nat.
Proof.
  unfold make_grid. rewrite length_map, grid_lines_rows.
  replace (2 * n + 1)%Z with (n + 1 - - n)%Z by lia.
  rewrite <- py_range_length.
  induction (py_range (- n) (n + 1)) as [|i l IH]; simpl; [reflexivity|].
  rewrite IH. lia.
Qed.

(** X10. The vertex counts the draw calls pass fit the arrays for every grid
    and every vector: [len(grid)//2] vertices, two floats each, end at
    the last float of [make_grid(n)] and make whole segments, and the 6
    vertices hard-coded for the arrow are the 12 floats [make_vector]
    always returns.  Below zero the grid is empty, and nothing is
    drawn for it. *)
Theorem draw_counts_fit_arrays (libm : Libm) (n : Z) (x y : float) :
  let len := Z.of_nat (List.length (make_grid n)) in
  len = (8 * Z.max 0 (2 * n + 1))%Z
  /\ (2 * (len / 2) = len)%Z
  /\ Z.even (len / 2) = true
  /\ (len / 2 = 2 * Z.of_nat (List.length (segments (make_grid n))))%Z
  /\ ((n < 0)%Z -> make_grid n = [])
  /\ Z.of_nat (List.length (make_vector libm x y)) = (2 * 6)%Z
  /\ List.length (segments (make_vector libm x y)) = 3%nat.
Proof.
  intro len.
  assert (Hlen : len = (8 * Z.max 0 (2 * n + 1))%Z).
  { unfold len. rewrite make_grid_length. lia. }
  assert (Hseg : Z.of_nat (List.length (segments (make_grid n)))
                 = (2 * Z.max 0 (2 * n + 1))%Z).
  { unfold make_grid. rewrite segments_map, length_map, grid_lines_rows.
    rewrite segments_rows, flat_map_pair_length, py_range_length. lia. }
  assert (Hhalf : (len / 2 = 4 * Z.max 0 (2 * n + 1))%Z).
  { rewrite Hlen. replace (8 * Z.max 0 (2 * n + 1))%Z
      with ((4 * Z.max 0 (2 * n + 1)) * 2)%Z by lia.
    apply Z.div_mul. lia. }
  split; [exact Hlen|].
  split; [rewrite Hhalf, Hlen; lia|].
  split; [rewrite Hhalf;
          replace (4 * Z.max 0 (2 * n + 1))%Z with (2 * (2 * Z.max 0 (2 * n + 1)))%Z
            by lia; apply Z.even_mul; left; reflexivity|].
  split; [rewrite Hhalf, Hseg; lia|].
  split.
  - intro Hn. apply length_zero_iff_nil. rewrite make_grid_length.
    replace (Z.to_nat (2 * n + 1)) with 0%nat by lia. reflexivity.
  - split; reflexivity.
Qed.

(** [make_grid(-3)] is empty. *)
Lemma draw_counts_fit_arrays_witness :
  (-3 < 0)%Z /\ make_grid (-3) = [].
Proof.
  split; [lia|].
  apply (draw_counts_fit_arrays crude_libm (-3) 0 0). lia.
Defined.

(* ================================================================== *)
(** * Every frame reads its buffers from end to end *)






(* ================================================================== *)
(** * The shape of the grid *)

Lemma mirrored_map4 {A B : Type} (f : A -> B) (s : A * A * A * A) :
  mirrored (map4 f s) = map4 f (mirrored s).
Proof. destruct s as [[[x1 y1] x2] y2]. reflexivity. Qed.

(** X16. The grid is its own mirror image in the diagonal: for every [n],
    each segment of [make_grid(n)] with its coordinates swapped is again
    a segment of [make_grid(n)], the vertical line at [i] going to the
    horizontal line at [i] and back. *)
Theorem make_grid_mirrored (n : Z) (s : float * float * float * float) :
  In s (segments (make_grid n)) -> In (mirrored s) (segments (make_grid n)).
Proof.
  unfold make_grid. rewrite segments_map, grid_lines_rows, segments_rows.
  intro Hin. apply in_map_iff in Hin. destruct Hin as (z & <- & Hz).
  rewrite mirrored_map4. apply in_map.
  apply in_flat_map in Hz. destruct Hz as (i & Hi & Hz).
  apply in_flat_map. exists i. split; [exact Hi|].
  simpl in Hz |- *. destruct Hz as [<-|[<-|[]]]; simpl; auto.
Qed.

(** The vertical line at 2 of [make_grid(10)] and its mirror image. *)
Lemma make_grid_mirrored_witness :
  In (2, -10, 2, 10)%float (segments (make_grid 10))
  /\ In (-10, 2, 10, 2)%float (segments (make_grid 10)).
Proof.
  assert (H : In (2, -10, 2, 10)%float (segments (make_grid 10)))
    by (vm_compute; tauto).
  split; [exact H|].
  exact (make_grid_mirrored 10 (2, -10, 2, 10)%float H).
Defined.
